(** * OpenList credit module: ledger, pricing, redemption, payment orders

    A shallow embedding of the Go packages [model], [db], [op], [payment] and
    [handles] of the credit add-on, and the properties of its specification
    checked against that code.

    Conventions of the embedding.
    - Go [int64] and [int] fields are [Z]; every arithmetic operation of the
      source is followed by its two's-complement wrap-around ([wrap64]).
    - Go [uint] fields (primary keys, user ids) are [N].
    - Go strings are [string] (sequences of bytes).
    - A table is the list of its rows in ascending primary-key order, so the
      row GORM's [First] returns is the first match of the list.
    - Every function of package [db] is one SQL statement.  A statement is an
      atomic action on the [World]; a function of package [op] is a program
      ([prog]) built from such actions, which can be run alone ([run]) or
      interleaved with another program ([interleave]).
    - The storage driver may fail: the world carries a list of booleans, one
      per statement still to come, [true] meaning that the statement fails
      with a driver error and changes nothing.
    - GORM's soft deletion is modelled on the two tables from which package
      [db] deletes rows (pricing rules and registrations); rows of the other
      tables are never deleted.  Timestamps that GORM maintains and that no
      code reads are left out of the records.
    - Random draws ([random.String], [rand.Read]) are arguments of the
      functions that make them.
    - Functions defined outside these packages ([op.CreateUser],
      [db.GetUserByName], [model.TwoHashPwd]) and the primitives of the Go
      library the providers call (hashes, signatures, base64, XML and time
      parsing) are variables of the sections that use them. *)

From Stdlib Require Import ZArith NArith List String Ascii Bool Lia.
From Stdlib Require Import DecimalString Permutation.
From Stdlib Require OrderedTypeEx.
Import ListNotations.
Local Open Scope string_scope.
Local Open Scope list_scope.
Local Open Scope Z_scope.

(** ** Machine integers *)

Definition min_int64 : Z := - 2 ^ 63.
Definition max_int64 : Z := 2 ^ 63 - 1.

Definition int64_range (z : Z) : Prop := min_int64 <= z <= max_int64.

(** The value an [int64] variable holds after being assigned the
    mathematical integer [z]. *)
Definition wrap64 (z : Z) : Z := (z + 2 ^ 63) mod 2 ^ 64 - 2 ^ 63.

Definition add64 (a b : Z) : Z := wrap64 (a + b).
Definition sub64 (a b : Z) : Z := wrap64 (a - b).
Definition neg64 (a : Z) : Z := wrap64 (- a).

(** ** Errors *)

(** Go [error] values, as the code builds them: the two kinds of error a GORM
    call reports ([gorm.ErrRecordNotFound], or anything else coming from the
    driver), [errors.New] and [errors.Wrap]. *)
Inductive error : Type :=
| ErrRecordNotFound
| ErrDriver
| New (msg : string)
| Wrap (cause : error) (msg : string).

(** [errors.Is(err, gorm.ErrRecordNotFound)]: follows the chain of wrapped
    causes. *)
Fixpoint Is_ErrRecordNotFound (e : error) : bool :=
  match e with
  | ErrRecordNotFound => true
  | Wrap c _ => Is_ErrRecordNotFound c
  | _ => false
  end.

Inductive result (A : Type) : Type :=
| Ok (a : A)
| Err (e : error).

Arguments Ok {A} a.
Arguments Err {A} e.

Definition is_ok {A} (r : result A) : bool :=
  match r with Ok _ => true | Err _ => false end.

(** The error kinds of the specification, as the messages the code returns. *)
Definition InsufficientBalance : error := New "积分不足".
Definition InvalidOrderState : error := New "订单状态异常".
Definition OrderExpired : error := New "订单已过期".
Definition CodeNotFound : error := New "兑换码不存在".
Definition CodeUnusable : error := New "兑换码已使用或已过期".

(** ** Package model *)

Module model.

Module UserCredits.
Record t : Type := mk {
  ID : N;
  UserID : N;
  Balance : Z;
  TotalEarn : Z;
  TotalSpent : Z
}.
Definition set_ID (i : N) (c : t) : t :=
  mk i (UserID c) (Balance c) (TotalEarn c) (TotalSpent c).
End UserCredits.

Module CreditTransaction.
Record t : Type := mk {
  ID : N;
  UserID : N;
  Type_ : string;
  Amount : Z;
  Balance : Z;
  Source : string;
  SourceID : string;
  Description : string
}.
Definition set_ID (i : N) (x : t) : t :=
  mk i (UserID x) (Type_ x) (Amount x) (Balance x) (Source x) (SourceID x)
     (Description x).
End CreditTransaction.

Module FileCreditsConfig.
Record t : Type := mk {
  ID : N;
  Path : string;
  IsFolder : bool;
  Credits : Z;
  Inheritable : bool;
  Enabled : bool;
  CreatedBy : N;
  (** [DeletedAt] is set: the row is soft-deleted. *)
  Deleted : bool
}.

Definition set_ID (i : N) (c : t) : t :=
  mk i (Path c) (IsFolder c) (Credits c) (Inheritable c) (Enabled c)
     (CreatedBy c) (Deleted c).

Definition set_Deleted (b : bool) (c : t) : t :=
  mk (ID c) (Path c) (IsFolder c) (Credits c) (Inheritable c) (Enabled c)
     (CreatedBy c) b.

End FileCreditsConfig.

Module RedeemCode.
Record t : Type := mk {
  ID : N;
  Code : string;
  Credits : Z;
  MaxUses : Z;
  UsedCount : Z;
  Enabled : bool;
  (** [ExpiresAt *time.Time]: [None] is the nil pointer. *)
  ExpiresAt : option Z;
  CreatedBy : N;
  Description : string
}.

Definition set_ID (i : N) (c : t) : t :=
  mk i (Code c) (Credits c) (MaxUses c) (UsedCount c) (Enabled c)
     (ExpiresAt c) (CreatedBy c) (Description c).

Definition set_UsedCount (n : Z) (c : t) : t :=
  mk (ID c) (Code c) (Credits c) (MaxUses c) n (Enabled c)
     (ExpiresAt c) (CreatedBy c) (Description c).

(** [time.Now().After( *rc.ExpiresAt)], the clock reading passed as [now]. *)
Definition IsExpired (rc : t) (now : Z) : bool :=
  match ExpiresAt rc with
  | None => false
  | Some e => e <? now
  end.

Definition CanUse (rc : t) (now : Z) : bool :=
  Enabled rc && negb (IsExpired rc now) && (UsedCount rc <? MaxUses rc).
End RedeemCode.

Module RedeemCodeUsage.
Record t : Type := mk {
  ID : N;
  RedeemCodeID : N;
  UserID : N;
  Credits : Z;
  UsedAt : Z
}.
Definition set_ID (i : N) (u : t) : t :=
  mk i (RedeemCodeID u) (UserID u) (Credits u) (UsedAt u).
End RedeemCodeUsage.

Module PaymentOrder.
Record t : Type := mk {
  ID : N;
  OrderNo : string;
  UserID : N;
  Credits : Z;
  Amount : Z;
  PaymentMethod : string;
  Status : string;
  PaidAt : option Z;
  ExpiresAt : Z;
  PaymentData : string
}.

Definition set_ID (i : N) (o : t) : t :=
  mk i (OrderNo o) (UserID o) (Credits o) (Amount o) (PaymentMethod o)
     (Status o) (PaidAt o) (ExpiresAt o) (PaymentData o).

Definition set_Status (s : string) (o : t) : t :=
  mk (ID o) (OrderNo o) (UserID o) (Credits o) (Amount o) (PaymentMethod o)
     s (PaidAt o) (ExpiresAt o) (PaymentData o).

Definition set_PaymentData (s : string) (o : t) : t :=
  mk (ID o) (OrderNo o) (UserID o) (Credits o) (Amount o) (PaymentMethod o)
     (Status o) (PaidAt o) (ExpiresAt o) s.

Definition set_PaidAt (p : option Z) (o : t) : t :=
  mk (ID o) (OrderNo o) (UserID o) (Credits o) (Amount o) (PaymentMethod o)
     (Status o) p (ExpiresAt o) (PaymentData o).

Definition IsExpired (po : t) (now : Z) : bool := ExpiresAt po <? now.

Definition IsPaid (po : t) : bool := String.eqb (Status po) "paid".
End PaymentOrder.

Module UserRegistration.
Record t : Type := mk {
  ID : N;
  Email : string;
  Username : string;
  Password : string;
  PwdHash : string;
  Salt : string;
  Status : Z;
  Token : string;
  ExpiresAt : Z;
  Deleted : bool
}.

Definition set_ID (i : N) (r : t) : t :=
  mk i (Email r) (Username r) (Password r) (PwdHash r) (Salt r) (Status r)
     (Token r) (ExpiresAt r) (Deleted r).

Definition set_Status (s : Z) (r : t) : t :=
  mk (ID r) (Email r) (Username r) (Password r) (PwdHash r) (Salt r) s
     (Token r) (ExpiresAt r) (Deleted r).

Definition IsExpired (ur : t) (now : Z) : bool := ExpiresAt ur <? now.
End UserRegistration.

(** The fields of [model.User] that [ApproveUserRegistration] fills in. *)
Module User.
Record t : Type := mk {
  ID : N;
  Username : string;
  PwdHash : string;
  Salt : string;
  BasePath : string;
  Role : Z;
  Disabled : bool;
  Permission : Z
}.
End User.

End model.

(** ** The store *)

Record DB : Type := mkDB {
  user_credits : list model.UserCredits.t;
  credit_transactions : list model.CreditTransaction.t;
  file_credits_configs : list model.FileCreditsConfig.t;
  redeem_codes : list model.RedeemCode.t;
  redeem_code_usages : list model.RedeemCodeUsage.t;
  payment_orders : list model.PaymentOrder.t;
  user_registrations : list model.UserRegistration.t
}.

Definition empty_DB : DB := mkDB [] [] [] [] [] [] [].

Record World : Type := mkWorld {
  w_db : DB;
  (** the reading of [time.Now()] *)
  w_now : Z;
  (** the fate of the statements still to come *)
  w_faults : list bool
}.

(** ** Programs over the store *)

Inductive prog (A : Type) : Type :=
| Ret (a : A)
| Act (X : Type) (f : World -> X * World) (k : X -> prog A).

Arguments Ret {A} a.
Arguments Act {A X} f k.

Fixpoint bind {A B} (m : prog A) (g : A -> prog B) : prog B :=
  match m with
  | Ret a => g a
  | Act f k => Act f (fun x => bind (k x) g)
  end.

Definition call {X} (f : World -> X * World) : prog X := Act f Ret.

Notation "x <- m ;; k" := (bind m (fun x => k))
  (at level 61, m at next level, right associativity).

(** One thread alone. *)
Fixpoint run {A} (m : prog A) (w : World) : A * World :=
  match m with
  | Ret a => (a, w)
  | Act f k => let (x, w') := f w in run (k x) w'
  end.

(** Two threads; the schedule says which one performs the next statement
    ([true]: the first).  When the schedule ends, or the chosen thread has
    finished, what remains runs in order. *)
Fixpoint interleave {A B} (sched : list bool) (p : prog A) (q : prog B)
  (w : World) : A * B * World :=
  match sched with
  | [] =>
      let (a, w1) := run p w in
      let (b, w2) := run q w1 in (a, b, w2)
  | true :: sched' =>
      match p with
      | Ret a => let (b, w') := run q w in (a, b, w')
      | Act f k => let (x, w') := f w in interleave sched' (k x) q w'
      end
  | false :: sched' =>
      match q with
      | Ret b => let (a, w') := run p w in (a, b, w')
      | Act f k => let (x, w') := f w in interleave sched' p (k x) w'
      end
  end.

(** The number of statements the program performs when run alone. *)
Fixpoint steps {A} (m : prog A) (w : World) : nat :=
  match m with
  | Ret _ => O
  | Act f k => let (x, w') := f w in S (steps (k x) w')
  end.

(** The schedule lets the first thread finish before the second starts:
    as long as the first thread has statements left, it is the one
    picked. *)
Definition first_runs_alone {A} (sched : list bool) (p : prog A) (w : World)
  : Prop :=
  forallb (fun b => b) (firstn (steps p w) sched) = true.

(** The schedule lets the second thread finish before the first starts. *)
Definition second_runs_alone {B} (sched : list bool) (q : prog B) (w : World)
  : Prop :=
  firstn (steps q w) sched = repeat false (steps q w).

(** ** GORM *)

Module gorm.

(** One SQL statement: fails without effect when the driver is due to
    fail, and otherwise transforms the store. *)
Definition stmt {X} (q : DB -> result X * DB) (w : World)
  : result X * World :=
  if hd false (w_faults w)
  then (Err ErrDriver, mkWorld (w_db w) (w_now w) (tl (w_faults w)))
  else let (r, d) := q (w_db w) in
       (r, mkWorld d (w_now w) (tl (w_faults w))).

Section Table.
Context {R : Type}.
Variable pk : R -> N.
Variable set_pk : N -> R -> R.
(** [conflict r x]: rows [r] and [x] agree on a unique index of the table. *)
Variable conflict : R -> R -> bool.

(** [db.Where(cond).First(&row)] *)
Definition First (cond : R -> bool) (t : list R) : result R :=
  match find cond t with
  | Some r => Ok r
  | None => Err ErrRecordNotFound
  end.

Definition next_id (t : list R) : N :=
  N.succ (fold_right N.max 0%N (map pk t)).

(** [db.Create(&row)]: refused when a unique index is violated; a zero
    primary key is replaced by the next auto-increment value; a given one
    must be free.  The row is returned with its key, as GORM writes the key
    back into the struct. *)
Definition Create (r : R) (t : list R) : result R * list R :=
  if existsb (conflict r) t then (Err ErrDriver, t)
  else if (pk r =? 0)%N
  then let r' := set_pk (next_id t) r in (Ok r', t ++ [r'])
  else if existsb (fun x => (pk x =? pk r)%N) t
       then (Err ErrDriver, t)
       else (Ok r, t ++ [r]).

(** [db.Save(&row)]: an insert when the primary key is zero, otherwise an
    update of the row with that key, or an insert when there is none.  No
    function of package [op] changes a uniquely indexed column of a row it
    saves, so an update cannot violate a unique index. *)
Definition Save (r : R) (t : list R) : result R * list R :=
  if (pk r =? 0)%N then Create r t
  else if existsb (fun x => (pk x =? pk r)%N) t
       then (Ok r, map (fun x => if (pk x =? pk r)%N then r else x) t)
       else Create r t.

End Table.

(** SQL [s LIKE pat]: [%] matches any run of characters, [_] any single
    one, every other character itself. *)
Fixpoint LIKE_ (pat s : string) {struct pat} : bool :=
  match pat with
  | EmptyString => match s with EmptyString => true | _ => false end
  | String c pat' =>
      if Ascii.eqb c "%"%char then
        (fix star (s : string) : bool :=
           LIKE_ pat' s
           || match s with
              | EmptyString => false
              | String _ s' => star s'
              end) s
      else if Ascii.eqb c "_"%char then
        match s with
        | EmptyString => false
        | String _ s' => LIKE_ pat' s'
        end
      else
        match s with
        | EmptyString => false
        | String c' s' => Ascii.eqb c c' && LIKE_ pat' s'
        end
  end.

Definition LIKE (s pat : string) : bool := LIKE_ pat s.

(** [Order("LENGTH(path) DESC").First]: the first row of greatest length. *)
Definition longest_first {R} (len : R -> nat) (t : list R) : option R :=
  fold_left
    (fun best r =>
       match best with
       | None => Some r
       | Some b => if (len b <? len r)%nat then Some r else Some b
       end) t None.

End gorm.

(** ** Package db *)

Module db.
Import model.

Definition no_conflict {R} (_ _ : R) : bool := false.

Definition set_user_credits t (d : DB) : DB :=
  mkDB t (credit_transactions d) (file_credits_configs d) (redeem_codes d)
       (redeem_code_usages d) (payment_orders d) (user_registrations d).

Definition set_credit_transactions t (d : DB) : DB :=
  mkDB (user_credits d) t (file_credits_configs d) (redeem_codes d)
       (redeem_code_usages d) (payment_orders d) (user_registrations d).

Definition set_redeem_codes t (d : DB) : DB :=
  mkDB (user_credits d) (credit_transactions d) (file_credits_configs d) t
       (redeem_code_usages d) (payment_orders d) (user_registrations d).

Definition set_redeem_code_usages t (d : DB) : DB :=
  mkDB (user_credits d) (credit_transactions d) (file_credits_configs d)
       (redeem_codes d) t (payment_orders d) (user_registrations d).

Definition set_payment_orders t (d : DB) : DB :=
  mkDB (user_credits d) (credit_transactions d) (file_credits_configs d)
       (redeem_codes d) (redeem_code_usages d) t (user_registrations d).

Definition set_user_registrations t (d : DB) : DB :=
  mkDB (user_credits d) (credit_transactions d) (file_credits_configs d)
       (redeem_codes d) (redeem_code_usages d) (payment_orders d) t.

(** [user_id] carries a unique index. *)
Definition same_user (a b : UserCredits.t) : bool :=
  (UserCredits.UserID b =? UserCredits.UserID a)%N.

Definition by_user (userID : N) (c : UserCredits.t) : bool :=
  (UserCredits.UserID c =? userID)%N.

Definition CreateUserCredits (credits : UserCredits.t)
  : World -> result UserCredits.t * World :=
  gorm.stmt (fun d =>
    let (r, t) := gorm.Create UserCredits.ID UserCredits.set_ID same_user
                              credits (user_credits d) in
    (r, set_user_credits t d)).

Definition GetUserCreditsByUserID (userID : N)
  : World -> result UserCredits.t * World :=
  gorm.stmt (fun d => (gorm.First (by_user userID) (user_credits d), d)).

Definition UpdateUserCredits (credits : UserCredits.t)
  : World -> result UserCredits.t * World :=
  gorm.stmt (fun d =>
    let (r, t) := gorm.Save UserCredits.ID UserCredits.set_ID same_user
                            credits (user_credits d) in
    (r, set_user_credits t d)).

Definition CreateCreditTransaction (transaction : CreditTransaction.t)
  : World -> result CreditTransaction.t * World :=
  gorm.stmt (fun d =>
    let (r, t) := gorm.Create CreditTransaction.ID CreditTransaction.set_ID
                              no_conflict transaction
                              (credit_transactions d) in
    (r, set_credit_transactions t d)).

(** ["path = ? AND enabled = true"], and GORM's own [deleted_at IS NULL]. *)
Definition exact_enabled (path : string) (c : FileCreditsConfig.t) : bool :=
  String.eqb (FileCreditsConfig.Path c) path
  && FileCreditsConfig.Enabled c
  && negb (FileCreditsConfig.Deleted c).

Definition GetFileCreditsConfigByPath (path : string)
  : World -> result FileCreditsConfig.t * World :=
  gorm.stmt (fun d =>
    (gorm.First (exact_enabled path) (file_credits_configs d), d)).

(** ["? LIKE CONCAT(path, '%') AND is_folder = true AND inheritable = true
    AND enabled = true"], and GORM's own [deleted_at IS NULL]. *)
Definition inheritable_match (path : string) (c : FileCreditsConfig.t)
  : bool :=
  gorm.LIKE path (FileCreditsConfig.Path c ++ "%")
  && FileCreditsConfig.IsFolder c
  && FileCreditsConfig.Inheritable c
  && FileCreditsConfig.Enabled c
  && negb (FileCreditsConfig.Deleted c).

Definition GetInheritableCreditsConfig (path : string)
  : World -> result FileCreditsConfig.t * World :=
  gorm.stmt (fun d =>
    (match gorm.longest_first
             (fun c => String.length (FileCreditsConfig.Path c))
             (filter (inheritable_match path) (file_credits_configs d)) with
     | Some c => Ok c
     | None => Err ErrRecordNotFound
     end, d)).

(** ["code = ? AND enabled = true"] *)
Definition code_enabled (code : string) (c : RedeemCode.t) : bool :=
  String.eqb (RedeemCode.Code c) code && RedeemCode.Enabled c.

Definition same_code (a b : RedeemCode.t) : bool :=
  String.eqb (RedeemCode.Code b) (RedeemCode.Code a).

Definition GetRedeemCodeByCode (code : string)
  : World -> result RedeemCode.t * World :=
  gorm.stmt (fun d => (gorm.First (code_enabled code) (redeem_codes d), d)).

Definition UpdateRedeemCode (code : RedeemCode.t)
  : World -> result RedeemCode.t * World :=
  gorm.stmt (fun d =>
    let (r, t) := gorm.Save RedeemCode.ID RedeemCode.set_ID same_code
                            code (redeem_codes d) in
    (r, set_redeem_codes t d)).

Definition CreateRedeemCodeUsage (usage : RedeemCodeUsage.t)
  : World -> result RedeemCodeUsage.t * World :=
  gorm.stmt (fun d =>
    let (r, t) := gorm.Create RedeemCodeUsage.ID RedeemCodeUsage.set_ID
                              no_conflict usage (redeem_code_usages d) in
    (r, set_redeem_code_usages t d)).

(** ["order_no = ?"] *)
Definition by_order_no (orderNo : string) (o : PaymentOrder.t) : bool :=
  String.eqb (PaymentOrder.OrderNo o) orderNo.

Definition same_order_no (a b : PaymentOrder.t) : bool :=
  String.eqb (PaymentOrder.OrderNo b) (PaymentOrder.OrderNo a).

Definition GetPaymentOrderByOrderNo (orderNo : string)
  : World -> result PaymentOrder.t * World :=
  gorm.stmt (fun d =>
    (gorm.First (by_order_no orderNo) (payment_orders d), d)).

Definition UpdatePaymentOrder (order : PaymentOrder.t)
  : World -> result PaymentOrder.t * World :=
  gorm.stmt (fun d =>
    let (r, t) := gorm.Save PaymentOrder.ID PaymentOrder.set_ID same_order_no
                            order (payment_orders d) in
    (r, set_payment_orders t d)).

(** ["token = ? AND status = 0"], and GORM's own [deleted_at IS NULL]. *)
Definition by_token_pending (token : string) (r : UserRegistration.t)
  : bool :=
  String.eqb (UserRegistration.Token r) token
  && (UserRegistration.Status r =? 0)
  && negb (UserRegistration.Deleted r).

Definition same_registration (a b : UserRegistration.t) : bool :=
  String.eqb (UserRegistration.Email b) (UserRegistration.Email a)
  || String.eqb (UserRegistration.Username b) (UserRegistration.Username a)
  || String.eqb (UserRegistration.Token b) (UserRegistration.Token a).

Definition GetUserRegistrationByToken (token : string)
  : World -> result UserRegistration.t * World :=
  gorm.stmt (fun d =>
    (gorm.First (by_token_pending token) (user_registrations d), d)).

Definition UpdateUserRegistration (registration : UserRegistration.t)
  : World -> result UserRegistration.t * World :=
  gorm.stmt (fun d =>
    let (r, t) := gorm.Save UserRegistration.ID UserRegistration.set_ID
                            same_registration registration
                            (user_registrations d) in
    (r, set_user_registrations t d)).


(** [order_no] carries a unique index. *)
Definition CreatePaymentOrder (order : PaymentOrder.t)
  : World -> result PaymentOrder.t * World :=
  gorm.stmt (fun d =>
    let (r, t) := gorm.Create PaymentOrder.ID PaymentOrder.set_ID
                              same_order_no order (payment_orders d) in
    (r, set_payment_orders t d)).


Definition set_file_credits_configs t (d : DB) : DB :=
  mkDB (user_credits d) (credit_transactions d) t (redeem_codes d)
       (redeem_code_usages d) (payment_orders d) (user_registrations d).

(** [db.Create] replaces the zero value of a field whose tag gives a
    default by that default, and writes it back into the struct:
    [inheritable] and [enabled] have [default:true]. *)
Definition file_credits_config_defaults (c : FileCreditsConfig.t)
  : FileCreditsConfig.t :=
  FileCreditsConfig.mk
    (FileCreditsConfig.ID c) (FileCreditsConfig.Path c)
    (FileCreditsConfig.IsFolder c) (FileCreditsConfig.Credits c)
    (if FileCreditsConfig.Inheritable c then true else true)
    (if FileCreditsConfig.Enabled c then true else true)
    (FileCreditsConfig.CreatedBy c) (FileCreditsConfig.Deleted c).

(** [path] carries a unique index; the index covers soft-deleted rows
    too. *)
Definition same_path (a b : FileCreditsConfig.t) : bool :=
  String.eqb (FileCreditsConfig.Path b) (FileCreditsConfig.Path a).

Definition CreateFileCreditsConfig (config : FileCreditsConfig.t)
  : World -> result FileCreditsConfig.t * World :=
  gorm.stmt (fun d =>
    let (r, t) := gorm.Create FileCreditsConfig.ID FileCreditsConfig.set_ID
                              same_path (file_credits_config_defaults config)
                              (file_credits_configs d) in
    (r, set_file_credits_configs t d)).

(** [db.Delete(&model.FileCreditsConfig{}, id)]: the model has a
    [DeletedAt] field, so the rows with that key that are not yet deleted
    are marked as deleted; no error when there is none. *)
Definition soft_delete (id : N) (c : FileCreditsConfig.t)
  : FileCreditsConfig.t :=
  if (FileCreditsConfig.ID c =? id)%N && negb (FileCreditsConfig.Deleted c)
  then FileCreditsConfig.set_Deleted true c
  else c.

Definition DeleteFileCreditsConfig (id : N) : World -> result unit * World :=
  gorm.stmt (fun d =>
    (Ok tt,
     set_file_credits_configs (map (soft_delete id) (file_credits_configs d))
                              d)).

(** [max_uses] has [default:1], [used_count] [default:0], [enabled]
    [default:true]. *)
Definition redeem_code_defaults (c : RedeemCode.t) : RedeemCode.t :=
  RedeemCode.mk
    (RedeemCode.ID c) (RedeemCode.Code c) (RedeemCode.Credits c)
    (if RedeemCode.MaxUses c =? 0 then 1 else RedeemCode.MaxUses c)
    (if RedeemCode.UsedCount c =? 0 then 0 else RedeemCode.UsedCount c)
    (if RedeemCode.Enabled c then true else true)
    (RedeemCode.ExpiresAt c) (RedeemCode.CreatedBy c)
    (RedeemCode.Description c).

Definition CreateRedeemCode (code : RedeemCode.t)
  : World -> result RedeemCode.t * World :=
  gorm.stmt (fun d =>
    let (r, t) := gorm.Create RedeemCode.ID RedeemCode.set_ID same_code
                              (redeem_code_defaults code) (redeem_codes d) in
    (r, set_redeem_codes t d)).

Definition CreateUserRegistration (registration : UserRegistration.t)
  : World -> result UserRegistration.t * World :=
  gorm.stmt (fun d =>
    let (r, t) := gorm.Create UserRegistration.ID UserRegistration.set_ID
                              same_registration registration
                              (user_registrations d) in
    (r, set_user_registrations t d)).

(** ["email = ?"], and GORM's own [deleted_at IS NULL]. *)
Definition by_email (email : string) (r : UserRegistration.t) : bool :=
  String.eqb (UserRegistration.Email r) email
  && negb (UserRegistration.Deleted r).

Definition GetUserRegistrationByEmail (email : string)
  : World -> result UserRegistration.t * World :=
  gorm.stmt (fun d =>
    (gorm.First (by_email email) (user_registrations d), d)).

End db.

(** [time.Now()] *)
Definition time_Now (w : World) : Z * World := (w_now w, w).

(** ** Package op *)

Module op.
Import model.

Definition CreateUserCredits (userID : N) : prog (result UserCredits.t) :=
  r <- call (db.GetUserCreditsByUserID userID) ;;
  match r with
  | Ok existing => Ret (Ok existing)
  | Err _ =>
      let credits := UserCredits.mk 0 userID 0 0 0 in
      r <- call (db.CreateUserCredits credits) ;;
      match r with
      | Err err => Ret (Err (Wrap err "创建用户积分账户失败"))
      | Ok credits => Ret (Ok credits)
      end
  end.

Definition GetUserCredits (userID : N) : prog (result UserCredits.t) :=
  r <- call (db.GetUserCreditsByUserID userID) ;;
  match r with
  | Err err =>
      if Is_ErrRecordNotFound err
      then CreateUserCredits userID
      else Ret (Err (Wrap err "获取用户积分失败"))
  | Ok credits => Ret (Ok credits)
  end.

Definition AddCredits (userID : N) (amount : Z) (reason orderID : string)
  : prog (result unit) :=
  r <- GetUserCredits userID ;;
  match r with
  | Err err => Ret (Err err)
  | Ok credits =>
      let credits :=
        UserCredits.mk (UserCredits.ID credits) (UserCredits.UserID credits)
          (add64 (UserCredits.Balance credits) amount)
          (add64 (UserCredits.TotalEarn credits) amount)
          (UserCredits.TotalSpent credits) in
      r <- call (db.UpdateUserCredits credits) ;;
      match r with
      | Err err => Ret (Err (Wrap err "更新用户积分失败"))
      | Ok _ =>
          let transaction :=
            CreditTransaction.mk 0 userID "earn" amount
              (UserCredits.Balance credits) reason orderID reason in
          r <- call (db.CreateCreditTransaction transaction) ;;
          match r with
          | Err err => Ret (Err (Wrap err "记录积分交易失败"))
          | Ok _ => Ret (Ok tt)
          end
      end
  end.

Definition DeductCredits (userID : N) (amount : Z) (reason fileID : string)
  : prog (result unit) :=
  r <- GetUserCredits userID ;;
  match r with
  | Err err => Ret (Err err)
  | Ok credits =>
      if UserCredits.Balance credits <? amount
      then Ret (Err (New "积分不足"))
      else
        let credits :=
          UserCredits.mk (UserCredits.ID credits) (UserCredits.UserID credits)
            (sub64 (UserCredits.Balance credits) amount)
            (UserCredits.TotalEarn credits)
            (add64 (UserCredits.TotalSpent credits) amount) in
        r <- call (db.UpdateUserCredits credits) ;;
        match r with
        | Err err => Ret (Err (Wrap err "更新用户积分失败"))
        | Ok _ =>
            let transaction :=
              CreditTransaction.mk 0 userID "spend" (neg64 amount)
                (UserCredits.Balance credits) "download" fileID reason in
            r <- call (db.CreateCreditTransaction transaction) ;;
            match r with
            | Err err => Ret (Err (Wrap err "记录积分交易失败"))
            | Ok _ => Ret (Ok tt)
            end
        end
  end.

Definition GetFileCreditsConfig (path : string)
  : prog (result FileCreditsConfig.t) :=
  r <- call (db.GetFileCreditsConfigByPath path) ;;
  match r with
  | Err err =>
      if Is_ErrRecordNotFound err
      then call (db.GetInheritableCreditsConfig path)
      else Ret (Err (Wrap err "获取文件积分配置失败"))
  | Ok config => Ret (Ok config)
  end.

(** Returns [(canDownload, requiredCredits, err)]; [None] is the nil
    error. *)
Definition CheckFileDownloadPermission (userID : N) (filePath : string)
  : prog (bool * Z * option error) :=
  r <- GetFileCreditsConfig filePath ;;
  match r with
  | Err _ => Ret (true, 0, None)
  | Ok config =>
      if FileCreditsConfig.Credits config <=? 0
      then Ret (true, 0, None)
      else
        r <- GetUserCredits userID ;;
        match r with
        | Err err => Ret (false, FileCreditsConfig.Credits config, Some err)
        | Ok userCredits =>
            if UserCredits.Balance userCredits
               <? FileCreditsConfig.Credits config
            then Ret (false, FileCreditsConfig.Credits config, None)
            else Ret (true, FileCreditsConfig.Credits config, None)
        end
  end.

Definition ProcessFileDownload (userID : N) (filePath : string)
  : prog (result unit) :=
  p <- CheckFileDownloadPermission userID filePath ;;
  match p with
  | (_, _, Some err) => Ret (Err err)
  | (canDownload, requiredCredits, None) =>
      if negb canDownload then Ret (Err (New "积分不足"))
      else if 0 <? requiredCredits
      then DeductCredits userID requiredCredits
                         ("下载文件: " ++ filePath) filePath
      else Ret (Ok tt)
  end.

Definition RedeemCode (userID : N) (code : string) : prog (result unit) :=
  r <- call (db.GetRedeemCodeByCode code) ;;
  match r with
  | Err err =>
      if Is_ErrRecordNotFound err
      then Ret (Err (New "兑换码不存在"))
      else Ret (Err (Wrap err "获取兑换码失败"))
  | Ok redeemCode =>
      now <- call time_Now ;;
      if negb (RedeemCode.CanUse redeemCode now)
      then Ret (Err (New "兑换码已使用或已过期"))
      else
        let redeemCode :=
          RedeemCode.set_UsedCount
            (add64 (RedeemCode.UsedCount redeemCode) 1) redeemCode in
        r <- call (db.UpdateRedeemCode redeemCode) ;;
        match r with
        | Err err => Ret (Err (Wrap err "更新兑换码状态失败"))
        | Ok _ =>
            now <- call time_Now ;;
            let usage :=
              RedeemCodeUsage.mk 0 (RedeemCode.ID redeemCode) userID
                (RedeemCode.Credits redeemCode) now in
            r <- call (db.CreateRedeemCodeUsage usage) ;;
            match r with
            | Err err => Ret (Err (Wrap err "记录兑换码使用失败"))
            | Ok _ =>
                r <- AddCredits userID (RedeemCode.Credits redeemCode)
                                ("兑换码: " ++ code) EmptyString ;;
                match r with
                | Err err => Ret (Err (Wrap err "增加积分失败"))
                | Ok _ => Ret (Ok tt)
                end
            end
        end
  end.

(** The [float64] argument of [CompletePaymentOrder] is never read; its
    callers all pass the constant 0. *)
Inductive float64 : Type := float64_0.

Definition dquote : string := String (ascii_of_nat 34) EmptyString.

(** [fmt.Sprintf] of the format [{"transaction_id":"%s"}] *)
Definition transaction_json (transactionID : string) : string :=
  "{" ++ dquote ++ "transaction_id" ++ dquote ++ ":" ++ dquote
      ++ transactionID ++ dquote ++ "}".

Definition CompletePaymentOrder (orderNo transactionID : string)
  (amount : float64) (paidAt : Z) : prog (result unit) :=
  r <- call (db.GetPaymentOrderByOrderNo orderNo) ;;
  match r with
  | Err err => Ret (Err (Wrap err "获取支付订单失败"))
  | Ok order =>
      if negb (String.eqb (PaymentOrder.Status order) "pending")
      then Ret (Err (New "订单状态异常"))
      else
        now <- call time_Now ;;
        if PaymentOrder.IsExpired order now
        then Ret (Err (New "订单已过期"))
        else
          let order := PaymentOrder.set_Status "completed" order in
          let order :=
            PaymentOrder.set_PaymentData (transaction_json transactionID)
                                         order in
          let order := PaymentOrder.set_PaidAt (Some paidAt) order in
          r <- call (db.UpdatePaymentOrder order) ;;
          match r with
          | Err err => Ret (Err (Wrap err "更新支付订单失败"))
          | Ok _ =>
              r <- AddCredits (PaymentOrder.UserID order)
                              (PaymentOrder.Credits order)
                              ("购买积分: " ++ orderNo) orderNo ;;
              match r with
              | Err err => Ret (Err (Wrap err "增加积分失败"))
              | Ok _ => Ret (Ok tt)
              end
          end
  end.

Definition CancelPaymentOrder (orderNo : string) (userID : N)
  : prog (result unit) :=
  r <- call (db.GetPaymentOrderByOrderNo orderNo) ;;
  match r with
  | Err err => Ret (Err (Wrap err "获取支付订单失败"))
  | Ok order =>
      if negb (String.eqb (PaymentOrder.Status order) "pending")
      then Ret (Err (New "订单状态异常"))
      else
        let order := PaymentOrder.set_Status "cancelled" order in
        r <- call (db.UpdatePaymentOrder order) ;;
        match r with
        | Err err => Ret (Err (Wrap err "更新支付订单失败"))
        | Ok _ => Ret (Ok tt)
        end
  end.

Section Registration.
(** [op.CreateUser] and [model.GENERAL] are defined outside these files. *)
Variable CreateUser : User.t -> prog (result User.t).
Variable GENERAL : Z.

Definition ApproveUserRegistration (registrationID : N)
  : prog (result User.t) :=
  r <- call (db.GetUserRegistrationByToken EmptyString) ;;
  match r with
  | Err err => Ret (Err (Wrap err "获取注册信息失败"))
  | Ok registration =>
      if negb (UserRegistration.Status registration =? 1)
      then Ret (Err (New "注册申请未验证或已处理"))
      else
        let user :=
          User.mk 0 (UserRegistration.Username registration)
            (UserRegistration.PwdHash registration)
            (UserRegistration.Salt registration) "/" GENERAL false 0 in
        r <- CreateUser user ;;
        match r with
        | Err err => Ret (Err (Wrap err "创建用户失败"))
        | Ok user =>
            let credits := UserCredits.mk 0 (User.ID user) 0 0 0 in
            r <- call (db.CreateUserCredits credits) ;;
            match r with
            | Err err => Ret (Err (Wrap err "创建积分账户失败"))
            | Ok _ =>
                let registration :=
                  UserRegistration.set_Status 2 registration in
                r <- call (db.UpdateUserRegistration registration) ;;
                match r with
                | Err err => Ret (Err (Wrap err "更新注册状态失败"))
                | Ok _ => Ret (Ok user)
                end
            end
        end
  end.

End Registration.

Definition RejectUserRegistration (registrationID : N)
  : prog (result unit) :=
  r <- call (db.GetUserRegistrationByToken EmptyString) ;;
  match r with
  | Err err => Ret (Err (Wrap err "获取注册信息失败"))
  | Ok registration =>
      let registration := UserRegistration.set_Status (-1) registration in
      r <- call (db.UpdateUserRegistration registration) ;;
      match r with
      | Err err => Ret (Err (Wrap err "更新注册状态失败"))
      | Ok _ => Ret (Ok tt)
      end
  end.


(** The clock counts nanoseconds, as [time.Duration] does. *)
Definition Second : Z := 1000000000.
Definition Minute : Z := 60 * Second.

(** [fmt.Sprintf] of [%d] *)
Definition decimal (z : Z) : string := NilZero.string_of_int (Z.to_int z).

(** [random.String] is defined outside these files; [rnd] is the string it
    draws. *)
Definition generateOrderID (rnd : string) : prog string :=
  now <- call time_Now ;;
  Ret ("OL" ++ decimal (now / Second) ++ rnd)%string.

Definition CreatePaymentOrder (rnd : string) (userID : N) (amount credits : Z)
  (paymentMethod : string) : prog (result PaymentOrder.t) :=
  orderNo <- generateOrderID rnd ;;
  now <- call time_Now ;;
  let order :=
    PaymentOrder.mk 0 orderNo userID credits amount paymentMethod "pending"
      None (now + 30 * Minute) EmptyString in
  r <- call (db.CreatePaymentOrder order) ;;
  match r with
  | Err err => Ret (Err (Wrap err "创建支付订单失败"))
  | Ok order => Ret (Ok order)
  end.

Definition GetPaymentOrderByNo (orderNo : string)
  : prog (result PaymentOrder.t) :=
  call (db.GetPaymentOrderByOrderNo orderNo).


Definition Hour : Z := 60 * Minute.

Definition SetFileCreditsConfig (path : string) (credits : Z)
  (isFolder : bool) (createdBy : N) : prog (result unit) :=
  let config :=
    FileCreditsConfig.mk 0 path isFolder credits false false createdBy
                         false in
  r <- call (db.CreateFileCreditsConfig config) ;;
  match r with
  | Err err => Ret (Err (Wrap err "设置文件积分配置失败"))
  | Ok _ => Ret (Ok tt)
  end.

Definition DeleteFileCreditsConfig (configID : N) : prog (result unit) :=
  r <- call (db.DeleteFileCreditsConfig configID) ;;
  match r with
  | Err err => Ret (Err (Wrap err "删除文件积分配置失败"))
  | Ok _ => Ret (Ok tt)
  end.

(** [rnd] is what [random.String(12)] returns. *)
Definition generateRedeemCode (rnd : string) : string := "OL" ++ rnd.

(** The loop of [GenerateRedeemCodes] from iteration [i] on, with [n]
    iterations to go; [rnd j] is the random string drawn in iteration
    [j]. *)
Fixpoint GenerateRedeemCodes_from (rnd : nat -> string) (i n : nat)
  (codes : list string) (credits : Z) (description : string)
  (createdBy : N) (expiresAt : option Z) : prog (result (list string)) :=
  match n with
  | O => Ret (Ok codes)
  | S n' =>
      let code := generateRedeemCode (rnd i) in
      let codes := codes ++ [code] in
      let redeemCode :=
        RedeemCode.mk 0 code credits 0 0 false expiresAt createdBy
                      description in
      r <- call (db.CreateRedeemCode redeemCode) ;;
      match r with
      | Err err => Ret (Err (Wrap err "创建兑换码失败"))
      | Ok _ =>
          GenerateRedeemCodes_from rnd (S i) n' codes credits description
                                   createdBy expiresAt
      end
  end.

Definition GenerateRedeemCodes (rnd : nat -> string) (count : Z)
  (credits : Z) (description : string) (createdBy : N)
  (expiresAt : option Z) : prog (result (list string)) :=
  GenerateRedeemCodes_from rnd 0 (Z.to_nat count) [] credits description
                           createdBy expiresAt.

Definition VerifyUserRegistration (token : string)
  : prog (result UserRegistration.t) :=
  r <- call (db.GetUserRegistrationByToken token) ;;
  match r with
  | Err err =>
      if Is_ErrRecordNotFound err
      then Ret (Err (New "无效的验证链接"))
      else Ret (Err (Wrap err "获取注册信息失败"))
  | Ok registration =>
      now <- call time_Now ;;
      if UserRegistration.IsExpired registration now
      then Ret (Err (New "验证链接已过期"))
      else
        let registration := UserRegistration.set_Status 1 registration in
        r <- call (db.UpdateUserRegistration registration) ;;
        match r with
        | Err err => Ret (Err (Wrap err "更新注册状态失败"))
        | Ok _ => Ret (Ok registration)
        end
  end.

(** [hex.EncodeToString], on a string of bytes. *)
Definition hex_digit (n : N) : ascii :=
  match String.get (N.to_nat n) "0123456789abcdef" with
  | Some c => c
  | None => "0"%char
  end.

Fixpoint hex_EncodeToString (src : string) : string :=
  match src with
  | EmptyString => EmptyString
  | String b src' =>
      String (hex_digit (N.shiftr (N_of_ascii b) 4))
        (String (hex_digit (N.land (N_of_ascii b) 15))
           (hex_EncodeToString src'))
  end.

(** [rand_Read] is the outcome of [rand.Read] on the slice of [length]
    bytes: the bytes it has filled in, or its error. *)
Definition generateToken (rand_Read : result string) : result string :=
  match rand_Read with
  | Err err => Err err
  | Ok bytes => Ok (hex_EncodeToString bytes)
  end.

Section CreateRegistration.
(** [db.GetUserByName] and [model.TwoHashPwd] are defined outside these
    files. *)
Variable GetUserByName : string -> World -> result User.t * World.
Variable TwoHashPwd : string -> string -> string.

(** [salt] is what [random.String(8)] returns, [rand_Read] the outcome of
    [rand.Read] on the 32 bytes of the token. *)
Definition CreateUserRegistration (salt : string) (rand_Read : result string)
  (email username password : string) : prog (result UserRegistration.t) :=
  r <- call (GetUserByName email) ;;
  if is_ok r then Ret (Err (New "邮箱已被注册"))
  else
    r <- call (GetUserByName username) ;;
    if is_ok r then Ret (Err (New "用户名已被使用"))
    else
      r <- call (db.GetUserRegistrationByEmail email) ;;
      pending <- match r with
                 | Ok existing =>
                     now <- call time_Now ;;
                     Ret (negb (UserRegistration.IsExpired existing now))
                 | Err _ => Ret false
                 end ;;
      if (pending : bool)
      then Ret (Err (New "已有待处理的注册申请，请稍后再试"))
      else
        let pwdHash := TwoHashPwd password salt in
        match generateToken rand_Read with
        | Err err => Ret (Err (Wrap err "生成验证令牌失败"))
        | Ok token =>
            now <- call time_Now ;;
            let registration :=
              UserRegistration.mk 0 email username password pwdHash salt 0
                                  token (now + 24 * Hour) false in
            r <- call (db.CreateUserRegistration registration) ;;
            match r with
            | Err err => Ret (Err (Wrap err "创建注册申请失败"))
            | Ok registration => Ret (Ok registration)
            end
        end.

End CreateRegistration.

End op.

(** ** Package payment *)

Module payment.

(** A decoded JSON value ([interface{}]); only strings are ever inspected. *)
Inductive value : Type :=
| VString (s : string)
| VNumber (n : Z)
| VBool (b : bool)
| VNull
| VNested (raw : string).

(** A Go map with string keys: an association list in which each key
    occurs once, read by key. *)
Definition map_get {V} (m : list (string * V)) (key : string) : option V :=
  option_map snd (find (fun kv => String.eqb (fst kv) key) m).

Definition map_delete {V} (m : list (string * V)) (key : string)
  : list (string * V) :=
  filter (fun kv => negb (String.eqb (fst kv) key)) m.

(** [m[key]] on a [map[string]string]: the empty string when absent. *)
Definition map_index (m : list (string * string)) (key : string) : string :=
  match map_get m key with Some v => v | None => EmptyString end.

Record PaymentVerification : Type := mkPaymentVerification {
  Success : bool;
  OrderNo : string;
  TransactionID : string;
  PaidAt : Z;
  PaymentData : list (string * value)
}.

Definition failed_verification : PaymentVerification :=
  mkPaymentVerification false EmptyString EmptyString 0 [].

(** [sort.Strings] *)
Fixpoint insert_sorted (k : string) (l : list string) : list string :=
  match l with
  | [] => [k]
  | x :: l' => if String.leb k x then k :: l else x :: insert_sorted k l'
  end.

Definition sort_Strings (l : list string) : list string :=
  fold_right insert_sorted [] l.

(** [strings.Join] *)
Fixpoint strings_Join (l : list string) (sep : string) : string :=
  match l with
  | [] => EmptyString
  | [x] => x
  | x :: l' => x ++ sep ++ strings_Join l' sep
  end.

Section Alipay.
(** The cryptographic primitives and the time parser of the Go standard
    library. *)
Variable PublicKey : Type.
Variable base64_DecodeString : string -> option string.
Variable sha256_Sum256 : string -> string.
(** [true] when [rsa.VerifyPKCS1v15] returns the nil error. *)
Variable rsa_VerifyPKCS1v15 : PublicKey -> string -> string -> bool.
Variable time_Parse : string -> option Z.

Record AlipayProvider : Type := mkAlipayProvider {
  AppID : string;
  ap_PublicKey : PublicKey
}.

Definition verifyNotifySign (ap : AlipayProvider)
  (params : list (string * string)) : bool :=
  let sign := map_index params "sign" in
  let params := map_delete (map_delete params "sign") "sign_type" in
  let keys := sort_Strings (map fst params) in
  let query :=
    map (fun key => (key ++ "=" ++ map_index params key)%string)
        (filter (fun key =>
                   negb (String.eqb (map_index params key) EmptyString))
                keys) in
  let queryString := strings_Join query "&" in
  match base64_DecodeString sign with
  | None => false
  | Some signatureBytes =>
      rsa_VerifyPKCS1v15 (ap_PublicKey ap) (sha256_Sum256 queryString)
                         signatureBytes
  end.

(** The floating-point [Amount] of the result is left out. *)
Definition VerifyPayment (ap : AlipayProvider) (orderNo : string)
  (paymentData : list (string * value)) (now : Z)
  : PaymentVerification * option error :=
  let notifyParams :=
    flat_map (fun kv => match snd kv with
                        | VString str => [(fst kv, str)]
                        | _ => []
                        end) paymentData in
  if negb (verifyNotifySign ap notifyParams)
  then (failed_verification, Some (New "invalid signature"))
  else
    (** [verifyNotifySign] has deleted the two signature entries from the
        map it was given. *)
    let notifyParams :=
      map_delete (map_delete notifyParams "sign") "sign_type" in
    let tradeStatus := map_index notifyParams "trade_status" in
    if negb (String.eqb tradeStatus "TRADE_SUCCESS")
       && negb (String.eqb tradeStatus "TRADE_FINISHED")
    then (failed_verification, Some (New "payment not successful"))
    else
      let paidAt :=
        match map_get notifyParams "gmt_payment" with
        | Some gmtPayment =>
            match time_Parse gmtPayment with
            | Some t => t
            | None => now
            end
        | None => now
        end in
      (mkPaymentVerification true
         (map_index notifyParams "out_trade_no")
         (map_index notifyParams "trade_no") paidAt paymentData, None).

End Alipay.


(** [strings.ToUpper], on the ASCII letters. *)
Definition ToUpper_byte (c : ascii) : ascii :=
  let n := N_of_ascii c in
  if ((97 <=? n) && (n <=? 122))%N then ascii_of_N (n - 32) else c.

Fixpoint strings_ToUpper (s : string) : string :=
  match s with
  | EmptyString => EmptyString
  | String c s' => String (ToUpper_byte c) (strings_ToUpper s')
  end.

Record WechatProvider : Type := mkWechatProvider {
  wp_AppID : string;
  wp_MchID : string;
  APIKey : string;
  NotifyURL : string;
  Gateway : string
}.

Record WechatNotification : Type := mkWechatNotification {
  ReturnCode : string;
  ReturnMsg : string;
  wn_AppID : string;
  MchID : string;
  NonceStr : string;
  Sign : string;
  ResultCode : string;
  OpenID : string;
  TradeType : string;
  BankType : string;
  TotalFee : Z;
  wn_TransactionID : string;
  OutTradeNo : string;
  TimeEnd : string
}.

Record RefundResponse : Type := mkRefundResponse {
  rr_Success : bool;
  RefundID : string;
  Message : string
}.

Section Wechat.
(** [md5.Sum], [xml.Unmarshal] into a [WechatNotification], and
    [time.Parse] with the layout of WeChat. *)
Variable md5_Sum : string -> string.
Variable xml_Unmarshal : string -> result WechatNotification.
Variable time_Parse : string -> option Z.

Definition signParams (wp : WechatProvider) (params : list (string * string))
  : string :=
  let keys :=
    sort_Strings
      (filter (fun key => negb (String.eqb (map_index params key)
                                           EmptyString))
              (map fst params)) in
  let query :=
    map (fun key => (key ++ "=" ++ map_index params key)%string) keys in
  let queryString := strings_Join query "&" in
  let queryString := (queryString ++ "&key=" ++ APIKey wp)%string in
  strings_ToUpper (op.hex_EncodeToString (md5_Sum queryString)).

Definition notification_params (notification : WechatNotification)
  : list (string * string) :=
  [("return_code", ReturnCode notification);
   ("return_msg", ReturnMsg notification);
   ("appid", wn_AppID notification);
   ("mch_id", MchID notification);
   ("nonce_str", NonceStr notification);
   ("result_code", ResultCode notification);
   ("openid", OpenID notification);
   ("trade_type", TradeType notification);
   ("bank_type", BankType notification);
   ("total_fee", op.decimal (TotalFee notification));
   ("transaction_id", wn_TransactionID notification);
   ("out_trade_no", OutTradeNo notification);
   ("time_end", TimeEnd notification)].

Definition verifyNotificationSign (wp : WechatProvider)
  (notification : WechatNotification) : bool :=
  let params := notification_params notification in
  let expectedSign := signParams wp params in
  String.eqb expectedSign (Sign notification).

(** The floating-point [Amount] of the result is left out. *)
Definition WechatProvider_VerifyPayment (wp : WechatProvider)
  (orderNo : string) (paymentData : list (string * value)) (now : Z)
  : PaymentVerification * option error :=
  match map_get paymentData "xml" with
  | Some (VString notificationXML) =>
      match xml_Unmarshal notificationXML with
      | Err err =>
          (failed_verification,
           Some (Wrap err "failed to parse notification"))
      | Ok notification =>
          if negb (verifyNotificationSign wp notification)
          then (failed_verification, Some (New "invalid signature"))
          else if negb (String.eqb (ReturnCode notification) "SUCCESS")
                  || negb (String.eqb (ResultCode notification) "SUCCESS")
          then (failed_verification, Some (New "payment not successful"))
          else
            let paidAt :=
              if negb (String.eqb (TimeEnd notification) EmptyString)
              then match time_Parse (TimeEnd notification) with
                   | Some t => t
                   | None => now
                   end
              else now in
            (mkPaymentVerification true (OutTradeNo notification)
               (wn_TransactionID notification) paidAt paymentData, None)
      end
  | _ => (failed_verification, Some (New "invalid notification data"))
  end.

Definition WechatProvider_Refund (wp : WechatProvider) (orderNo : string)
  (amount : op.float64) : RefundResponse * option error :=
  (mkRefundResponse false EmptyString
                    "WeChat Pay refund not implemented yet",
   Some (New "refund not implemented")).

End Wechat.

(** The interface [PaymentProvider], an object being the record of its
    methods; [CreateOrder], which talks to the gateway, is left out. *)
Record PaymentProvider : Type := mkPaymentProvider {
  iface_VerifyPayment :
    string -> list (string * value) -> Z
    -> PaymentVerification * option error;
  iface_Refund : string -> op.float64 -> RefundResponse * option error
}.

Record PaymentManager : Type := mkPaymentManager {
  providers : list (string * PaymentProvider)
}.

Definition NewPaymentManager : PaymentManager := mkPaymentManager [].

(** [pm.providers[name] = provider] *)
Definition RegisterProvider (pm : PaymentManager) (name : string)
  (provider : PaymentProvider) : PaymentManager :=
  mkPaymentManager ((name, provider) :: map_delete (providers pm) name).

Definition GetProvider (pm : PaymentManager) (name : string)
  : result PaymentProvider :=
  match map_get (providers pm) name with
  | Some provider => Ok provider
  | None => Err (New ("payment provider " ++ name ++ " not found"))
  end.

(** [None] in the first component is the nil pointer. *)
Definition PaymentManager_VerifyPayment (pm : PaymentManager)
  (providerName orderNo : string) (paymentData : list (string * value))
  (now : Z) : option PaymentVerification * option error :=
  match GetProvider pm providerName with
  | Err err => (None, Some err)
  | Ok provider =>
      let (v, e) := iface_VerifyPayment provider orderNo paymentData now in
      (Some v, e)
  end.

Definition PaymentManager_ProcessRefund (pm : PaymentManager)
  (providerName orderNo : string) (amount : op.float64)
  : option RefundResponse * option error :=
  match GetProvider pm providerName with
  | Err err => (None, Some err)
  | Ok provider =>
      let (v, e) := iface_Refund provider orderNo amount in
      (Some v, e)
  end.

(** The body of [InitPaymentManager] registers no provider. *)
Definition InitPaymentManager : PaymentManager := NewPaymentManager.

(** [globalPaymentManager] is [None] while it is nil; the result is the
    manager returned and the new value of the global. *)
Definition GetPaymentManager (globalPaymentManager : option PaymentManager)
  : PaymentManager * option PaymentManager :=
  match globalPaymentManager with
  | None => (InitPaymentManager, Some InitPaymentManager)
  | Some pm => (pm, Some pm)
  end.

End payment.

(** ** Package handles *)

Module handles.

(** What the handler reads from the [gin.Context]. *)
Record Context : Type := mkContext {
  Param_provider : string;
  ShouldBindJSON : result (list (string * payment.value));
  GetRawData : result string
}.

Inductive response : Type :=
| ErrorResp (err : error) (code : Z)
| ErrorStrResp (msg : string) (code : Z)
(** [common.ErrorStrResp(c, err.Error(), code)] *)
| ErrorStrResp_Error (err : error) (code : Z)
| String_ (code : Z) (body : string)
| XML (code : Z) (body : list (string * string))
| JSON (code : Z) (body : list (string * string)).

Definition PaymentNotification (c : Context) : prog response :=
  let provider := Param_provider c in
  if String.eqb provider EmptyString
  then Ret (ErrorStrResp "Provider is required" 400)
  else
    let parsed : response + (list (string * payment.value) * string) :=
      if String.eqb provider "alipay" then
        match ShouldBindJSON c with
        | Err err => inl (ErrorResp err 400)
        | Ok paymentData =>
            inr (paymentData,
                 match payment.map_get paymentData "out_trade_no" with
                 | Some (payment.VString outTradeNo) => outTradeNo
                 | _ => EmptyString
                 end)
        end
      else if String.eqb provider "wechat" then
        match GetRawData c with
        | Err err => inl (ErrorResp err 400)
        | Ok body => inr ([("xml", payment.VString body)], EmptyString)
        end
      else inl (ErrorStrResp "Unsupported payment provider" 400) in
    match parsed with
    | inl resp => Ret resp
    | inr (paymentData, orderNo) =>
        let success :=
          if String.eqb provider "alipay" then String_ 200 "success"
          else if String.eqb provider "wechat"
          then XML 200 [("return_code", "SUCCESS"); ("return_msg", "OK")]
          else JSON 200 [("status", "success")] in
        if negb (String.eqb orderNo EmptyString)
        then
          now <- call time_Now ;;
          r <- op.CompletePaymentOrder orderNo "mock_transaction_id"
                                       op.float64_0 now ;;
          match r with
          | Err err => Ret (ErrorStrResp_Error err 400)
          | Ok _ => Ret success
          end
        else Ret success
    end.


Record CompletePaymentOrderReq : Type := mkCompletePaymentOrderReq {
  req_OrderNo : string;
  req_TransactionID : string
}.

(** [bound] is what [c.ShouldBind(&req)] returns: the request, or the
    binding error.  The answer of [common.SuccessResp] is given by the data
    it carries. *)
Definition CompletePaymentOrder (bound : result CompletePaymentOrderReq)
  : prog response :=
  match bound with
  | Err err => Ret (ErrorResp err 400)
  | Ok req =>
      now <- call time_Now ;;
      r <- op.CompletePaymentOrder (req_OrderNo req) (req_TransactionID req)
                                   op.float64_0 now ;;
      match r with
      | Err err => Ret (ErrorStrResp_Error err 400)
      | Ok _ => Ret (JSON 200 [("message", "Payment completed successfully")])
      end
  end.


Record SetFileCreditsConfigReq : Type := mkSetFileCreditsConfigReq {
  req_Path : string;
  req_IsFolder : bool;
  req_Credits : Z;
  req_Inheritable : bool;
  req_Enabled : bool
}.

(** [user] is the authenticated user the middleware has put into the
    context. *)
Definition SetFileCreditsConfig (bound : result SetFileCreditsConfigReq)
  (user : model.User.t) : prog response :=
  match bound with
  | Err err => Ret (ErrorResp err 400)
  | Ok req =>
      r <- op.SetFileCreditsConfig (req_Path req) (req_Credits req)
                                   (req_IsFolder req) (model.User.ID user) ;;
      match r with
      | Err err => Ret (ErrorStrResp_Error err 400)
      | Ok _ =>
          Ret (JSON 200 [("message", "File credits config set successfully")])
      end
  end.

(** [Query_path] is [c.Query("path")], empty when the parameter is
    absent. *)
Definition DeleteFileCreditsConfig (Query_path : string) : prog response :=
  let path := Query_path in
  if String.eqb path EmptyString
  then Ret (ErrorStrResp "path is required" 400)
  else
    r <- op.GetFileCreditsConfig path ;;
    match r with
    | Err err => Ret (ErrorStrResp_Error err 404)
    | Ok config =>
        r <- op.DeleteFileCreditsConfig (model.FileCreditsConfig.ID config) ;;
        match r with
        | Err err => Ret (ErrorStrResp_Error err 400)
        | Ok _ =>
            Ret (JSON 200
                   [("message", "File credits config deleted successfully")])
        end
    end.

Record CreateRegistrationReq : Type := mkCreateRegistrationReq {
  req_Username : string;
  req_Email : string;
  req_Password : string;
  req_Reason : string
}.

Section CreateRegistration.
Variable GetUserByName : string -> World -> result model.User.t * World.
Variable TwoHashPwd : string -> string -> string.

(** The answer of [common.SuccessResp] carries the id in decimal. *)
Definition CreateRegistration (salt : string) (rand_Read : result string)
  (bound : result CreateRegistrationReq) : prog response :=
  match bound with
  | Err err => Ret (ErrorResp err 400)
  | Ok req =>
      r <- op.CreateUserRegistration GetUserByName TwoHashPwd salt rand_Read
             (req_Username req) (req_Email req) (req_Password req) ;;
      match r with
      | Err err => Ret (ErrorStrResp_Error err 400)
      | Ok registration =>
          Ret (JSON 200
                 [("id",
                   op.decimal (Z.of_N (model.UserRegistration.ID registration)));
                  ("message",
                   "Registration application submitted successfully. Please wait for admin approval.")])
      end
  end.

End CreateRegistration.

End handles.

(** ** Observations, invariants and sample stores *)

Import model.

(** The ledger as callers observe it: an account that does not exist yet
    reads as empty, since [GetUserCredits] creates it so. *)
Definition account_of (d : DB) (userID : N) : option UserCredits.t :=
  find (db.by_user userID) (user_credits d).

Definition balance_of (d : DB) (userID : N) : Z :=
  match account_of d userID with
  | Some c => UserCredits.Balance c
  | None => 0
  end.

Definition earned_of (d : DB) (userID : N) : Z :=
  match account_of d userID with
  | Some c => UserCredits.TotalEarn c
  | None => 0
  end.

Definition spent_of (d : DB) (userID : N) : Z :=
  match account_of d userID with
  | Some c => UserCredits.TotalSpent c
  | None => 0
  end.

(** The transactions of one account, in creation order. *)
Definition history (d : DB) (userID : N) : list CreditTransaction.t :=
  filter (fun x => (CreditTransaction.UserID x =? userID)%N)
         (credit_transactions d).

(** Summation as Go performs it on [int64]. *)
Definition sum64 (l : list Z) : Z := fold_left add64 l 0.

(** Replaying the transactions of the account reproduces its balance. *)
Definition ledger_ok (d : DB) (userID : N) : Prop :=
  balance_of d userID = sum64 (map CreditTransaction.Amount (history d userID)).

(** Primary keys of stored accounts are auto-increment values. *)
Definition accounts_keyed (d : DB) : Prop :=
  Forall (fun c => UserCredits.ID c <> 0%N) (user_credits d).

(** [d'] is [d], possibly with the account of [userID] created empty. *)
Definition lazily_created (userID : N) (d d' : DB) : Prop :=
  d' = d \/
  (account_of d userID = None /\
   exists i, i <> 0%N /\
     d' = db.set_user_credits
            (user_credits d ++ [UserCredits.mk i userID 0 0 0]) d).

(** The errors [GetUserCredits] can return. *)
Definition read_failure (e : error) : Prop :=
  exists cause,
    e = Wrap cause "获取用户积分失败" \/ e = Wrap cause "创建用户积分账户失败".

Ltac settle :=
  repeat split; auto; try discriminate;
  try (eexists; (left + right); reflexivity);
  try (intros; subst; simpl in *; first [discriminate | reflexivity | auto]).

(** The three ways a call of [AddCredits] can end. *)
Inductive credit_outcome (userID : N) (amount : Z) (reason orderID : string)
  (d d' : DB) : result unit -> Prop :=
| credit_committed i :
    balance_of d' userID = add64 (balance_of d userID) amount ->
    earned_of d' userID = add64 (earned_of d userID) amount ->
    spent_of d' userID = spent_of d userID ->
    credit_transactions d'
    = credit_transactions d
      ++ [CreditTransaction.mk i userID "earn" amount
            (add64 (balance_of d userID) amount) reason orderID reason] ->
    credit_outcome userID amount reason orderID d d' (Ok tt)
| credit_torn cause :
    balance_of d' userID = add64 (balance_of d userID) amount ->
    earned_of d' userID = add64 (earned_of d userID) amount ->
    credit_transactions d' = credit_transactions d ->
    credit_outcome userID amount reason orderID d d'
                   (Err (Wrap cause "记录积分交易失败"))
| credit_absent e :
    (forall cause, e <> Wrap cause "记录积分交易失败") ->
    balance_of d' userID = balance_of d userID ->
    earned_of d' userID = earned_of d userID ->
    spent_of d' userID = spent_of d userID ->
    credit_transactions d' = credit_transactions d ->
    credit_outcome userID amount reason orderID d d' (Err e).

(** A store in which user 7 holds 100 credits, earned in one transaction. *)
Definition store_100 : DB :=
  mkDB [UserCredits.mk 1 7 100 100 0]
       [CreditTransaction.mk 1 7 "earn" 100 100 "admin" "grant" "admin"]
       [] [] [] [] [].

Definition world_100 (faults : list bool) : World := mkWorld store_100 0 faults.

Definition order_of (d : DB) (orderNo : string) : option PaymentOrder.t :=
  find (db.by_order_no orderNo) (payment_orders d).

Definition orders_keyed (d : DB) : Prop :=
  Forall (fun o => PaymentOrder.ID o <> 0%N) (payment_orders d).

(** The order as [CompletePaymentOrder] saves it. *)
Definition completed (transactionID : string) (paidAt : Z)
  (o : PaymentOrder.t) : PaymentOrder.t :=
  PaymentOrder.set_PaidAt (Some paidAt)
    (PaymentOrder.set_PaymentData (op.transaction_json transactionID)
       (PaymentOrder.set_Status "completed" o)).

(** A store with the account of [store_100] and one pending order of user 7
    for 50 credits, expiring at time 1000. *)
Definition store_order : DB :=
  db.set_payment_orders
    [PaymentOrder.mk 1 "OL1" 7 50 50 "alipay" "pending" None 1000 EmptyString]
    store_100.

Definition world_order (now : Z) (faults : list bool) : World :=
  mkWorld store_order now faults.

(** A callback in the name of the payment provider that carries an order
    number and no signature at all. *)
Definition forged_callback : handles.Context :=
  handles.mkContext "alipay"
    (Ok [("out_trade_no", payment.VString "OL1")]) (Ok EmptyString).

(** The row the lookup of [RedeemCode] returns: the first enabled code
    with that string. *)
Definition enabled_code (d : DB) (code : string) : option RedeemCode.t :=
  find (db.code_enabled code) (redeem_codes d).

(** Some stored code has that string, enabled or not. *)
Definition code_exists (d : DB) (code : string) : Prop :=
  exists c, In c (redeem_codes d) /\ RedeemCode.Code c = code.

(** A store whose only redeem code, OLX, is disabled. *)
Definition store_disabled_code : DB :=
  db.set_redeem_codes
    [RedeemCode.mk 1 "OLX" 10 1 0 false None 1 "gift"] store_100.

(** A store whose only redeem code, OLY, is enabled and used up. *)
Definition store_exhausted_code : DB :=
  db.set_redeem_codes
    [RedeemCode.mk 1 "OLY" 10 1 1 true None 1 "gift"] store_100.

(** The credits a download of [path] requires: the second component of
    what [CheckFileDownloadPermission] returns. *)
Definition required_credits (userID : N) (path : string) (w : World) : Z :=
  snd (fst (fst (run (op.CheckFileDownloadPermission userID path) w))).

(** The inherited rules in the words of the specification: enabled,
    inheritable folder rules whose path is a prefix of [path]. *)
Definition prefix_match (path : string) (c : FileCreditsConfig.t) : bool :=
  String.prefix (FileCreditsConfig.Path c) path
  && FileCreditsConfig.IsFolder c
  && FileCreditsConfig.Inheritable c
  && FileCreditsConfig.Enabled c
  && negb (FileCreditsConfig.Deleted c).

(** The resolution algorithm in the words of the specification: the exact
    enabled rule, else the inherited rule of longest path, else 0. *)
Definition spec_Resolve (rules : list FileCreditsConfig.t) (path : string)
  : Z :=
  match find (db.exact_enabled path) rules with
  | Some c => FileCreditsConfig.Credits c
  | None =>
      match gorm.longest_first
              (fun c => String.length (FileCreditsConfig.Path c))
              (filter (prefix_match path) rules) with
      | Some c => FileCreditsConfig.Credits c
      | None => 0
      end
  end.

(** The string contains neither of the wildcards of [LIKE]. *)
Fixpoint no_wildcard (s : string) : bool :=
  match s with
  | EmptyString => true
  | String c s' =>
      negb (Ascii.eqb c "%"%char) && negb (Ascii.eqb c "_"%char)
      && no_wildcard s'
  end.

Definition world_rules (rules : list FileCreditsConfig.t) : World :=
  mkWorld (mkDB [] [] rules [] [] [] []) 0 [].

(** The rules of the example in the specification. *)
Definition rules_a_ab : list FileCreditsConfig.t :=
  [FileCreditsConfig.mk 1 "/a" true 5 true true 1 false;
   FileCreditsConfig.mk 2 "/a/b" false 2 false true 1 false].

(** One inheritable folder rule whose path contains an underscore. *)
Definition rules_underscore : list FileCreditsConfig.t :=
  [FileCreditsConfig.mk 1 "/my_docs" true 5 true true 1 false].

(** The registration both admin operations work on: the first pending one
    whose token is empty. *)
Definition registration_found (d : DB) : option UserRegistration.t :=
  find (db.by_token_pending EmptyString) (user_registrations d).

(** Two pending registrations; the first has an empty token. *)
Definition store_registrations : DB :=
  db.set_user_registrations
    [UserRegistration.mk 1 "a@x" "ann" "pw" "h1" "s1" 0 EmptyString 100 false;
     UserRegistration.mk 2 "b@x" "bob" "pw" "h2" "s2" 0 "t2" 100 false]
    empty_DB.


(** One call on the ledger of a user. *)
Inductive ledger_call : Type :=
| Credit (amount : Z) (reason orderID : string)
| Debit (amount : Z) (reason fileID : string).

Definition ledger_prog (userID : N) (c : ledger_call) : prog (result unit) :=
  match c with
  | Credit amount reason orderID => op.AddCredits userID amount reason orderID
  | Debit amount reason fileID => op.DeductCredits userID amount reason fileID
  end.

(** The calls run one after the other; the results in order. *)
Fixpoint run_calls (userID : N) (cs : list ledger_call) (w : World)
  : list (result unit) * World :=
  match cs with
  | [] => ([], w)
  | c :: cs' =>
      let (r, w1) := run (ledger_prog userID c) w in
      let (rs, w2) := run_calls userID cs' w1 in
      (r :: rs, w2)
  end.

(** Each transaction records the running sum up to and including itself,
    starting from [acc]. *)
Fixpoint snapshots_from (acc : Z) (l : list CreditTransaction.t) : Prop :=
  match l with
  | [] => True
  | x :: l' =>
      CreditTransaction.Balance x = add64 acc (CreditTransaction.Amount x)
      /\ snapshots_from (CreditTransaction.Balance x) l'
  end.

Definition snapshots_ok (d : DB) (userID : N) : Prop :=
  snapshots_from 0 (history d userID).


(** The rule that prices [path] when the driver works: the exact enabled
    rule, else the longest inheritable rule the query matches. *)
Definition resolved_rule (d : DB) (path : string)
  : option FileCreditsConfig.t :=
  match find (db.exact_enabled path) (file_credits_configs d) with
  | Some c => Some c
  | None =>
      gorm.longest_first
        (fun c => String.length (FileCreditsConfig.Path c))
        (filter (db.inheritable_match path) (file_credits_configs d))
  end.

(** The credits [CheckFileDownloadPermission] asks for [path]. *)
Definition price_of (d : DB) (path : string) : Z :=
  match resolved_rule d path with
  | Some c =>
      if FileCreditsConfig.Credits c <=? 0 then 0
      else FileCreditsConfig.Credits c
  | None => 0
  end.


Definition codes_keyed (d : DB) : Prop :=
  Forall (fun c => RedeemCode.ID c <> 0%N) (redeem_codes d).

(** The code as [RedeemCode] saves it. *)
Definition redeemed (c : RedeemCode.t) : RedeemCode.t :=
  RedeemCode.set_UsedCount (add64 (RedeemCode.UsedCount c) 1) c.

(** The users redeem the code one after the other; the results in order. *)
Fixpoint redeem_all (users : list N) (code : string) (w : World)
  : list (result unit) * World :=
  match users with
  | [] => ([], w)
  | u :: users' =>
      let (r, w1) := run (op.RedeemCode u code) w in
      let (rs, w2) := redeem_all users' code w1 in
      (r :: rs, w2)
  end.

(** A store with the account of [store_100] and the enabled code OLZ, worth
    10 credits, usable twice and not used yet. *)
Definition store_fresh_code : DB :=
  db.set_redeem_codes
    [RedeemCode.mk 1 "OLZ" 10 2 0 true None 1 "gift"] store_100.

(** No stored rule, deleted or not, has the path. *)
Definition path_unused (d : DB) (path : string) : bool :=
  negb (existsb (fun c => String.eqb (FileCreditsConfig.Path c) path)
                (file_credits_configs d)).


(** One inheritable folder rule. *)
Definition rules_a : list FileCreditsConfig.t :=
  [FileCreditsConfig.mk 1 "/a" true 5 true true 1 false].


(** The row [GenerateRedeemCodes] stores for [code] under key [i]. *)
Definition generated_code (credits : Z) (description : string)
  (createdBy : N) (expiresAt : option Z) (code : string) (i : N)
  : RedeemCode.t :=
  RedeemCode.mk i code credits 1 0 true expiresAt createdBy description.

(** The codes of iterations [i], ..., [i + k - 1]. *)
Definition drawn_codes (rnd : nat -> string) (i k : nat) : list string :=
  map (fun j => op.generateRedeemCode (rnd j)) (seq i k).


(** Primary keys of stored registrations are auto-increment values. *)
Definition registrations_keyed (d : DB) : Prop :=
  Forall (fun r => UserRegistration.ID r <> 0%N) (user_registrations d).

(** The unique index on [token]: rows with the same token are copies of
    one row. *)
Definition tokens_unique (d : DB) : Prop :=
  forall x y, In x (user_registrations d) -> In y (user_registrations d) ->
              UserRegistration.Token x = UserRegistration.Token y ->
              UserRegistration.ID x = UserRegistration.ID y.

(** The pending registration a verification link leads to. *)
Definition pending_by_token (d : DB) (token : string)
  : option UserRegistration.t :=
  find (db.by_token_pending token) (user_registrations d).

(** The table after [reg] has been saved as verified. *)
Definition verified (reg : UserRegistration.t)
  (t : list UserRegistration.t) : list UserRegistration.t :=
  map (fun x => if (UserRegistration.ID x =? UserRegistration.ID reg)%N
                then UserRegistration.set_Status 1 reg else x) t.

(** A pending registration whose link is ["t2"], and a verified one. *)
Definition store_links : DB :=
  db.set_user_registrations
    [UserRegistration.mk 1 "a@x" "ann" "pw" "h1" "s1" 1 "t1" 100 false;
     UserRegistration.mk 2 "b@x" "bob" "pw" "h2" "s2" 0 "t2" 100 false]
    empty_DB.

(** No user exists: a stand-in for [db.GetUserByName]. *)
Definition no_user (name : string) (w : World) : result User.t * World :=
  (Err ErrRecordNotFound, w).


(** [db.GetUserByName] reads the users and leaves the tables of this
    development alone. *)
Definition reads_only
  (GetUserByName : string -> World -> result User.t * World) : Prop :=
  forall name w, w_db (snd (GetUserByName name w)) = w_db w.

(** A stand-in for [model.TwoHashPwd]. *)
Definition plain_hash (password salt : string) : string :=
  (password ++ salt)%string.

(** Thirty-two bytes, as [rand.Read] fills them in. *)
Definition thirty_two_bytes : string := "0123456789abcdef0123456789abcdef".


(** The string entries of a decoded notification, as [VerifyPayment] of
    the Alipay provider collects them. *)
Definition string_params (paymentData : list (string * payment.value))
  : list (string * string) :=
  flat_map (fun kv => match snd kv with
                      | payment.VString str => [(fst kv, str)]
                      | _ => []
                      end) paymentData.

(** A toy signature scheme: the signature of a digest is the digest. *)
Definition toy_verify (_ : unit) (hashed sig : string) : bool :=
  String.eqb hashed sig.

Definition toy_identity (s : string) : string := s.

Definition toy_decode (s : string) : option string := Some s.

Definition toy_time (_ : string) : option Z := None.

(** A notification signed in the toy scheme. *)
Definition signed_notification : list (string * payment.value) :=
  [("sign",
    payment.VString "out_trade_no=OL1&trade_no=T9&trade_status=TRADE_SUCCESS");
   ("trade_status", payment.VString "TRADE_SUCCESS");
   ("out_trade_no", payment.VString "OL1");
   ("trade_no", payment.VString "T9")].

(** A stand-in for [md5.Sum]: sixteen bytes. *)
Definition toy_md5 (_ : string) : string := "0123456789abcdef".

(** A stand-in for [xml.Unmarshal]: a paid notification whose signature
    is the body. *)
Definition toy_xml (body : string) : result payment.WechatNotification :=
  Ok (payment.mkWechatNotification "SUCCESS" "OK" "app" "mch" "nonce" body
        "SUCCESS" "openid" "NATIVE" "CMB" 5000 "T9" "OL1" EmptyString).

(** * Properties *)

(** ** Arithmetic of [int64] *)

Lemma wrap64_small (z : Z) : int64_range z -> wrap64 z = z.
Proof.
  unfold int64_range, min_int64, max_int64, wrap64. intros H.
  rewrite Z.mod_small; lia.
Qed.

(** ** Running programs *)

Lemma run_bind {A B} (m : prog A) (g : A -> prog B) (w : World) :
  run (bind m g) w = let (a, w') := run m w in run (g a) w'.
Proof.
  revert w. induction m as [a | X f k IH]; intros w; simpl.
  - reflexivity.
  - destruct (f w) as [x w']. apply IH.
Qed.

(** ** Tables *)

Section TableFacts.
Context {R : Type}.
Variable pk : R -> N.

(** After the rows with the key of [r] have been overwritten by [r'], a
    query that found [r] first, and that [r'] satisfies too, finds [r']. *)
Lemma find_overwritten (cond : R -> bool) (r r' : R) (t : list R) :
  find cond t = Some r ->
  cond r' = true ->
  find cond (map (fun x => if (pk x =? pk r)%N then r' else x) t) = Some r'.
Proof.
  intros Hfind Hr'. induction t as [| x t IH]; simpl in *; [discriminate |].
  destruct (cond x) eqn:Hx.
  - injection Hfind as ->. rewrite N.eqb_refl, Hr'. reflexivity.
  - destruct (pk x =? pk r)%N.
    + rewrite Hr'. reflexivity.
    + rewrite Hx. apply IH, Hfind.
Qed.

Lemma find_some_existsb (cond : R -> bool) (r : R) (t : list R) :
  find cond t = Some r -> existsb (fun x => (pk x =? pk r)%N) t = true.
Proof.
  intros H. apply find_some in H as [Hin _].
  apply existsb_exists. exists r. split; [exact Hin | apply N.eqb_refl].
Qed.

Lemma find_app_none (cond : R -> bool) (t : list R) (r : R) :
  find cond t = None -> cond r = true -> find cond (t ++ [r]) = Some r.
Proof.
  intros H Hr. induction t as [| x t IH]; simpl in *.
  - rewrite Hr. reflexivity.
  - destruct (cond x); [discriminate | apply IH, H].
Qed.

Lemma find_none_existsb (cond : R -> bool) (t : list R) :
  find cond t = None -> existsb cond t = false.
Proof.
  intros H. induction t as [| x t IH]; simpl in *; [reflexivity |].
  destruct (cond x); [discriminate | apply IH, H].
Qed.

Lemma next_id_nonzero (t : list R) : gorm.next_id pk t <> 0%N.
Proof. unfold gorm.next_id. lia. Qed.

End TableFacts.

(** ** The ledger *)

Lemma lazily_created_observed (userID : N) (d d' : DB) :
  lazily_created userID d d' ->
  balance_of d' userID = balance_of d userID /\
  earned_of d' userID = earned_of d userID /\
  spent_of d' userID = spent_of d userID /\
  credit_transactions d' = credit_transactions d /\
  payment_orders d' = payment_orders d /\
  redeem_codes d' = redeem_codes d /\
  redeem_code_usages d' = redeem_code_usages d /\
  (accounts_keyed d -> accounts_keyed d').
Proof.
  intros [-> | (Hnone & i & Hi & ->)].
  - repeat split; auto.
  - unfold balance_of, earned_of, spent_of, account_of in *. simpl.
    rewrite (find_app_none _ _ _ Hnone), Hnone
      by (unfold db.by_user; simpl; apply N.eqb_refl).
    simpl. repeat split; auto.
    unfold accounts_keyed. simpl. intros H.
    apply Forall_app. split; [exact H |]. constructor; [exact Hi | constructor].
Qed.

Lemma set_user_credits_same (d : DB) : db.set_user_credits (user_credits d) d = d.
Proof. destruct d; reflexivity. Qed.

Lemma Create_account (userID : N) (t : list UserCredits.t) :
  gorm.Create UserCredits.ID UserCredits.set_ID db.same_user
              (UserCredits.mk 0 userID 0 0 0) t
  = if existsb (db.by_user userID) t then (Err ErrDriver, t)
    else let c := UserCredits.mk (gorm.next_id UserCredits.ID t) userID 0 0 0
         in (Ok c, t ++ [c]).
Proof. reflexivity. Qed.

Lemma Create_account_fresh (userID : N) (t : list UserCredits.t) :
  find (db.by_user userID) t = None ->
  exists i, i <> 0%N /\
    gorm.Create UserCredits.ID UserCredits.set_ID db.same_user
                (UserCredits.mk 0 userID 0 0 0) t
    = (Ok (UserCredits.mk i userID 0 0 0),
       t ++ [UserCredits.mk i userID 0 0 0]).
Proof.
  intros Hf. exists (gorm.next_id UserCredits.ID t).
  split; [apply next_id_nonzero |].
  rewrite Create_account, (find_none_existsb _ _ Hf). reflexivity.
Qed.

Lemma GetUserCredits_spec (userID : N) (w : World) :
  forall r w', run (op.GetUserCredits userID) w = (r, w') ->
  w_now w' = w_now w /\
  lazily_created userID (w_db w) (w_db w') /\
  match r with
  | Ok c => account_of (w_db w') userID = Some c
  | Err e => w_db w' = w_db w /\ read_failure e
  end /\
  (w_faults w = [] -> w_faults w' = [] /\ is_ok r = true).
Proof.
  intros r w'. destruct w as [d now fs].
  unfold op.GetUserCredits, op.CreateUserCredits. simpl.
  unfold db.GetUserCreditsByUserID, db.CreateUserCredits, gorm.stmt.
  unfold gorm.First, lazily_created, account_of. simpl.
  destruct (hd false fs) eqn:F1; simpl.
  { intros [= <- <-]. simpl. settle. }
  destruct (find (db.by_user userID) (user_credits d)) eqn:Hf; simpl.
  { intros [= <- <-]. simpl. rewrite Hf. settle. }
  destruct (Create_account_fresh _ _ Hf) as (i & Hi & Hc).
  assert (Hfound :
    find (db.by_user userID)
         (user_credits d ++ [UserCredits.mk i userID 0 0 0])
    = Some (UserCredits.mk i userID 0 0 0)).
  { apply find_app_none; [exact Hf |].
    unfold db.by_user. simpl. apply N.eqb_refl. }
  destruct (hd false (tl fs)) eqn:F2; simpl.
  - destruct (hd false (tl (tl fs))) eqn:F3; simpl.
    + intros [= <- <-]. simpl. settle.
    + rewrite Hc. simpl. intros [= <- <-]. simpl. settle.
      right. split; [reflexivity |]. exists i. split; auto.
  - rewrite Hf. simpl.
    destruct (hd false (tl (tl fs))) eqn:F3; simpl.
    + intros [= <- <-]. simpl. settle.
    + rewrite Hc. simpl. intros [= <- <-]. simpl. settle.
      right. split; [reflexivity |]. exists i. split; auto.
Qed.

Lemma account_of_user (d : DB) (userID : N) (c : UserCredits.t) :
  account_of d userID = Some c -> UserCredits.UserID c = userID.
Proof.
  intros H. apply find_some in H as [_ H]. apply N.eqb_eq, H.
Qed.

Lemma account_of_keyed (d : DB) (userID : N) (c : UserCredits.t) :
  accounts_keyed d -> account_of d userID = Some c -> UserCredits.ID c <> 0%N.
Proof.
  intros Hk H. apply find_some in H as [Hin _].
  unfold accounts_keyed in Hk. rewrite Forall_forall in Hk. apply Hk, Hin.
Qed.

Lemma observed_account (d : DB) (userID : N) (c : UserCredits.t) :
  account_of d userID = Some c ->
  balance_of d userID = UserCredits.Balance c /\
  earned_of d userID = UserCredits.TotalEarn c /\
  spent_of d userID = UserCredits.TotalSpent c.
Proof.
  intros H. unfold balance_of, earned_of, spent_of. rewrite H. auto.
Qed.

(** Saving a changed copy of the account that was just read overwrites it. *)
Lemma Save_account (d : DB) (userID : N) (c : UserCredits.t) (b e s : Z) :
  accounts_keyed d ->
  account_of d userID = Some c ->
  let c' := UserCredits.mk (UserCredits.ID c) (UserCredits.UserID c) b e s in
  exists t,
    gorm.Save UserCredits.ID UserCredits.set_ID db.same_user c'
              (user_credits d) = (Ok c', t) /\
    account_of (db.set_user_credits t d) userID = Some c' /\
    Forall (fun x => UserCredits.ID x <> 0%N) t.
Proof.
  intros Hk Hc c'.
  exists (map (fun x => if (UserCredits.ID x =? UserCredits.ID c)%N
                        then c' else x) (user_credits d)).
  pose proof (account_of_keyed _ _ _ Hk Hc) as Hnz.
  split; [| split].
  - unfold gorm.Save. simpl.
    apply N.eqb_neq in Hnz. rewrite Hnz.
    rewrite (find_some_existsb UserCredits.ID _ _ _ Hc). reflexivity.
  - unfold account_of. simpl.
    apply (find_overwritten UserCredits.ID); [exact Hc |].
    unfold db.by_user. simpl. apply N.eqb_eq, (account_of_user _ _ _ Hc).
  - apply Forall_map. unfold accounts_keyed in Hk.
    eapply Forall_impl; [| exact Hk]. intros x Hx.
    destruct (UserCredits.ID x =? UserCredits.ID c)%N; [exact Hnz | exact Hx].
Qed.

Lemma Create_transaction (x : CreditTransaction.t) (t : list CreditTransaction.t) :
  CreditTransaction.ID x = 0%N ->
  exists i, i <> 0%N /\
    gorm.Create CreditTransaction.ID CreditTransaction.set_ID db.no_conflict
                x t
    = (Ok (CreditTransaction.set_ID i x), t ++ [CreditTransaction.set_ID i x]).
Proof.
  intros Hx. exists (gorm.next_id CreditTransaction.ID t).
  split; [apply next_id_nonzero |].
  unfold gorm.Create.
  replace (existsb (db.no_conflict x) t) with false.
  - rewrite Hx. reflexivity.
  - clear. induction t; simpl; auto.
Qed.

Lemma sum64_snoc (l : list Z) (a : Z) : sum64 (l ++ [a]) = add64 (sum64 l) a.
Proof. unfold sum64. rewrite fold_left_app. reflexivity. Qed.

(** What [DeductCredits] does, whatever the driver does. *)
Lemma DeductCredits_spec (userID : N) (amount : Z) (reason fileID : string)
  (w : World) (r : result unit) (w' : World) :
  accounts_keyed (w_db w) ->
  run (op.DeductCredits userID amount reason fileID) w = (r, w') ->
  let d := w_db w in
  let d' := w_db w' in
  (r = Err InsufficientBalance ->
     balance_of d userID < amount /\
     balance_of d' userID = balance_of d userID /\
     earned_of d' userID = earned_of d userID /\
     spent_of d' userID = spent_of d userID /\
     credit_transactions d' = credit_transactions d) /\
  (r = Ok tt ->
     amount <= balance_of d userID /\
     balance_of d' userID = sub64 (balance_of d userID) amount /\
     earned_of d' userID = earned_of d userID /\
     spent_of d' userID = add64 (spent_of d userID) amount /\
     exists i,
       credit_transactions d'
       = credit_transactions d
         ++ [CreditTransaction.mk i userID "spend" (neg64 amount)
               (sub64 (balance_of d userID) amount) "download" fileID
               reason]) /\
  (w_faults w = [] ->
     r = if balance_of d userID <? amount then Err InsufficientBalance
         else Ok tt) /\
  (balance_of d' userID = balance_of d userID \/
   amount <= balance_of d userID /\
   balance_of d' userID = sub64 (balance_of d userID) amount) /\
  accounts_keyed d' /\
  (w_faults w = [] -> w_faults w' = []).
Proof.
  intros Hk. unfold op.DeductCredits. rewrite run_bind.
  destruct (run (op.GetUserCredits userID) w) as [r1 w1] eqn:HG.
  apply GetUserCredits_spec in HG as (Hnow & Hlazy & Hr1 & Hnf).
  apply lazily_created_observed in Hlazy
    as (Hb & He & Hs & Htx & _ & _ & _ & Hk1).
  specialize (Hk1 Hk). simpl.
  destruct r1 as [c | e].
  2:{ simpl. intros [= <- <-]. destruct Hr1 as [Hd (cause & [-> | ->])].
      all: repeat split; try congruence; try discriminate.
      all: try (intros Hf; destruct (Hnf Hf) as [Hf' Hok];
                first [discriminate | exact Hf']).
      all: left; congruence. }
  destruct (observed_account _ _ _ Hr1) as (Hbal & Hea & Hsp).
  rewrite Hb in Hbal. rewrite He in Hea. rewrite Hs in Hsp.
  symmetry in Hbal, Hea, Hsp.
  destruct (UserCredits.Balance c <? amount) eqn:Hlt; simpl.
  { intros [= <- <-]. pose proof Hlt as Hlt'. apply Z.ltb_lt in Hlt'.
    repeat split; try congruence; try lia.
    - intros _. rewrite <- Hbal, Hlt. reflexivity.
    - intros Hf. apply (Hnf Hf). }
  pose proof Hlt as Hge. apply Z.ltb_ge in Hge.
  destruct (Save_account _ _ _ (sub64 (UserCredits.Balance c) amount)
              (UserCredits.TotalEarn c)
              (add64 (UserCredits.TotalSpent c) amount) Hk1 Hr1)
    as (t & HS & Hacc & Hkt).
  unfold db.UpdateUserCredits, db.CreateCreditTransaction, gorm.stmt.
  destruct w1 as [d1 now1 fs1]. simpl in *.
  destruct (hd false fs1) eqn:F1; simpl.
  { intros [= <- <-]. simpl.
    repeat split; try discriminate; try assumption.
    - intros Hf. destruct (Hnf Hf) as [-> _]. discriminate.
    - left. congruence.
    - intros Hf. destruct (Hnf Hf) as [-> _]. reflexivity. }
  rewrite HS. simpl.
  assert (Hb' : balance_of (db.set_user_credits t d1) userID
                = sub64 (balance_of (w_db w) userID) amount).
  { destruct (observed_account _ _ _ Hacc) as (-> & _ & _). simpl.
    congruence. }
  assert (He' : earned_of (db.set_user_credits t d1) userID
                = earned_of (w_db w) userID).
  { destruct (observed_account _ _ _ Hacc) as (_ & -> & _). exact Hea. }
  assert (Hs' : spent_of (db.set_user_credits t d1) userID
                = add64 (spent_of (w_db w) userID) amount).
  { destruct (observed_account _ _ _ Hacc) as (_ & _ & ->). simpl.
    congruence. }
  destruct (hd false (tl fs1)) eqn:F2; simpl.
  { intros [= <- <-]. simpl.
    repeat split; try discriminate; try assumption.
    - intros Hf. destruct (Hnf Hf) as [-> _]. discriminate.
    - right. split; [lia | exact Hb'].
    - intros Hf. destruct (Hnf Hf) as [-> _]. reflexivity. }
  match goal with
  | |- context [gorm.Create _ _ _ ?x ?l] =>
      destruct (Create_transaction x l eq_refl) as (i & Hi & HC)
  end.
  rewrite HC. simpl. intros [= <- <-]. simpl.
  repeat split; try discriminate; try assumption.
  - lia.
  - exists i. rewrite Htx, Hbal. reflexivity.
  - intros _. rewrite <- Hbal, Hlt. reflexivity.
  - right. split; [lia | exact Hb'].
  - intros Hf. destruct (Hnf Hf) as [-> _]. reflexivity.
Qed.

Lemma AddCredits_spec (userID : N) (amount : Z) (reason orderID : string)
  (w : World) (r : result unit) (w' : World) :
  accounts_keyed (w_db w) ->
  run (op.AddCredits userID amount reason orderID) w = (r, w') ->
  credit_outcome userID amount reason orderID (w_db w) (w_db w') r /\
  (w_faults w = [] -> r = Ok tt /\ w_faults w' = []) /\
  w_now w' = w_now w /\
  payment_orders (w_db w') = payment_orders (w_db w) /\
  redeem_codes (w_db w') = redeem_codes (w_db w) /\
  redeem_code_usages (w_db w') = redeem_code_usages (w_db w) /\
  accounts_keyed (w_db w').
Proof.
  intros Hk. unfold op.AddCredits. rewrite run_bind.
  destruct (run (op.GetUserCredits userID) w) as [r1 w1] eqn:HG.
  apply GetUserCredits_spec in HG as (Hnow & Hlazy & Hr1 & Hnf).
  apply lazily_created_observed in Hlazy
    as (Hb & He & Hs & Htx & Hpo & Hrc & Hru & Hk1).
  specialize (Hk1 Hk). simpl.
  destruct r1 as [c | e].
  2:{ simpl. intros [= <- <-]. destruct Hr1 as [Hd (cause & [-> | ->])].
      all: repeat split; auto.
      all: try (constructor; [discriminate | auto ..]).
      all: match goal with
           | H : w_faults _ = [] |- _ =>
               destruct (Hnf H) as [_ Hok]; discriminate
           end. }
  destruct (observed_account _ _ _ Hr1) as (Hbal & Hea & Hsp).
  rewrite Hb in Hbal. rewrite He in Hea. rewrite Hs in Hsp.
  symmetry in Hbal, Hea, Hsp.
  destruct (Save_account _ _ _ (add64 (UserCredits.Balance c) amount)
              (add64 (UserCredits.TotalEarn c) amount)
              (UserCredits.TotalSpent c) Hk1 Hr1)
    as (t & HS & Hacc & Hkt).
  unfold db.UpdateUserCredits, db.CreateCreditTransaction, gorm.stmt.
  destruct w1 as [d1 now1 fs1]. simpl in *.
  destruct (hd false fs1) eqn:F1; simpl.
  { intros [= <- <-]. simpl. repeat split; auto.
    all: try (constructor; [discriminate | auto ..]).
    all: match goal with
         | H : w_faults _ = [] |- _ => destruct (Hnf H) as [-> _]
         end; first [discriminate | reflexivity]. }
  rewrite HS. simpl.
  destruct (observed_account _ _ _ Hacc) as (Hb' & He' & Hs'). simpl in *.
  rewrite Hbal in Hb'. rewrite Hea in He'. rewrite Hsp in Hs'.
  destruct (hd false (tl fs1)) eqn:F2; simpl.
  { intros [= <- <-]. simpl. repeat split; auto.
    all: try (constructor; auto; fail).
    all: match goal with
         | H : w_faults _ = [] |- _ => destruct (Hnf H) as [-> _]
         end; first [discriminate | reflexivity]. }
  match goal with
  | |- context [gorm.Create _ _ _ ?x ?l] =>
      destruct (Create_transaction x l eq_refl) as (i & Hi & HC)
  end.
  rewrite HC. simpl. intros [= <- <-]. simpl. repeat split; auto.
  - apply credit_committed with (i := i); auto.
    simpl. rewrite Htx, Hbal. reflexivity.
  - match goal with
    | H : w_faults _ = [] |- _ => destruct (Hnf H) as [-> _]
    end. reflexivity.
Qed.

(** The outcome of a credit only depends on the ledger tables. *)
Lemma credit_outcome_frame (userID : N) (amount : Z) (reason orderID : string)
  (d0 d d' : DB) (r : result unit) :
  user_credits d0 = user_credits d ->
  credit_transactions d0 = credit_transactions d ->
  credit_outcome userID amount reason orderID d0 d' r ->
  credit_outcome userID amount reason orderID d d' r.
Proof.
  intros Hu Ht H.
  assert (Hb : balance_of d0 userID = balance_of d userID)
    by (unfold balance_of, account_of; rewrite Hu; reflexivity).
  assert (He : earned_of d0 userID = earned_of d userID)
    by (unfold earned_of, account_of; rewrite Hu; reflexivity).
  assert (Hs : spent_of d0 userID = spent_of d userID)
    by (unfold spent_of, account_of; rewrite Hu; reflexivity).
  destruct H as [i H1 H2 H3 H4 | cause H1 H2 H3 | e Hne H1 H2 H3 H4];
    rewrite ?Hb, ?He, ?Hs, ?Ht in *.
  - apply credit_committed with (i := i); assumption.
  - apply credit_torn; assumption.
  - apply credit_absent; assumption.
Qed.

Lemma history_committed (d d' : DB) (userID : N) (x : CreditTransaction.t) :
  credit_transactions d' = credit_transactions d ++ [x] ->
  CreditTransaction.UserID x = userID ->
  map CreditTransaction.Amount (history d' userID)
  = map CreditTransaction.Amount (history d userID)
    ++ [CreditTransaction.Amount x].
Proof.
  intros Htx Hu. unfold history. rewrite Htx, filter_app, map_app. simpl.
  rewrite Hu, N.eqb_refl. reflexivity.
Qed.

(** C4, as amended.  [AddCredits] commits the balance and the transaction
    together when it succeeds and commits neither when it fails before the
    balance has been written, and in both cases replaying the transactions
    still reproduces the balance.  When the insertion of the transaction
    fails, the balance stays credited and no transaction exists. *)
Theorem Credit_commits_in_two_steps (userID : N) (amount : Z)
  (reason orderID : string) (w : World) (r : result unit) (w' : World) :
  accounts_keyed (w_db w) ->
  ledger_ok (w_db w) userID ->
  run (op.AddCredits userID amount reason orderID) w = (r, w') ->
  let d := w_db w in
  let d' := w_db w' in
  (r = Ok tt ->
     ledger_ok d' userID /\
     balance_of d' userID = add64 (balance_of d userID) amount /\
     exists i,
       credit_transactions d'
       = credit_transactions d
         ++ [CreditTransaction.mk i userID "earn" amount
               (balance_of d' userID) reason orderID reason]) /\
  (forall e, r = Err e ->
     (forall cause, e <> Wrap cause "记录积分交易失败") ->
     ledger_ok d' userID /\
     balance_of d' userID = balance_of d userID /\
     credit_transactions d' = credit_transactions d) /\
  (forall cause, r = Err (Wrap cause "记录积分交易失败") ->
     balance_of d' userID = add64 (balance_of d userID) amount /\
     credit_transactions d' = credit_transactions d) /\
  (w_faults w = [] -> r = Ok tt).
Proof.
  intros Hk Hl Hrun.
  destruct (AddCredits_spec _ _ _ _ _ _ _ Hk Hrun) as (Hout & Hnf & _).
  unfold ledger_ok in *. simpl.
  destruct Hout as [i Hb He Hs Htx | cause Hb He Htx | e Hne Hb He Hs Htx].
  - repeat split; try (intros; discriminate).
    + rewrite (history_committed _ _ userID _ Htx eq_refl), sum64_snoc, <- Hl.
      exact Hb.
    + exact Hb.
    + exists i. rewrite Hb. exact Htx.
  - repeat split; try (intros; discriminate); try assumption.
    all: try match goal with
             | H : Err _ = Err ?e, Hne : forall c, ?e <> _ |- _ =>
                 injection H as <-; exfalso; apply (Hne cause); reflexivity
             end.
    intros Hf. apply (Hnf Hf).
  - repeat split; try (intros; discriminate); try assumption.
    all: try match goal with
             | H : Err _ = Err (Wrap ?c _) |- _ =>
                 injection H as ->; exfalso; apply (Hne c); reflexivity
             end.
    + unfold history. rewrite Htx, Hb. exact Hl.
    + intros Hf. apply (Hnf Hf).
Qed.

Lemma Credit_commits_in_two_steps_witness :
  let w := world_100 [] in
  let w' := snd (run (op.AddCredits 7 5 "admin" "grant") w) in
  accounts_keyed (w_db w) /\
  ledger_ok (w_db w) 7 /\
  run (op.AddCredits 7 5 "admin" "grant") w = (Ok tt, w') /\
  ledger_ok (w_db w') 7 /\
  balance_of (w_db w') 7 = 105.
Proof.
  intros w w'.
  assert (Hk : accounts_keyed (w_db w)) by (repeat constructor; discriminate).
  assert (Hl : ledger_ok (w_db w) 7) by reflexivity.
  assert (Hrun : run (op.AddCredits 7 5 "admin" "grant") w = (Ok tt, w'))
    by reflexivity.
  destruct (Credit_commits_in_two_steps 7 5 "admin" "grant" w (Ok tt) w'
              Hk Hl Hrun)
    as (Hok & _).
  destruct (Hok eq_refl) as (Hl' & Hb & _).
  exact (conj Hk (conj Hl (conj Hrun (conj Hl' Hb)))).
Defined.

(** C4 as stated fails: the driver refuses the insertion of the transaction
    after the balance has been written, and the balance (105) is no longer
    the sum of the transactions (100). *)
Lemma Credit_torn_by_failed_insert :
  let w := world_100 [false; false; true] in
  let (r, w') := run (op.AddCredits 7 5 "admin" "grant") w in
  ledger_ok (w_db w) 7 /\
  r = Err (Wrap ErrDriver "记录积分交易失败") /\
  balance_of (w_db w') 7 = 105 /\
  credit_transactions (w_db w') = credit_transactions (w_db w) /\
  ~ ledger_ok (w_db w') 7.
Proof.
  vm_compute. repeat split; try reflexivity. discriminate.
Qed.

(** C5.  [DeductCredits] fails with the insufficient-balance error exactly
    when the balance is below the amount, and then changes neither the
    balance, nor the cumulative spending, nor the transactions; when it
    succeeds it takes the amount from the balance, adds it to the cumulative
    spending and appends a spend transaction of the negated amount; a balance
    that is not negative before the call is not negative after it, however
    the call ends. *)
Theorem Debit_checks_then_acts (userID : N) (amount : Z)
  (reason fileID : string) (w : World) (r : result unit) (w' : World) :
  0 < amount <= max_int64 ->
  accounts_keyed (w_db w) ->
  int64_range (balance_of (w_db w) userID) ->
  run (op.DeductCredits userID amount reason fileID) w = (r, w') ->
  let d := w_db w in
  let d' := w_db w' in
  (w_faults w = [] ->
     (r = Err InsufficientBalance <-> balance_of d userID < amount)) /\
  (r = Err InsufficientBalance ->
     balance_of d userID < amount /\
     balance_of d' userID = balance_of d userID /\
     spent_of d' userID = spent_of d userID /\
     credit_transactions d' = credit_transactions d) /\
  (r = Ok tt ->
     amount <= balance_of d userID /\
     balance_of d' userID = balance_of d userID - amount /\
     spent_of d' userID = wrap64 (spent_of d userID + amount) /\
     (int64_range (spent_of d userID + amount) ->
        spent_of d' userID = spent_of d userID + amount) /\
     exists i,
       credit_transactions d'
       = credit_transactions d
         ++ [CreditTransaction.mk i userID "spend" (- amount)
               (balance_of d userID - amount) "download" fileID reason]) /\
  (0 <= balance_of d userID -> 0 <= balance_of d' userID).
Proof.
  intros Ha Hk Hr Hrun.
  destruct (DeductCredits_spec _ _ _ _ _ _ _ Hk Hrun)
    as (Hins & Hok & Hnf & Hbal & _).
  simpl in *.
  assert (Hneg : neg64 amount = - amount).
  { apply wrap64_small. unfold int64_range, min_int64, max_int64 in *. lia. }
  assert (Hsub : amount <= balance_of (w_db w) userID ->
                 sub64 (balance_of (w_db w) userID) amount
                 = balance_of (w_db w) userID - amount).
  { intros Hle. apply wrap64_small.
    unfold int64_range, min_int64, max_int64 in *. lia. }
  split; [| split; [| split]].
  - intros Hf. rewrite (Hnf Hf).
    destruct (balance_of (w_db w) userID <? amount) eqn:Hlt.
    + apply Z.ltb_lt in Hlt. split; [intros _; exact Hlt | reflexivity].
    + apply Z.ltb_ge in Hlt. split; [discriminate | lia].
  - intros He. destruct (Hins He) as (H1 & H2 & _ & H3 & H4). auto.
  - intros He. destruct (Hok He) as (H1 & H2 & _ & H3 & i & H4).
    rewrite (Hsub H1) in H2, H4. rewrite Hneg in H4.
    repeat split; auto.
    + intros Hrange. rewrite H3. apply wrap64_small, Hrange.
    + exists i. exact H4.
  - intros Hz. destruct Hbal as [-> | [Hle ->]]; [exact Hz |].
    rewrite (Hsub Hle). lia.
Qed.

Lemma Debit_checks_then_acts_witness :
  let w := world_100 [] in
  let w' := snd (run (op.DeductCredits 7 60 "download" "/f") w) in
  0 < 60 <= max_int64 /\
  accounts_keyed (w_db w) /\
  int64_range (balance_of (w_db w) 7) /\
  run (op.DeductCredits 7 60 "download" "/f") w = (Ok tt, w') /\
  balance_of (w_db w') 7 = 40 /\
  spent_of (w_db w') 7 = 60.
Proof.
  intros w w'.
  assert (Ha : 0 < 60 <= max_int64)
    by (split; [reflexivity | apply Z.leb_le; reflexivity]).
  assert (Hk : accounts_keyed (w_db w)) by (repeat constructor; discriminate).
  assert (Hr : int64_range (balance_of (w_db w) 7)).
  { split; apply Z.leb_le; reflexivity. }
  assert (Hrun : run (op.DeductCredits 7 60 "download" "/f") w = (Ok tt, w'))
    by reflexivity.
  destruct (Debit_checks_then_acts 7 60 "download" "/f" w (Ok tt) w'
              Ha Hk Hr Hrun)
    as (_ & _ & Hok & _).
  destruct (Hok eq_refl) as (_ & Hb & _ & Hs & _).
  assert (Hs' : spent_of (w_db w') 7 = 60).
  { apply Hs. split; apply Z.leb_le; reflexivity. }
  exact (conj Ha (conj Hk (conj Hr (conj Hrun (conj Hb Hs'))))).
Defined.

(** Once a thread has returned, the other runs alone. *)
Lemma interleave_Ret_l {A B} (sched : list bool) (a : A) (q : prog B)
  (w : World) :
  interleave sched (Ret a) q w = let (b, w') := run q w in (a, b, w').
Proof.
  revert q w. induction sched as [| s sched IH]; intros q w.
  - reflexivity.
  - destruct s; [reflexivity |].
    destruct q as [b | X f k]; simpl; [reflexivity |].
    destruct (f w) as [x w1]. apply IH.
Qed.

Lemma interleave_Ret_r {A B} (sched : list bool) (p : prog A) (b : B)
  (w : World) :
  interleave sched p (Ret b) w = let (a, w') := run p w in (a, b, w').
Proof.
  revert p w. induction sched as [| s sched IH]; intros p w.
  - simpl. destruct (run p w). reflexivity.
  - destruct s; [| reflexivity].
    destruct p as [a | X f k]; simpl; [reflexivity |].
    destruct (f w) as [x w1]. apply IH.
Qed.

(** A schedule that lets the first thread run alone runs the two programs
    one after the other. *)
Lemma interleave_first_alone {A B} (sched : list bool) (p : prog A)
  (q : prog B) (w : World) :
  first_runs_alone sched p w ->
  interleave sched p q w
  = let (a, w1) := run p w in let (b, w2) := run q w1 in (a, b, w2).
Proof.
  unfold first_runs_alone. revert p w.
  induction sched as [| s sched IH]; intros p w Hs.
  - reflexivity.
  - destruct p as [a | X f k].
    + rewrite interleave_Ret_l. reflexivity.
    + simpl in *. destruct (f w) as [x w1]. simpl in Hs.
      apply andb_true_iff in Hs as [-> Hs]. apply IH, Hs.
Qed.

(** A schedule that lets the second thread run alone runs the second
    program and then the first. *)
Lemma interleave_second_alone {A B} (sched : list bool) (p : prog A)
  (q : prog B) (w : World) :
  second_runs_alone sched q w ->
  interleave sched p q w
  = let (b, w1) := run q w in let (a, w2) := run p w1 in (a, b, w2).
Proof.
  unfold second_runs_alone. revert q w.
  induction sched as [| s sched IH]; intros q w Hs.
  - destruct q as [b | X f k].
    + simpl. destruct (run p w). reflexivity.
    + simpl in Hs. destruct (f w). rewrite firstn_nil in Hs. discriminate.
  - destruct q as [b | X f k].
    + rewrite interleave_Ret_r. reflexivity.
    + simpl in *. destruct (f w) as [x w1]. simpl in Hs.
      injection Hs as -> Hs. apply IH, Hs.
Qed.

(** Two calls of amount 60 against a balance of 100, one after the other. *)
Lemma Debit_then_Debit (userID : N) (reason1 file1 reason2 file2 : string)
  (w : World) :
  accounts_keyed (w_db w) ->
  balance_of (w_db w) userID = 100 ->
  w_faults w = [] ->
  exists w1 w2,
    run (op.DeductCredits userID 60 reason1 file1) w = (Ok tt, w1) /\
    run (op.DeductCredits userID 60 reason2 file2) w1
    = (Err InsufficientBalance, w2) /\
    balance_of (w_db w2) userID = 40.
Proof.
  intros Hk Hb Hf.
  destruct (run (op.DeductCredits userID 60 reason1 file1) w)
    as [r1 w1] eqn:H1.
  destruct (DeductCredits_spec _ _ _ _ _ _ _ Hk H1)
    as (_ & Hok1 & Hnf1 & _ & Hk1 & Hf1).
  specialize (Hnf1 Hf). rewrite Hb in Hnf1, Hok1.
  change (100 <? 60) with false in Hnf1. subst r1.
  destruct (Hok1 eq_refl) as (_ & Hb1 & _).
  change (sub64 100 60) with 40 in Hb1.
  destruct (run (op.DeductCredits userID 60 reason2 file2) w1)
    as [r2 w2] eqn:H2.
  destruct (DeductCredits_spec _ _ _ _ _ _ _ Hk1 H2)
    as (Hins2 & _ & Hnf2 & _).
  specialize (Hnf2 (Hf1 Hf)). rewrite Hb1 in Hnf2, Hins2.
  change (40 <? 60) with true in Hnf2. subst r2.
  destruct (Hins2 eq_refl) as (_ & Hb2 & _).
  exists w1, w2. split; [reflexivity |]. split; [exact H2 | exact Hb2].
Qed.

(** C3, as amended.  [DeductCredits] reads, compares, writes and appends in
    separate statements.  When one of two calls of amount 60 against a
    balance of 100 has finished before the other starts, the one that ran
    first succeeds, the other fails with the insufficient-balance error, and
    the balance ends at 40. *)
Theorem Debit_twice_in_turn (userID : N) (reason1 file1 reason2 file2 : string)
  (sched : list bool) (w : World) :
  accounts_keyed (w_db w) ->
  balance_of (w_db w) userID = 100 ->
  w_faults w = [] ->
  let p := op.DeductCredits userID 60 reason1 file1 in
  let q := op.DeductCredits userID 60 reason2 file2 in
  (first_runs_alone sched p w ->
   exists w',
     interleave sched p q w = (Ok tt, Err InsufficientBalance, w') /\
     balance_of (w_db w') userID = 40) /\
  (second_runs_alone sched q w ->
   exists w',
     interleave sched p q w = (Err InsufficientBalance, Ok tt, w') /\
     balance_of (w_db w') userID = 40).
Proof.
  intros Hk Hb Hf p q. split; intros Hs.
  - rewrite (interleave_first_alone _ _ _ _ Hs).
    destruct (Debit_then_Debit userID reason1 file1 reason2 file2 w Hk Hb Hf)
      as (w1 & w2 & H1 & H2 & Hb2).
    unfold p, q. rewrite H1, H2. exists w2. split; [reflexivity | exact Hb2].
  - rewrite (interleave_second_alone _ _ _ _ Hs).
    destruct (Debit_then_Debit userID reason2 file2 reason1 file1 w Hk Hb Hf)
      as (w1 & w2 & H1 & H2 & Hb2).
    unfold p, q. rewrite H1, H2. exists w2. split; [reflexivity | exact Hb2].
Qed.

Lemma Debit_twice_in_turn_witness :
  let p := op.DeductCredits 7 60 "download" "/f" in
  let q := op.DeductCredits 7 60 "download" "/g" in
  (exists w',
     interleave [true; true; true; false] p q (world_100 [])
     = (Ok tt, Err InsufficientBalance, w') /\
     balance_of (w_db w') 7 = 40) /\
  (exists w',
     interleave [false; false; false; true] p q (world_100 [])
     = (Err InsufficientBalance, Ok tt, w') /\
     balance_of (w_db w') 7 = 40).
Proof.
  intros p q.
  assert (Hk : accounts_keyed (w_db (world_100 [])))
    by (repeat constructor; discriminate).
  split.
  - apply (Debit_twice_in_turn 7 "download" "/f" "download" "/g"
             [true; true; true; false] (world_100 []) Hk eq_refl eq_refl).
    reflexivity.
  - apply (Debit_twice_in_turn 7 "download" "/f" "download" "/g"
             [false; false; false; true] (world_100 []) Hk eq_refl eq_refl).
    reflexivity.
Defined.

(** C3 as stated fails: when the second call reads the balance before the
    first has written it, both pass the check and both succeed; the balance
    ends at 40 although 120 credits were spent. *)
Lemma Debit_race_both_succeed :
  let p := op.DeductCredits 7 60 "download" "/f" in
  let q := op.DeductCredits 7 60 "download" "/g" in
  let w := world_100 [] in
  ~ first_runs_alone [true; false] p w /\
  ~ second_runs_alone [true; false] q w /\
  let '(r1, r2, w') := interleave [true; false] p q w in
  balance_of (w_db w) 7 = 100 /\
  r1 = Ok tt /\ r2 = Ok tt /\
  balance_of (w_db w') 7 = 40 /\
  map CreditTransaction.Amount (history (w_db w') 7) = [100; -60; -60] /\
  ~ ledger_ok (w_db w') 7.
Proof.
  vm_compute. repeat split; try reflexivity; discriminate.
Qed.

(** ** Payment orders *)

Lemma Save_order (d : DB) (orderNo : string) (o o' : PaymentOrder.t) :
  orders_keyed d ->
  order_of d orderNo = Some o ->
  PaymentOrder.ID o' = PaymentOrder.ID o ->
  PaymentOrder.OrderNo o' = PaymentOrder.OrderNo o ->
  exists t,
    gorm.Save PaymentOrder.ID PaymentOrder.set_ID db.same_order_no o'
              (payment_orders d) = (Ok o', t) /\
    find (db.by_order_no orderNo) t = Some o'.
Proof.
  intros Hk Ho Hid Hno.
  exists (map (fun x => if (PaymentOrder.ID x =? PaymentOrder.ID o)%N
                        then o' else x) (payment_orders d)).
  pose proof (find_some _ _ Ho) as [Hin Hby].
  assert (Hnz : PaymentOrder.ID o <> 0%N).
  { unfold orders_keyed in Hk. rewrite Forall_forall in Hk. apply Hk, Hin. }
  split.
  - unfold gorm.Save. rewrite Hid.
    apply N.eqb_neq in Hnz. rewrite Hnz.
    rewrite (find_some_existsb PaymentOrder.ID _ _ _ Ho). reflexivity.
  - apply (find_overwritten PaymentOrder.ID); [exact Ho |].
    unfold db.by_order_no in *. rewrite Hno. exact Hby.
Qed.

Opaque op.AddCredits.

(** A call of [CompletePaymentOrder] that succeeds found the order pending
    and unexpired, saved it as [completed], and credited its owner. *)
Lemma CompletePaymentOrder_success (orderNo transactionID : string)
  (amount : op.float64) (paidAt : Z) (w w' : World) :
  accounts_keyed (w_db w) ->
  orders_keyed (w_db w) ->
  run (op.CompletePaymentOrder orderNo transactionID amount paidAt) w
  = (Ok tt, w') ->
  exists o,
    order_of (w_db w) orderNo = Some o /\
    PaymentOrder.Status o = "pending" /\
    PaymentOrder.IsExpired o (w_now w) = false /\
    order_of (w_db w') orderNo = Some (completed transactionID paidAt o) /\
    credit_outcome (PaymentOrder.UserID o) (PaymentOrder.Credits o)
                   ("购买积分: " ++ orderNo) orderNo (w_db w) (w_db w')
                   (Ok tt).
Proof.
  intros Hka Hko. unfold op.CompletePaymentOrder. simpl.
  unfold db.GetPaymentOrderByOrderNo at 1. unfold gorm.stmt at 1.
  unfold gorm.First.
  destruct (hd false (w_faults w)); [discriminate |].
  destruct (find (db.by_order_no orderNo) (payment_orders (w_db w)))
    as [o |] eqn:Ho; [| discriminate].
  simpl.
  destruct (String.eqb (PaymentOrder.Status o) "pending") eqn:Hst;
    [| discriminate].
  simpl.
  destruct (PaymentOrder.IsExpired o (w_now w)) eqn:Hex; [discriminate |].
  simpl. unfold db.UpdatePaymentOrder at 1. unfold gorm.stmt at 1. simpl.
  destruct (hd false (tl (w_faults w))); [discriminate |].
  destruct (Save_order _ _ _ (completed transactionID paidAt o) Hko Ho
              eq_refl eq_refl) as (t & HS & Hfound).
  unfold completed in HS. rewrite HS. simpl. rewrite run_bind.
  match goal with
  | |- context [run (op.AddCredits ?u ?a ?s ?i) ?w0] =>
      destruct (run (op.AddCredits u a s i) w0) as [r1 w1] eqn:HA
  end.
  apply AddCredits_spec in HA as (Hout & _ & _ & Hpo & _); [| exact Hka].
  destruct r1 as [[] | e]; [| discriminate].
  simpl. intros [= <-]. exists o. simpl in *.
  repeat split; auto.
  - apply String.eqb_eq, Hst.
  - unfold order_of. rewrite Hpo. exact Hfound.
  - eapply credit_outcome_frame; [| | exact Hout]; reflexivity.
Qed.

Transparent op.AddCredits.

(** An order that is not pending is left alone. *)
Lemma CompletePaymentOrder_settled (orderNo transactionID : string)
  (amount : op.float64) (paidAt : Z) (o : PaymentOrder.t)
  (w : World) (r : result unit) (w' : World) :
  order_of (w_db w) orderNo = Some o ->
  PaymentOrder.Status o <> "pending" ->
  run (op.CompletePaymentOrder orderNo transactionID amount paidAt) w
  = (r, w') ->
  w_db w' = w_db w /\
  (r = Err InvalidOrderState \/ r = Err (Wrap ErrDriver "获取支付订单失败")) /\
  (hd false (w_faults w) = false -> r = Err InvalidOrderState).
Proof.
  intros Ho Hst. unfold op.CompletePaymentOrder. simpl.
  unfold db.GetPaymentOrderByOrderNo, gorm.stmt, gorm.First.
  unfold order_of in Ho.
  destruct (hd false (w_faults w)); simpl.
  - intros [= <- <-]. simpl. repeat split; auto. discriminate.
  - rewrite Ho. simpl.
    apply String.eqb_neq in Hst. rewrite Hst. simpl.
    intros [= <- <-]. simpl. repeat split; auto.
Qed.

(** C2.  After a call of [CompletePaymentOrder] has succeeded, a second call
    for the same order number finds the order no longer pending, fails, and
    leaves the store as it is: across both calls the owner is credited once,
    by one transaction. *)
Theorem Complete_twice_credits_once (orderNo tx1 tx2 : string)
  (amount1 amount2 : op.float64) (paidAt1 paidAt2 : Z) (w w1 : World)
  (now2 : Z) (faults2 : list bool) (r2 : result unit) (w2 : World) :
  accounts_keyed (w_db w) ->
  orders_keyed (w_db w) ->
  run (op.CompletePaymentOrder orderNo tx1 amount1 paidAt1) w = (Ok tt, w1) ->
  run (op.CompletePaymentOrder orderNo tx2 amount2 paidAt2)
      (mkWorld (w_db w1) now2 faults2) = (r2, w2) ->
  exists o i,
    order_of (w_db w) orderNo = Some o /\
    balance_of (w_db w1) (PaymentOrder.UserID o)
    = add64 (balance_of (w_db w) (PaymentOrder.UserID o))
            (PaymentOrder.Credits o) /\
    credit_transactions (w_db w1)
    = credit_transactions (w_db w)
      ++ [CreditTransaction.mk i (PaymentOrder.UserID o) "earn"
            (PaymentOrder.Credits o)
            (balance_of (w_db w1) (PaymentOrder.UserID o))
            ("购买积分: " ++ orderNo) orderNo ("购买积分: " ++ orderNo)] /\
    w_db w2 = w_db w1 /\
    (r2 = Err InvalidOrderState
     \/ r2 = Err (Wrap ErrDriver "获取支付订单失败")) /\
    (hd false faults2 = false -> r2 = Err InvalidOrderState).
Proof.
  intros Hka Hko H1 H2.
  destruct (CompletePaymentOrder_success _ _ _ _ _ _ Hka Hko H1)
    as (o & Ho & _ & _ & Ho1 & Hout).
  inversion Hout as [i Hb _ _ Htx | |]; subst.
  exists o, i. split; [exact Ho |]. split; [exact Hb |].
  split; [rewrite Hb; exact Htx |].
  apply (CompletePaymentOrder_settled orderNo tx2 amount2 paidAt2
           (completed tx1 paidAt1 o) (mkWorld (w_db w1) now2 faults2) r2 w2);
    [exact Ho1 | discriminate | exact H2].
Qed.

Lemma Complete_twice_credits_once_witness :
  let w := world_order 10 [] in
  let w1 := snd (run (op.CompletePaymentOrder "OL1" "T1" op.float64_0 10) w) in
  let w2 := snd (run (op.CompletePaymentOrder "OL1" "T2" op.float64_0 11)
                     (mkWorld (w_db w1) 11 [])) in
  balance_of (w_db w) 7 = 100 /\
  balance_of (w_db w1) 7 = 150 /\
  w_db w2 = w_db w1.
Proof.
  intros w w1 w2.
  destruct (Complete_twice_credits_once "OL1" "T1" "T2" op.float64_0
              op.float64_0 10 11 w w1 11 [] (Err InvalidOrderState) w2)
    as (o & i & Ho & Hb & _ & Hdb & _).
  - repeat constructor. discriminate.
  - repeat constructor. discriminate.
  - reflexivity.
  - reflexivity.
  - injection Ho as <-. split; [reflexivity |]. split; [exact Hb | exact Hdb].
Defined.

(** C7: the code departs from the claim.  A successful call of
    [CompletePaymentOrder] on a pending, unexpired order stores the status
    [completed], for which [IsPaid] is false, and credits the owner by a
    transaction whose source is the text built from the order number, not
    [purchase]; the source identifier is the order number. *)
Theorem Complete_stores_completed_not_paid :
  let w := world_order 10 [] in
  let (r, w') := run (op.CompletePaymentOrder "OL1" "T1" op.float64_0 10) w in
  r = Ok tt /\
  exists o x,
    order_of (w_db w') "OL1" = Some o /\
    PaymentOrder.Status o = "completed" /\
    PaymentOrder.IsPaid o = false /\
    PaymentOrder.PaidAt o = Some 10 /\
    last (credit_transactions (w_db w')) x = x /\
    CreditTransaction.Amount x = 50 /\
    CreditTransaction.SourceID x = "OL1" /\
    CreditTransaction.Source x = "购买积分: OL1" /\
    CreditTransaction.Source x <> "purchase".
Proof.
  vm_compute. split; [reflexivity |].
  eexists. eexists.
  repeat split; try reflexivity. discriminate.
Qed.

(** No order settled by [CompletePaymentOrder] satisfies [IsPaid]. *)
Lemma Complete_never_paid (orderNo transactionID : string)
  (amount : op.float64) (paidAt : Z) (w w' : World) :
  accounts_keyed (w_db w) ->
  orders_keyed (w_db w) ->
  run (op.CompletePaymentOrder orderNo transactionID amount paidAt) w
  = (Ok tt, w') ->
  exists o,
    order_of (w_db w') orderNo = Some o /\
    PaymentOrder.Status o = "completed" /\
    PaymentOrder.IsPaid o = false /\
    PaymentOrder.PaidAt o = Some paidAt /\
    PaymentOrder.PaymentData o = op.transaction_json transactionID.
Proof.
  intros Hka Hko Hrun.
  destruct (CompletePaymentOrder_success _ _ _ _ _ _ Hka Hko Hrun)
    as (o & _ & _ & _ & Ho' & _).
  exists (completed transactionID paidAt o).
  split; [exact Ho' |]. repeat split; reflexivity.
Qed.

(** [CancelPaymentOrder] does not depend on the user it is given. *)
Lemma CancelPaymentOrder_ignores_user (orderNo : string) (u1 u2 : N) :
  op.CancelPaymentOrder orderNo u1 = op.CancelPaymentOrder orderNo u2.
Proof. reflexivity. Qed.

(** C8: the code departs from the claim.  The pending order OL1 belongs to
    user 7; user 8 cancels it, and the call succeeds. *)
Theorem Cancel_by_stranger_succeeds :
  let w := world_order 10 [] in
  let (r, w') := run (op.CancelPaymentOrder "OL1" 8) w in
  option_map PaymentOrder.UserID (order_of (w_db w) "OL1") = Some 7%N /\
  r = Ok tt /\
  option_map PaymentOrder.Status (order_of (w_db w') "OL1")
  = Some "cancelled".
Proof. vm_compute. repeat split; reflexivity. Qed.

(** Any user cancels any pending order. *)
Lemma CancelPaymentOrder_any_user (orderNo : string) (userID : N)
  (o : PaymentOrder.t) (w : World) :
  orders_keyed (w_db w) ->
  order_of (w_db w) orderNo = Some o ->
  PaymentOrder.Status o = "pending" ->
  w_faults w = [] ->
  exists w',
    run (op.CancelPaymentOrder orderNo userID) w = (Ok tt, w') /\
    order_of (w_db w') orderNo
    = Some (PaymentOrder.set_Status "cancelled" o).
Proof.
  intros Hk Ho Hst Hf. unfold op.CancelPaymentOrder. simpl.
  unfold db.GetPaymentOrderByOrderNo, db.UpdatePaymentOrder.
  unfold gorm.stmt, gorm.First. rewrite Hf. simpl.
  pose proof Ho as Ho'. unfold order_of in Ho'. rewrite Ho'. simpl.
  rewrite Hst. simpl.
  destruct (Save_order _ _ _ (PaymentOrder.set_Status "cancelled" o) Hk Ho
              eq_refl eq_refl) as (t & HS & Hfound).
  rewrite HS. simpl. eexists. split; [reflexivity | exact Hfound].
Qed.

(** What is true of the claim: an order that is not pending is not
    cancelled. *)
Lemma CancelPaymentOrder_needs_pending (orderNo : string) (userID : N)
  (o : PaymentOrder.t) (w : World) (r : result unit) (w' : World) :
  order_of (w_db w) orderNo = Some o ->
  PaymentOrder.Status o <> "pending" ->
  run (op.CancelPaymentOrder orderNo userID) w = (r, w') ->
  w_db w' = w_db w /\
  (hd false (w_faults w) = false -> r = Err InvalidOrderState).
Proof.
  intros Ho Hst. unfold op.CancelPaymentOrder. simpl.
  unfold db.GetPaymentOrderByOrderNo, gorm.stmt, gorm.First.
  unfold order_of in Ho.
  destruct (hd false (w_faults w)); simpl.
  - intros [= <- <-]. simpl. split; [reflexivity | discriminate].
  - rewrite Ho. simpl.
    apply String.eqb_neq in Hst. rewrite Hst. simpl.
    intros [= <- <-]. simpl. split; reflexivity.
Qed.

(** Whatever else an Alipay callback carries, signed or not, the handler
    hands its order number to [CompletePaymentOrder]. *)
Lemma PaymentNotification_alipay (paymentData : list (string * payment.value))
  (raw : result string) (orderNo : string) (w : World) :
  payment.map_get paymentData "out_trade_no"
  = Some (payment.VString orderNo) ->
  orderNo <> EmptyString ->
  run (handles.PaymentNotification
         (handles.mkContext "alipay" (Ok paymentData) raw)) w
  = let (r, w') :=
      run (op.CompletePaymentOrder orderNo "mock_transaction_id"
                                   op.float64_0 (w_now w)) w in
    (match r with
     | Err err => handles.ErrorStrResp_Error err 400
     | Ok _ => handles.String_ 200 "success"
     end, w').
Proof.
  intros Hget Hne. unfold handles.PaymentNotification.
  cbn [handles.Param_provider handles.ShouldBindJSON String.eqb Ascii.eqb
       Bool.eqb].
  rewrite Hget. apply String.eqb_neq in Hne. rewrite Hne.
  cbn [negb]. rewrite run_bind. cbn [run call time_Now].
  rewrite run_bind.
  destruct (run (op.CompletePaymentOrder _ _ _ _) w) as [[[] | e] w'];
    reflexivity.
Qed.

(** C1: the code departs from the claim.  [PaymentNotification] never calls
    [VerifyPayment].  With a provider whose signature check rejects every
    callback, the forged callback fails verification, and the handler still
    completes the order, credits its owner and answers [success]. *)
Theorem Notification_settles_unverified_callback
  (PublicKey : Type) (base64_DecodeString : string -> option string)
  (sha256_Sum256 : string -> string) (time_Parse : string -> option Z)
  (ap : payment.AlipayProvider PublicKey) :
  let rsa_VerifyPKCS1v15 := fun (_ : PublicKey) (_ _ : string) => false in
  let w := world_order 10 [] in
  let (resp, w') := run (handles.PaymentNotification forged_callback) w in
  (forall orderNo paymentData now,
     payment.VerifyPayment PublicKey base64_DecodeString sha256_Sum256
       rsa_VerifyPKCS1v15 time_Parse ap orderNo paymentData now
     = (payment.failed_verification, Some (New "invalid signature"))) /\
  resp = handles.String_ 200 "success" /\
  option_map PaymentOrder.Status (order_of (w_db w') "OL1")
  = Some "completed" /\
  balance_of (w_db w) 7 = 100 /\
  balance_of (w_db w') 7 = 150.
Proof.
  split.
  - intros orderNo paymentData now.
    unfold payment.VerifyPayment, payment.verifyNotifySign.
    destruct (base64_DecodeString _); reflexivity.
  - vm_compute. repeat split; reflexivity.
Qed.

(** ** Redeem codes *)

Opaque op.AddCredits.

Lemma RedeemCode_found (userID : N) (code : string) (c : RedeemCode.t)
  (w : World) (r : result unit) (w' : World) :
  hd false (w_faults w) = false ->
  enabled_code (w_db w) code = Some c ->
  run (op.RedeemCode userID code) w = (r, w') ->
  r <> Err CodeNotFound /\
  (RedeemCode.CanUse c (w_now w) = false ->
   r = Err CodeUnusable /\ w_db w' = w_db w).
Proof.
  intros Hf Hc. unfold op.RedeemCode. simpl.
  unfold db.GetRedeemCodeByCode at 1. unfold gorm.stmt at 1.
  unfold gorm.First. unfold enabled_code in Hc. rewrite Hf, Hc. simpl.
  destruct (RedeemCode.CanUse c (w_now w)) eqn:Hcan; simpl.
  2:{ intros [= <- <-]. simpl. split; [discriminate | auto]. }
  match goal with
  | |- context [db.UpdateRedeemCode ?x ?w0] =>
      destruct (db.UpdateRedeemCode x w0) as [[? | ?] w1]
  end; simpl.
  2:{ intros [= <- <-]. split; [discriminate | discriminate]. }
  match goal with
  | |- context [db.CreateRedeemCodeUsage ?x ?w0] =>
      destruct (db.CreateRedeemCodeUsage x w0) as [[? | ?] w2]
  end; simpl.
  2:{ intros [= <- <-]. split; [discriminate | discriminate]. }
  rewrite run_bind.
  match goal with
  | |- context [run (op.AddCredits ?u ?a ?s ?i) ?w0] =>
      destruct (run (op.AddCredits u a s i) w0) as [[? | ?] w3]
  end; simpl.
  all: intros [= <- <-]; split; discriminate.
Qed.

Transparent op.AddCredits.

Lemma RedeemCode_not_found (userID : N) (code : string)
  (w : World) (r : result unit) (w' : World) :
  hd false (w_faults w) = false ->
  enabled_code (w_db w) code = None ->
  run (op.RedeemCode userID code) w = (r, w') ->
  r = Err CodeNotFound /\ w_db w' = w_db w.
Proof.
  intros Hf Hc. unfold op.RedeemCode. simpl.
  unfold db.GetRedeemCodeByCode, gorm.stmt, gorm.First.
  unfold enabled_code in Hc. rewrite Hf, Hc. simpl.
  intros [= <- <-]. split; reflexivity.
Qed.

(** C9, as amended.  When the lookup itself does not fail, [RedeemCode]
    answers that the code does not exist exactly when no enabled code has
    that string, so also for a code that exists and is disabled; it answers
    that the code is unusable, and changes nothing, when the enabled code
    has expired or its use count has reached the maximum. *)
Theorem Redeem_hides_disabled_codes (userID : N) (code : string)
  (w : World) (r : result unit) (w' : World) :
  hd false (w_faults w) = false ->
  run (op.RedeemCode userID code) w = (r, w') ->
  (r = Err CodeNotFound <-> enabled_code (w_db w) code = None) /\
  ((forall c, In c (redeem_codes (w_db w)) ->
              RedeemCode.Code c = code -> RedeemCode.Enabled c = false) ->
   r = Err CodeNotFound) /\
  (forall c, enabled_code (w_db w) code = Some c ->
     RedeemCode.IsExpired c (w_now w) = true
     \/ RedeemCode.MaxUses c <= RedeemCode.UsedCount c ->
     r = Err CodeUnusable /\ w_db w' = w_db w).
Proof.
  intros Hf Hrun.
  destruct (enabled_code (w_db w) code) as [c |] eqn:Hc.
  - destruct (RedeemCode_found _ _ _ _ _ _ Hf Hc Hrun) as (Hne & Hun).
    split; [| split].
    + split; [intros H; contradiction | discriminate].
    + intros Hall. apply find_some in Hc as [Hin Hen].
      unfold db.code_enabled in Hen. apply andb_true_iff in Hen as [Hs He].
      apply String.eqb_eq in Hs. rewrite (Hall c Hin Hs) in He.
      discriminate.
    + intros c0 [= <-] Hbad. apply Hun. unfold RedeemCode.CanUse.
      destruct Hbad as [-> | Hmax].
      * rewrite andb_false_r. reflexivity.
      * apply Z.ltb_ge in Hmax. rewrite Hmax. apply andb_false_r.
  - destruct (RedeemCode_not_found _ _ _ _ _ Hf Hc Hrun) as (-> & _).
    split; [| split].
    + split; reflexivity.
    + reflexivity.
    + discriminate.
Qed.

Lemma Redeem_hides_disabled_codes_witness :
  let w := mkWorld store_exhausted_code 0 [] in
  let w' := snd (run (op.RedeemCode 7 "OLY") w) in
  hd false (w_faults w) = false /\
  run (op.RedeemCode 7 "OLY") w = (Err CodeUnusable, w') /\
  ~ (Err CodeUnusable = Err CodeNotFound :> result unit) /\
  w_db w' = w_db w.
Proof.
  intros w w'.
  assert (Hf : hd false (w_faults w) = false) by reflexivity.
  assert (Hrun : run (op.RedeemCode 7 "OLY") w = (Err CodeUnusable, w'))
    by reflexivity.
  destruct (Redeem_hides_disabled_codes 7 "OLY" w (Err CodeUnusable) w'
              Hf Hrun) as (Hiff & _ & Hbad).
  split; [exact Hf |]. split; [exact Hrun |]. split.
  - intros H. apply Hiff in H. discriminate H.
  - apply (Hbad (RedeemCode.mk 1 "OLY" 10 1 1 true None 1 "gift") eq_refl).
    right. simpl. lia.
Defined.

(** C9 as stated fails: the code OLX exists and is disabled, and
    [RedeemCode] answers that it does not exist. *)
Lemma Redeem_disabled_code_not_found :
  let w := mkWorld store_disabled_code 0 [] in
  code_exists (w_db w) "OLX" /\
  fst (run (op.RedeemCode 7 "OLX") w) = Err CodeNotFound /\
  fst (run (op.RedeemCode 7 "OLX") w) <> Err CodeUnusable.
Proof.
  split; [| split].
  - eexists. split; [left; reflexivity | reflexivity].
  - reflexivity.
  - discriminate.
Qed.

(** ** Pricing *)

Lemma LIKE_percent (s : string) : gorm.LIKE_ "%" s = true.
Proof. induction s as [| c s IH]; simpl; [reflexivity | exact IH]. Qed.

(** For a pattern without wildcards, [path LIKE CONCAT(pattern, '%')] is the
    prefix test. *)
Lemma LIKE_prefix (p s : string) :
  no_wildcard p = true -> gorm.LIKE s (p ++ "%") = String.prefix p s.
Proof.
  unfold gorm.LIKE. revert s. induction p as [| c p IH]; intros s Hp.
  - rewrite LIKE_percent. destruct s; reflexivity.
  - simpl in Hp. apply andb_true_iff in Hp as [Hc Hp].
    apply andb_true_iff in Hc as [H1 H2].
    apply negb_true_iff in H1, H2.
    change (String c p ++ "%")%string with (String c (p ++ "%")).
    cbn [gorm.LIKE_]. rewrite H1, H2.
    destruct s as [| c' s]; simpl; [reflexivity |].
    rewrite (IH s Hp).
    destruct (ascii_dec c c') as [-> | Hne].
    + rewrite Ascii.eqb_refl. reflexivity.
    + apply Ascii.eqb_neq in Hne. rewrite Hne. reflexivity.
Qed.

Lemma GetFileCreditsConfig_no_fault (path : string) (d : DB) (now : Z) :
  run (op.GetFileCreditsConfig path) (mkWorld d now [])
  = (match find (db.exact_enabled path) (file_credits_configs d) with
     | Some c => Ok c
     | None =>
         match gorm.longest_first
                 (fun c => String.length (FileCreditsConfig.Path c))
                 (filter (db.inheritable_match path)
                         (file_credits_configs d)) with
         | Some c => Ok c
         | None => Err ErrRecordNotFound
         end
     end, mkWorld d now []).
Proof.
  unfold op.GetFileCreditsConfig. simpl.
  unfold db.GetFileCreditsConfigByPath, db.GetInheritableCreditsConfig.
  unfold gorm.stmt, gorm.First. simpl.
  destruct (find (db.exact_enabled path) (file_credits_configs d)); simpl.
  - reflexivity.
  - destruct (gorm.longest_first _ _); reflexivity.
Qed.

(** [longest_first] returns a row of the table, and none is longer. *)
Lemma longest_first_spec {R} (len : R -> nat) (t : list R) (r : R) :
  gorm.longest_first len t = Some r ->
  In r t /\ forall x, In x t -> (len x <= len r)%nat.
Proof.
  unfold gorm.longest_first.
  assert (H : forall acc,
    fold_left (fun best x =>
                 match best with
                 | None => Some x
                 | Some b => if (len b <? len x)%nat then Some x else Some b
                 end) t acc = Some r ->
    (acc = Some r \/ In r t) /\
    (forall x, In x t -> (len x <= len r)%nat) /\
    (forall b, acc = Some b -> (len b <= len r)%nat)).
  { induction t as [| x t IH]; intros acc Hacc; simpl in *.
    - split; [left; exact Hacc |]. split; [contradiction |].
      intros b Hb. rewrite Hb in Hacc. injection Hacc as ->. lia.
    - apply IH in Hacc as (Hin & Hmax & Hacc).
      destruct acc as [b |].
      + destruct (len b <? len x)%nat eqn:Hlt.
        * apply Nat.ltb_lt in Hlt. specialize (Hacc x eq_refl).
          split; [| split].
          -- destruct Hin as [[= <-] | Hin]; right; [left | right]; auto.
          -- intros y [<- | Hy]; [exact Hacc | apply Hmax, Hy].
          -- intros b0 [= <-]. lia.
        * apply Nat.ltb_ge in Hlt. specialize (Hacc b eq_refl).
          split; [| split].
          -- destruct Hin as [Hin | Hin]; [left | right; right]; auto.
          -- intros y [<- | Hy]; [lia | apply Hmax, Hy].
          -- intros b0 [= <-]. exact Hacc.
      + specialize (Hacc x eq_refl). split; [| split].
        * destruct Hin as [[= <-] | Hin]; right; [left | right]; auto.
        * intros y [<- | Hy]; [exact Hacc | apply Hmax, Hy].
        * discriminate. }
  intros Hr. apply H in Hr as ([Hr | Hr] & Hmax & _);
    [discriminate | split; assumption].
Qed.

(** When no rule path contains a wildcard, no rule has negative credits
    and the driver does not fail, the code resolves prices as the
    specification describes. *)
Lemma required_credits_without_wildcards (userID : N) (path : string)
  (d : DB) (now : Z) :
  Forall (fun c => no_wildcard (FileCreditsConfig.Path c) = true
                   /\ 0 <= FileCreditsConfig.Credits c)
         (file_credits_configs d) ->
  required_credits userID path (mkWorld d now [])
  = spec_Resolve (file_credits_configs d) path.
Proof.
  intros Hall. rewrite Forall_forall in Hall.
  unfold required_credits, op.CheckFileDownloadPermission.
  rewrite run_bind, GetFileCreditsConfig_no_fault. unfold spec_Resolve.
  assert (Hfilter :
    filter (db.inheritable_match path) (file_credits_configs d)
    = filter (prefix_match path) (file_credits_configs d)).
  { apply filter_ext_in. intros c Hin.
    unfold db.inheritable_match, prefix_match.
    rewrite (LIKE_prefix _ _ (proj1 (Hall c Hin))). reflexivity. }
  rewrite Hfilter.
  assert (Hpaid : forall c w0, In c (file_credits_configs d) ->
    snd (fst (fst (run
      (if FileCreditsConfig.Credits c <=? 0
       then Ret (true, 0, None)
       else
         r <- op.GetUserCredits userID ;;
         match r with
         | Err err => Ret (false, FileCreditsConfig.Credits c, Some err)
         | Ok userCredits =>
             if UserCredits.Balance userCredits <? FileCreditsConfig.Credits c
             then Ret (false, FileCreditsConfig.Credits c, None)
             else Ret (true, FileCreditsConfig.Credits c, None)
         end) w0))) = FileCreditsConfig.Credits c).
  { intros c w0 Hin. destruct (Hall c Hin) as [_ Hpos].
    destruct (FileCreditsConfig.Credits c <=? 0) eqn:Hle.
    - apply Z.leb_le in Hle. simpl. lia.
    - rewrite run_bind.
      destruct (run (op.GetUserCredits userID) w0) as [[uc | e] w1];
        [| reflexivity].
      destruct (UserCredits.Balance uc <? FileCreditsConfig.Credits c);
        reflexivity. }
  destruct (find (db.exact_enabled path) (file_credits_configs d))
    as [c |] eqn:Hex.
  - apply Hpaid. apply (find_some _ _ Hex).
  - destruct (gorm.longest_first _ _) as [c |] eqn:Hlong; [| reflexivity].
    apply Hpaid. apply longest_first_spec in Hlong as [Hin _].
    apply filter_In in Hin as [Hin _]. exact Hin.
Qed.

(** The example of the specification. *)
Lemma required_credits_example :
  required_credits 7 "/a/b/c" (world_rules rules_a_ab) = 5 /\
  required_credits 7 "/a/b" (world_rules rules_a_ab) = 2 /\
  required_credits 7 "/x" (world_rules rules_a_ab) = 0.
Proof. repeat split; reflexivity. Qed.

(** C6: the code departs from the claim.  The only rule is the inheritable
    folder rule [/my_docs]; it is no prefix of [/my-docs/report.pdf], so the
    specified resolution is 0, but the path matches the rule's path read as
    a [LIKE] pattern, and the code requires 5 credits. *)
Theorem Resolve_reads_rule_path_as_pattern :
  let path := "/my-docs/report.pdf" in
  existsb (fun c => String.prefix (FileCreditsConfig.Path c) path)
          rules_underscore = false /\
  spec_Resolve rules_underscore path = 0 /\
  required_credits 7 path (world_rules rules_underscore) = 5.
Proof. repeat split; reflexivity. Qed.

(** ** Registrations *)

(** [ApproveUserRegistration] never gets past its status check: the lookup
    only returns registrations of status 0, and the check demands 1. *)
Lemma ApproveUserRegistration_always_fails
  (CreateUser : User.t -> prog (result User.t)) (GENERAL : Z)
  (registrationID : N) (w : World) :
  exists e w',
    run (op.ApproveUserRegistration CreateUser GENERAL registrationID) w
    = (Err e, w') /\ w_db w' = w_db w.
Proof.
  unfold op.ApproveUserRegistration. simpl.
  unfold db.GetUserRegistrationByToken, gorm.stmt, gorm.First.
  destruct (hd false (w_faults w)); simpl.
  - eexists. eexists. split; reflexivity.
  - destruct (find (db.by_token_pending EmptyString)
                   (user_registrations (w_db w))) as [reg |] eqn:Hf; simpl.
    + apply find_some in Hf as [_ Hp]. unfold db.by_token_pending in Hp.
      apply andb_true_iff in Hp as [Hp _].
      apply andb_true_iff in Hp as [_ Hs]. apply Z.eqb_eq in Hs.
      rewrite Hs. simpl. eexists. eexists. split; reflexivity.
    + eexists. eexists. split; reflexivity.
Qed.

(** C10.  [ApproveUserRegistration] and [RejectUserRegistration] are the
    same programs whatever registration id they are given.  With a working
    driver, [RejectUserRegistration] saves, with status -1, the registration
    found by the lookup with the empty token and pending status, and fails
    when there is none; the id plays no part. *)
Theorem registration_id_is_ignored
  (CreateUser : User.t -> prog (result User.t)) (GENERAL : Z)
  (id1 id2 : N) (d : DB) (now : Z) :
  op.ApproveUserRegistration CreateUser GENERAL id1
  = op.ApproveUserRegistration CreateUser GENERAL id2 /\
  op.RejectUserRegistration id1 = op.RejectUserRegistration id2 /\
  run (op.RejectUserRegistration id1) (mkWorld d now [])
  = match registration_found d with
    | None =>
        (Err (Wrap ErrRecordNotFound "获取注册信息失败"), mkWorld d now [])
    | Some registration =>
        let (r, t) :=
          gorm.Save UserRegistration.ID UserRegistration.set_ID
            db.same_registration
            (UserRegistration.set_Status (-1) registration)
            (user_registrations d) in
        (match r with
         | Ok _ => Ok tt
         | Err err => Err (Wrap err "更新注册状态失败")
         end, mkWorld (db.set_user_registrations t d) now [])
    end.
Proof.
  split; [reflexivity |]. split; [reflexivity |].
  unfold op.RejectUserRegistration, registration_found. simpl.
  unfold db.GetUserRegistrationByToken, db.UpdateUserRegistration.
  unfold gorm.stmt, gorm.First. simpl.
  destruct (find (db.by_token_pending EmptyString) (user_registrations d))
    as [reg |]; simpl; [| reflexivity].
  destruct (gorm.Save _ _ _ _ _) as [[r | e] t]; reflexivity.
Qed.

(** Asked to reject registration 2, the code rejects registration 1. *)
Lemma Reject_hits_the_empty_token :
  let w := mkWorld store_registrations 0 [] in
  let (r, w') := run (op.RejectUserRegistration 2) w in
  r = Ok tt /\
  map (fun x => (UserRegistration.ID x, UserRegistration.Status x))
      (user_registrations (w_db w'))
  = [(1%N, -1); (2%N, 0)].
Proof. vm_compute. split; reflexivity. Qed.

(** * Further properties of the code *)

(** ** The ledger over sequences of calls *)

Lemma wrap64_add_neg (x a : Z) : add64 x (neg64 a) = sub64 x a.
Proof.
  unfold add64, sub64, neg64, wrap64. f_equal.
  replace (x + ((- a + 2 ^ 63) mod 2 ^ 64 - 2 ^ 63) + 2 ^ 63)
    with (x + (- a + 2 ^ 63) mod 2 ^ 64) by lia.
  rewrite Z.add_mod_idemp_r by lia. f_equal. lia.
Qed.

Lemma snapshots_from_snoc (acc : Z) (l : list CreditTransaction.t)
  (x : CreditTransaction.t) :
  snapshots_from acc l ->
  CreditTransaction.Balance x
  = add64 (fold_left add64 (map CreditTransaction.Amount l) acc)
          (CreditTransaction.Amount x) ->
  snapshots_from acc (l ++ [x]).
Proof.
  revert acc. induction l as [| y l IH]; intros acc Hl Hx; simpl in *.
  - split; [exact Hx | exact I].
  - destruct Hl as [Hy Hl]. split; [exact Hy |].
    apply IH; [exact Hl |]. rewrite Hy. exact Hx.
Qed.

Lemma history_snoc (d d' : DB) (userID : N) (x : CreditTransaction.t) :
  credit_transactions d' = credit_transactions d ++ [x] ->
  CreditTransaction.UserID x = userID ->
  history d' userID = history d userID ++ [x].
Proof.
  intros Htx Hu. unfold history. rewrite Htx, filter_app. simpl.
  rewrite Hu, N.eqb_refl. reflexivity.
Qed.

(** One call that is not interrupted by the driver keeps the ledger
    equations. *)
Lemma ledger_call_conserves (userID : N) (c : ledger_call) (w : World)
  (r : result unit) (w' : World) :
  accounts_keyed (w_db w) ->
  ledger_ok (w_db w) userID ->
  snapshots_ok (w_db w) userID ->
  w_faults w = [] ->
  run (ledger_prog userID c) w = (r, w') ->
  accounts_keyed (w_db w') /\
  ledger_ok (w_db w') userID /\
  snapshots_ok (w_db w') userID /\
  w_faults w' = [] /\
  (r = Ok tt \/ r = Err InsufficientBalance).
Proof.
  intros Hk Hl Hsn Hf Hrun. unfold ledger_ok, snapshots_ok in *.
  destruct c as [amount reason orderID | amount reason fileID]; simpl in Hrun.
  - destruct (AddCredits_spec _ _ _ _ _ _ _ Hk Hrun)
      as (Hout & Hnf & _ & _ & _ & _ & Hk').
    destruct (Hnf Hf) as [-> Hf'].
    inversion Hout as [i Hb _ _ Htx | |]; subst.
    rewrite (history_snoc _ _ userID _ Htx eq_refl).
    repeat split; auto.
    + rewrite map_app. cbn [map]. rewrite sum64_snoc, <- Hl. exact Hb.
    + apply snapshots_from_snoc; [exact Hsn |]. simpl.
      fold (sum64 (map CreditTransaction.Amount (history (w_db w) userID))).
      rewrite <- Hl. reflexivity.
  - destruct (DeductCredits_spec _ _ _ _ _ _ _ Hk Hrun)
      as (Hins & Hok & Hnf & _ & Hk' & Hf').
    specialize (Hnf Hf). specialize (Hf' Hf).
    destruct (balance_of (w_db w) userID <? amount); subst r.
    + destruct (Hins eq_refl) as (_ & Hb & _ & _ & Htx).
      unfold history. rewrite Htx, Hb. repeat split; auto.
    + destruct (Hok eq_refl) as (_ & Hb & _ & _ & i & Htx).
      rewrite (history_snoc _ _ userID _ Htx eq_refl).
      repeat split; auto.
      * rewrite map_app. cbn [map]. rewrite sum64_snoc, <- Hl. simpl.
        rewrite wrap64_add_neg. exact Hb.
      * apply snapshots_from_snoc; [exact Hsn |]. simpl.
        fold (sum64 (map CreditTransaction.Amount (history (w_db w) userID))).
        rewrite <- Hl. symmetry. apply wrap64_add_neg.
Qed.

(** X1.  Any sequence of credits and debits of one user, run one call after
    the other with a working driver, keeps the ledger equations: the balance
    is the [int64] sum of the user's transactions, and every transaction
    records the running sum up to itself.  Each call either succeeds or is
    refused for insufficient balance. *)
Theorem ledger_sequence_conserved (userID : N) (cs : list ledger_call)
  (w : World) :
  accounts_keyed (w_db w) ->
  ledger_ok (w_db w) userID ->
  snapshots_ok (w_db w) userID ->
  w_faults w = [] ->
  let (rs, w') := run_calls userID cs w in
  ledger_ok (w_db w') userID /\
  snapshots_ok (w_db w') userID /\
  List.length rs = List.length cs /\
  Forall (fun r => r = Ok tt \/ r = Err InsufficientBalance) rs.
Proof.
  revert w. induction cs as [| c cs IH]; intros w Hk Hl Hsn Hf; simpl.
  - repeat split; auto.
  - destruct (run (ledger_prog userID c) w) as [r w1] eqn:Hrun.
    destruct (ledger_call_conserves _ _ _ _ _ Hk Hl Hsn Hf Hrun)
      as (Hk1 & Hl1 & Hsn1 & Hf1 & Hr).
    specialize (IH w1 Hk1 Hl1 Hsn1 Hf1).
    destruct (run_calls userID cs w1) as [rs w2].
    destruct IH as (Hl2 & Hsn2 & Hlen & Hall).
    repeat split; auto. simpl. rewrite Hlen. reflexivity.
Qed.

Lemma ledger_sequence_conserved_witness :
  let (rs, w') :=
    run_calls 7 [Debit 60 "download" "/f"; Credit 5 "admin" "grant";
                 Debit 60 "download" "/g"] (world_100 []) in
  ledger_ok (w_db w') 7 /\ snapshots_ok (w_db w') 7 /\
  balance_of (w_db w') 7 = 45 /\
  rs = [Ok tt; Ok tt; Err InsufficientBalance].
Proof.
  assert (Hk : accounts_keyed (w_db (world_100 [])))
    by (repeat constructor; discriminate).
  assert (Hl : ledger_ok (w_db (world_100 [])) 7) by reflexivity.
  assert (Hs : snapshots_ok (w_db (world_100 [])) 7)
    by (repeat split; reflexivity).
  pose proof (ledger_sequence_conserved 7
                [Debit 60 "download" "/f"; Credit 5 "admin" "grant";
                 Debit 60 "download" "/g"] (world_100 []) Hk Hl Hs eq_refl)
    as H.
  destruct (run_calls _ _ _) as [rs w'] eqn:E.
  destruct H as (Hl' & Hsn' & _).
  split; [exact Hl' |]. split; [exact Hsn' |].
  vm_compute in E. injection E as <- <-. split; reflexivity.
Defined.

(** ** Downloads *)

Lemma GetFileCreditsConfig_resolved (path : string) (w : World) :
  w_faults w = [] ->
  run (op.GetFileCreditsConfig path) w
  = (match resolved_rule (w_db w) path with
     | Some c => Ok c
     | None => Err ErrRecordNotFound
     end, w).
Proof.
  destruct w as [d now fs]. cbn [w_faults w_db]. intros ->.
  rewrite GetFileCreditsConfig_no_fault. unfold resolved_rule.
  destruct (find _ _); [reflexivity |].
  destruct (gorm.longest_first _ _); reflexivity.
Qed.

(** The price lookup never writes. *)
Lemma GetFileCreditsConfig_reads (path : string) (w : World)
  (r : result FileCreditsConfig.t) (w' : World) :
  run (op.GetFileCreditsConfig path) w = (r, w') ->
  w_db w' = w_db w /\ w_now w' = w_now w.
Proof.
  unfold op.GetFileCreditsConfig. simpl.
  unfold db.GetFileCreditsConfigByPath, db.GetInheritableCreditsConfig.
  unfold gorm.stmt, gorm.First.
  destruct (hd false (w_faults w)); simpl.
  - intros [= <- <-]. split; reflexivity.
  - destruct (find _ _); simpl.
    + intros [= <- <-]. split; reflexivity.
    + destruct (hd false (tl (w_faults w))); simpl.
      * intros [= <- <-]. split; reflexivity.
      * intros [= <- <-]. split; reflexivity.
Qed.

Lemma price_of_nonneg (d : DB) (path : string) : 0 <= price_of d path.
Proof.
  unfold price_of. destruct (resolved_rule d path) as [c |]; [| lia].
  destruct (FileCreditsConfig.Credits c <=? 0) eqn:H; [lia |].
  apply Z.leb_gt in H. lia.
Qed.

Lemma GetFileCreditsConfig_driver_failure (path : string) (w : World) :
  hd false (w_faults w) = true ->
  run (op.GetFileCreditsConfig path) w
  = (Err (Wrap ErrDriver "获取文件积分配置失败"),
     mkWorld (w_db w) (w_now w) (tl (w_faults w))).
Proof.
  intros Hf. unfold op.GetFileCreditsConfig. simpl.
  unfold db.GetFileCreditsConfigByPath, gorm.stmt. rewrite Hf. reflexivity.
Qed.

Opaque op.GetUserCredits op.GetFileCreditsConfig op.DeductCredits.

(** What [CheckFileDownloadPermission] returns when the driver works. *)
Lemma CheckFileDownloadPermission_no_fault (userID : N) (filePath : string)
  (w : World) :
  w_faults w = [] ->
  let p := price_of (w_db w) filePath in
  exists w',
    run (op.CheckFileDownloadPermission userID filePath) w
    = ((((p =? 0) || (p <=? balance_of (w_db w) userID))%bool, p, None), w')
    /\ lazily_created userID (w_db w) (w_db w')
    /\ (p = 0 -> w' = w)
    /\ w_faults w' = [] /\ w_now w' = w_now w.
Proof.
  intros Hf p. unfold op.CheckFileDownloadPermission.
  rewrite run_bind, (GetFileCreditsConfig_resolved _ _ Hf).
  unfold p, price_of.
  destruct (resolved_rule (w_db w) filePath) as [c |]; simpl.
  2:{ exists w. repeat split; auto. left. reflexivity. }
  destruct (FileCreditsConfig.Credits c <=? 0) eqn:Hle; simpl.
  { exists w. repeat split; auto. left. reflexivity. }
  apply Z.leb_gt in Hle. rewrite run_bind.
  destruct (run (op.GetUserCredits userID) w) as [r1 w1] eqn:HG.
  apply GetUserCredits_spec in HG as (Hnow & Hlazy & Hr1 & Hnf).
  destruct (Hnf Hf) as [Hf1 Hok].
  destruct r1 as [uc | e]; [| discriminate].
  destruct (lazily_created_observed _ _ _ Hlazy) as (Hb & _).
  destruct (observed_account _ _ _ Hr1) as (Hbal & _).
  rewrite Hb in Hbal. rewrite <- Hbal.
  replace (FileCreditsConfig.Credits c =? 0) with false
    by (symmetry; apply Z.eqb_neq; lia).
  simpl. rewrite Z.leb_antisym.
  destruct (balance_of (w_db w) userID <? FileCreditsConfig.Credits c); simpl.
  - exists w1. repeat split; auto. lia.
  - exists w1. repeat split; auto. lia.
Qed.

(** X2.  With a working driver, [CheckFileDownloadPermission] reports the
    price of the path and allows the download exactly when the path is free
    or the balance covers the price.  It returns no error, leaves balances
    and transactions as they are, and does not touch the store at all for a
    free path. *)
Theorem Check_allows_iff_affordable (userID : N) (filePath : string)
  (w : World) :
  w_faults w = [] ->
  let p := price_of (w_db w) filePath in
  exists w',
    run (op.CheckFileDownloadPermission userID filePath) w
    = ((((p =? 0) || (p <=? balance_of (w_db w) userID))%bool, p, None), w')
    /\ lazily_created userID (w_db w) (w_db w')
    /\ (p = 0 -> w' = w)
    /\ w_faults w' = [] /\ w_now w' = w_now w.
Proof. exact (CheckFileDownloadPermission_no_fault userID filePath w). Qed.

Lemma Check_allows_iff_affordable_witness :
  exists w',
    run (op.CheckFileDownloadPermission 7 "/a/b/c")
        (mkWorld (mkDB (user_credits store_100)
                       (credit_transactions store_100) rules_a_ab
                       [] [] [] []) 0 [])
    = ((true, 5, None), w').
Proof.
  destruct (Check_allows_iff_affordable 7 "/a/b/c"
              (mkWorld (mkDB (user_credits store_100)
                             (credit_transactions store_100) rules_a_ab
                             [] [] [] []) 0 []) eq_refl)
    as (w' & H & _).
  exists w'. exact H.
Defined.

(** X3.  With a working driver, [ProcessFileDownload] charges exactly the
    price of the path: a free path costs nothing and leaves the store as it
    is; a priced path the user cannot afford is refused with the
    insufficient-balance error and nothing is charged; otherwise the price is
    taken from the balance and one spend transaction for the path is
    appended. *)
Theorem Download_charges_the_price (userID : N) (filePath : string)
  (w : World) (r : result unit) (w' : World) :
  accounts_keyed (w_db w) ->
  int64_range (balance_of (w_db w) userID) ->
  price_of (w_db w) filePath <= max_int64 ->
  w_faults w = [] ->
  run (op.ProcessFileDownload userID filePath) w = (r, w') ->
  let d := w_db w in
  let d' := w_db w' in
  let p := price_of d filePath in
  (p = 0 -> r = Ok tt /\ w' = w) /\
  (0 < p -> balance_of d userID < p ->
     r = Err InsufficientBalance /\
     balance_of d' userID = balance_of d userID /\
     credit_transactions d' = credit_transactions d) /\
  (0 < p -> p <= balance_of d userID ->
     r = Ok tt /\
     balance_of d' userID = balance_of d userID - p /\
     exists i,
       credit_transactions d'
       = credit_transactions d
         ++ [CreditTransaction.mk i userID "spend" (- p)
               (balance_of d userID - p) "download" filePath
               ("下载文件: " ++ filePath)]).
Proof.
  intros Hk Hr Hmax Hf. unfold op.ProcessFileDownload. rewrite run_bind.
  destruct (CheckFileDownloadPermission_no_fault userID filePath w Hf)
    as (w1 & HC & Hlazy & Hfree & Hf1 & _).
  rewrite HC. clear HC. cbv zeta.
  pose proof (price_of_nonneg (w_db w) filePath) as Hp0.
  set (p := price_of (w_db w) filePath) in *.
  destruct (lazily_created_observed _ _ _ Hlazy)
    as (Hb & _ & _ & Htx & _ & _ & _ & Hk1).
  specialize (Hk1 Hk).
  destruct (p =? 0) eqn:Hz.
  { apply Z.eqb_eq in Hz. rewrite Hz. simpl.
    intros [= <- <-]. rewrite (Hfree Hz).
    repeat split; auto; lia. }
  apply Z.eqb_neq in Hz. simpl.
  destruct (p <=? balance_of (w_db w) userID) eqn:Hle; simpl.
  - apply Z.leb_le in Hle.
    replace (0 <? p) with true by (symmetry; apply Z.ltb_lt; lia).
    intros Hrun.
    destruct (DeductCredits_spec _ _ _ _ _ _ _ Hk1 Hrun)
      as (_ & Hok & Hnf & _).
    specialize (Hnf Hf1). rewrite Hb in Hnf, Hok.
    replace (balance_of (w_db w) userID <? p) with false in Hnf
      by (symmetry; apply Z.ltb_ge; exact Hle).
    destruct (Hok Hnf) as (_ & Hb' & _ & _ & i & Htx').
    assert (Hsub : sub64 (balance_of (w_db w) userID) p
                   = balance_of (w_db w) userID - p).
    { apply wrap64_small.
      unfold int64_range, min_int64, max_int64 in *. lia. }
    assert (Hneg : neg64 p = - p).
    { apply wrap64_small.
      unfold int64_range, min_int64, max_int64 in *. lia. }
    rewrite Hsub in Hb', Htx'. rewrite Hneg, Htx in Htx'.
    repeat split; auto; try lia. exists i. exact Htx'.
  - apply Z.leb_gt in Hle. intros [= <- <-].
    repeat split; auto; lia.
Qed.

Lemma Download_charges_the_price_witness :
  let w := mkWorld (mkDB (user_credits store_100)
                         (credit_transactions store_100) rules_a_ab
                         [] [] [] []) 0 [] in
  let w' := snd (run (op.ProcessFileDownload 7 "/a/b/c") w) in
  price_of (w_db w) "/a/b/c" = 5 /\
  balance_of (w_db w) 7 = 100 /\
  balance_of (w_db w') 7 = 95.
Proof.
  intros w w'.
  assert (Hk : accounts_keyed (w_db w)) by (repeat constructor; discriminate).
  assert (Hr : int64_range (balance_of (w_db w) 7))
    by (split; apply Z.leb_le; reflexivity).
  assert (Hm : price_of (w_db w) "/a/b/c" <= max_int64)
    by (apply Z.leb_le; reflexivity).
  assert (Hrun : run (op.ProcessFileDownload 7 "/a/b/c") w
                 = (fst (run (op.ProcessFileDownload 7 "/a/b/c") w), w'))
    by (unfold w'; destruct (run _ w); reflexivity).
  destruct (Download_charges_the_price 7 "/a/b/c" w _ w' Hk Hr Hm eq_refl
              Hrun) as (_ & _ & Hpay).
  assert (Hp : price_of (w_db w) "/a/b/c" = 5) by reflexivity.
  assert (Hb : balance_of (w_db w) 7 = 100) by reflexivity.
  destruct Hpay as (_ & Hb' & _).
  - rewrite Hp. reflexivity.
  - rewrite Hp, Hb. apply Z.leb_le. reflexivity.
  - split; [exact Hp |]. split; [exact Hb |]. rewrite Hb', Hp, Hb.
    reflexivity.
Defined.

(** X4.  A driver failure during the price lookup makes the download free:
    when the first statement fails, [CheckFileDownloadPermission] answers
    allowed at price 0 without error, and [ProcessFileDownload] succeeds
    without charging, whatever the rules say. *)
Theorem Download_free_when_lookup_fails (userID : N) (filePath : string)
  (w : World) :
  hd false (w_faults w) = true ->
  let w' := mkWorld (w_db w) (w_now w) (tl (w_faults w)) in
  run (op.CheckFileDownloadPermission userID filePath) w
  = ((true, 0, None), w') /\
  run (op.ProcessFileDownload userID filePath) w = (Ok tt, w').
Proof.
  intros Hf w'.
  pose proof (GetFileCreditsConfig_driver_failure filePath w Hf) as HG.
  fold w' in HG.
  assert (HC : run (op.CheckFileDownloadPermission userID filePath) w
               = ((true, 0, None), w')).
  { unfold op.CheckFileDownloadPermission. rewrite run_bind, HG.
    reflexivity. }
  split; [exact HC |].
  unfold op.ProcessFileDownload. rewrite run_bind, HC. reflexivity.
Qed.

Lemma Download_free_when_lookup_fails_witness :
  let w := mkWorld (mkDB (user_credits store_100)
                         (credit_transactions store_100) rules_a_ab
                         [] [] [] []) 0 [true] in
  price_of (w_db w) "/a/b/c" = 5 /\
  run (op.ProcessFileDownload 7 "/a/b/c") w
  = (Ok tt, mkWorld (w_db w) 0 []).
Proof.
  intros w. split; [reflexivity |].
  apply (Download_free_when_lookup_fails 7 "/a/b/c" w eq_refl).
Defined.

(** Whatever the driver does, the permission check changes the store at
    most by creating the empty account of the user. *)
Lemma Check_only_creates_account (userID : N) (filePath : string)
  (w : World) (x : bool * Z * option error) (w' : World) :
  run (op.CheckFileDownloadPermission userID filePath) w = (x, w') ->
  lazily_created userID (w_db w) (w_db w').
Proof.
  unfold op.CheckFileDownloadPermission. rewrite run_bind.
  destruct (run (op.GetFileCreditsConfig filePath) w) as [r0 w0] eqn:H0.
  apply GetFileCreditsConfig_reads in H0 as [Hd0 _].
  destruct r0 as [c | e]; simpl.
  2:{ intros [= <- <-]. left. exact Hd0. }
  destruct (FileCreditsConfig.Credits c <=? 0); simpl.
  { intros [= <- <-]. left. exact Hd0. }
  rewrite run_bind.
  destruct (run (op.GetUserCredits userID) w0) as [r1 w1] eqn:HG.
  apply GetUserCredits_spec in HG as (_ & Hlazy & _).
  rewrite Hd0 in Hlazy.
  destruct r1 as [uc | e]; simpl.
  - destruct (_ <? _); intros [= <- <-]; exact Hlazy.
  - intros [= <- <-]. exact Hlazy.
Qed.

(** X5.  A download never credits: whatever the driver does and however the
    call ends, [ProcessFileDownload] leaves the balance of the user as it
    is or lowers it, never below zero when it was not negative. *)
Theorem Download_never_credits (userID : N) (filePath : string)
  (w : World) (r : result unit) (w' : World) :
  accounts_keyed (w_db w) ->
  int64_range (balance_of (w_db w) userID) ->
  run (op.ProcessFileDownload userID filePath) w = (r, w') ->
  balance_of (w_db w') userID <= balance_of (w_db w) userID /\
  (0 <= balance_of (w_db w) userID -> 0 <= balance_of (w_db w') userID).
Proof.
  intros Hk Hr. unfold op.ProcessFileDownload. rewrite run_bind.
  destruct (run (op.CheckFileDownloadPermission userID filePath) w)
    as [[[can req] err] w1] eqn:HC.
  apply Check_only_creates_account in HC.
  destruct (lazily_created_observed _ _ _ HC)
    as (Hb & _ & _ & _ & _ & _ & _ & Hk1).
  specialize (Hk1 Hk).
  destruct err as [e |]; simpl.
  { intros [= <- <-]. lia. }
  destruct can; simpl; [| intros [= <- <-]; lia].
  destruct (0 <? req) eqn:Hreq; [| intros [= <- <-]; lia].
  apply Z.ltb_lt in Hreq. intros Hrun.
  destruct (DeductCredits_spec _ _ _ _ _ _ _ Hk1 Hrun)
    as (_ & _ & _ & Hbal & _).
  rewrite Hb in Hbal. destruct Hbal as [-> | [Hle ->]]; [lia |].
  unfold sub64. rewrite wrap64_small.
  - lia.
  - unfold int64_range, min_int64, max_int64 in *. lia.
Qed.

Lemma Download_never_credits_witness :
  let w := mkWorld (mkDB (user_credits store_100)
                         (credit_transactions store_100) rules_a_ab
                         [] [] [] []) 0 [false; false; false; true] in
  let w' := snd (run (op.ProcessFileDownload 7 "/a/b/c") w) in
  balance_of (w_db w') 7 <= balance_of (w_db w) 7.
Proof.
  intros w w'.
  assert (Hk : accounts_keyed (w_db w)) by (repeat constructor; discriminate).
  assert (Hr : int64_range (balance_of (w_db w) 7))
    by (split; apply Z.leb_le; reflexivity).
  assert (Hrun : run (op.ProcessFileDownload 7 "/a/b/c") w
                 = (fst (run (op.ProcessFileDownload 7 "/a/b/c") w), w'))
    by (unfold w'; destruct (run _ w); reflexivity).
  apply (Download_never_credits 7 "/a/b/c" w _ w' Hk Hr Hrun).
Defined.

Transparent op.GetUserCredits op.GetFileCreditsConfig op.DeductCredits.

(** ** Payment orders: progress, refusals and terminal states *)

Opaque op.AddCredits.

(** With a working driver, a pending and unexpired order is completed. *)
Lemma CompletePaymentOrder_pending (orderNo transactionID : string)
  (amount : op.float64) (paidAt : Z) (o : PaymentOrder.t) (w : World) :
  accounts_keyed (w_db w) ->
  orders_keyed (w_db w) ->
  order_of (w_db w) orderNo = Some o ->
  PaymentOrder.Status o = "pending" ->
  PaymentOrder.IsExpired o (w_now w) = false ->
  w_faults w = [] ->
  exists w',
    run (op.CompletePaymentOrder orderNo transactionID amount paidAt) w
    = (Ok tt, w') /\
    order_of (w_db w') orderNo = Some (completed transactionID paidAt o) /\
    credit_outcome (PaymentOrder.UserID o) (PaymentOrder.Credits o)
                   ("购买积分: " ++ orderNo) orderNo (w_db w) (w_db w')
                   (Ok tt).
Proof.
  intros Hka Hko Ho Hst Hex Hf. unfold op.CompletePaymentOrder. simpl.
  unfold db.GetPaymentOrderByOrderNo at 1. unfold gorm.stmt at 1.
  unfold gorm.First. pose proof Ho as Ho'. unfold order_of in Ho'.
  rewrite Hf, Ho'. simpl. rewrite Hst. simpl. rewrite Hex. simpl.
  unfold db.UpdatePaymentOrder at 1. unfold gorm.stmt at 1. simpl.
  destruct (Save_order _ _ _ (completed transactionID paidAt o) Hko Ho
              eq_refl eq_refl) as (t & HS & Hfound).
  unfold completed in HS. rewrite HS. simpl. rewrite run_bind.
  match goal with
  | |- context [run (op.AddCredits ?u ?a ?s ?i) ?w0] =>
      destruct (run (op.AddCredits u a s i) w0) as [r1 w1] eqn:HA
  end.
  apply AddCredits_spec in HA as (Hout & Hnf & _ & Hpo & _); [| exact Hka].
  destruct (Hnf eq_refl) as [-> _].
  exists w1. split; [reflexivity |]. split.
  - unfold order_of. rewrite Hpo. exact Hfound.
  - eapply credit_outcome_frame; [| | exact Hout]; reflexivity.
Qed.

(** A call of [CompletePaymentOrder] that fails in its credit step has
    already saved the order as completed. *)
Lemma CompletePaymentOrder_credit_failed (orderNo transactionID : string)
  (amount : op.float64) (paidAt : Z) (e : error) (w w' : World) :
  accounts_keyed (w_db w) ->
  orders_keyed (w_db w) ->
  run (op.CompletePaymentOrder orderNo transactionID amount paidAt) w
  = (Err (Wrap e "增加积分失败"), w') ->
  exists o,
    order_of (w_db w) orderNo = Some o /\
    PaymentOrder.Status o = "pending" /\
    order_of (w_db w') orderNo = Some (completed transactionID paidAt o) /\
    credit_outcome (PaymentOrder.UserID o) (PaymentOrder.Credits o)
                   ("购买积分: " ++ orderNo) orderNo (w_db w) (w_db w')
                   (Err e).
Proof.
  intros Hka Hko. unfold op.CompletePaymentOrder. simpl.
  unfold db.GetPaymentOrderByOrderNo at 1. unfold gorm.stmt at 1.
  unfold gorm.First.
  destruct (hd false (w_faults w)); [discriminate |].
  destruct (find (db.by_order_no orderNo) (payment_orders (w_db w)))
    as [o |] eqn:Ho; [| discriminate].
  simpl.
  destruct (String.eqb (PaymentOrder.Status o) "pending") eqn:Hst;
    [| discriminate].
  simpl.
  destruct (PaymentOrder.IsExpired o (w_now w)) eqn:Hex; [discriminate |].
  simpl. unfold db.UpdatePaymentOrder at 1. unfold gorm.stmt at 1. simpl.
  destruct (hd false (tl (w_faults w))); [discriminate |].
  destruct (Save_order _ _ _ (completed transactionID paidAt o) Hko Ho
              eq_refl eq_refl) as (t & HS & Hfound).
  unfold completed in HS. rewrite HS. simpl. rewrite run_bind.
  match goal with
  | |- context [run (op.AddCredits ?u ?a ?s ?i) ?w0] =>
      destruct (run (op.AddCredits u a s i) w0) as [r1 w1] eqn:HA
  end.
  apply AddCredits_spec in HA as (Hout & _ & _ & Hpo & _); [| exact Hka].
  destruct r1 as [[] | e1]; [discriminate |].
  simpl. intros [= <- <-]. exists o. simpl in *.
  repeat split; auto.
  - apply String.eqb_eq, Hst.
  - unfold order_of. rewrite Hpo. exact Hfound.
  - eapply credit_outcome_frame; [| | exact Hout]; reflexivity.
Qed.

Transparent op.AddCredits.

(** The effects of completing a pending, unexpired order. *)
Lemma CompletePaymentOrder_settles (orderNo transactionID : string)
  (amount : op.float64) (paidAt : Z) (o : PaymentOrder.t) (w : World) :
  accounts_keyed (w_db w) ->
  orders_keyed (w_db w) ->
  order_of (w_db w) orderNo = Some o ->
  PaymentOrder.Status o = "pending" ->
  w_now w <= PaymentOrder.ExpiresAt o ->
  w_faults w = [] ->
  exists w' i,
    run (op.CompletePaymentOrder orderNo transactionID amount paidAt) w
    = (Ok tt, w') /\
    order_of (w_db w') orderNo = Some (completed transactionID paidAt o) /\
    balance_of (w_db w') (PaymentOrder.UserID o)
    = add64 (balance_of (w_db w) (PaymentOrder.UserID o))
            (PaymentOrder.Credits o) /\
    credit_transactions (w_db w')
    = credit_transactions (w_db w)
      ++ [CreditTransaction.mk i (PaymentOrder.UserID o) "earn"
            (PaymentOrder.Credits o)
            (balance_of (w_db w') (PaymentOrder.UserID o))
            ("购买积分: " ++ orderNo) orderNo ("购买积分: " ++ orderNo)].
Proof.
  intros Hka Hko Ho Hst Hex Hf.
  assert (Hex' : PaymentOrder.IsExpired o (w_now w) = false).
  { unfold PaymentOrder.IsExpired. apply Z.ltb_ge. exact Hex. }
  destruct (CompletePaymentOrder_pending orderNo transactionID amount paidAt
              o w Hka Hko Ho Hst Hex' Hf) as (w' & Hrun & Ho' & Hout).
  inversion Hout as [i Hb _ _ Htx | |]; subst.
  exists w', i. repeat split; auto. rewrite Hb. exact Htx.
Qed.

(** X6.  With a working driver, completing a pending order that has not
    expired succeeds: the order is saved as completed with the payment time
    and the transaction id, and its owner is credited the order's credits by
    one earn transaction that names the order. *)
Theorem Complete_settles_pending_order (orderNo transactionID : string)
  (amount : op.float64) (paidAt : Z) (o : PaymentOrder.t) (w : World) :
  accounts_keyed (w_db w) ->
  orders_keyed (w_db w) ->
  order_of (w_db w) orderNo = Some o ->
  PaymentOrder.Status o = "pending" ->
  w_now w <= PaymentOrder.ExpiresAt o ->
  w_faults w = [] ->
  exists w' i,
    run (op.CompletePaymentOrder orderNo transactionID amount paidAt) w
    = (Ok tt, w') /\
    order_of (w_db w') orderNo = Some (completed transactionID paidAt o) /\
    balance_of (w_db w') (PaymentOrder.UserID o)
    = add64 (balance_of (w_db w) (PaymentOrder.UserID o))
            (PaymentOrder.Credits o) /\
    credit_transactions (w_db w')
    = credit_transactions (w_db w)
      ++ [CreditTransaction.mk i (PaymentOrder.UserID o) "earn"
            (PaymentOrder.Credits o)
            (balance_of (w_db w') (PaymentOrder.UserID o))
            ("购买积分: " ++ orderNo) orderNo ("购买积分: " ++ orderNo)].
Proof. exact (CompletePaymentOrder_settles orderNo transactionID amount paidAt o w). Qed.

Lemma Complete_settles_pending_order_witness :
  exists w' i,
    run (op.CompletePaymentOrder "OL1" "T1" op.float64_0 10)
        (world_order 10 []) = (Ok tt, w') /\
    balance_of (w_db w') 7 = 150 /\
    option_map PaymentOrder.Status (order_of (w_db w') "OL1")
    = Some "completed" /\
    i = 2%N.
Proof.
  destruct (Complete_settles_pending_order "OL1" "T1" op.float64_0 10
              (PaymentOrder.mk 1 "OL1" 7 50 50 "alipay" "pending" None 1000
                               EmptyString)
              (world_order 10 []))
    as (w' & i & Hrun & Ho & Hb & Htx).
  - repeat constructor. discriminate.
  - repeat constructor. discriminate.
  - reflexivity.
  - reflexivity.
  - simpl. lia.
  - reflexivity.
  - exists w', i. split; [exact Hrun |]. split; [exact Hb |].
    split; [rewrite Ho; reflexivity |].
    vm_compute in Hrun. injection Hrun as <-. vm_compute in Htx.
    injection Htx as ->. reflexivity.
Defined.

(** The three refusals of [CompletePaymentOrder]. *)
Lemma CompletePaymentOrder_refusals (orderNo transactionID : string)
  (amount : op.float64) (paidAt : Z) (w : World) (r : result unit)
  (w' : World) :
  hd false (w_faults w) = false ->
  run (op.CompletePaymentOrder orderNo transactionID amount paidAt) w
  = (r, w') ->
  (order_of (w_db w) orderNo = None ->
     r = Err (Wrap ErrRecordNotFound "获取支付订单失败")
     /\ w_db w' = w_db w) /\
  (forall o, order_of (w_db w) orderNo = Some o ->
     PaymentOrder.Status o <> "pending" ->
     r = Err InvalidOrderState /\ w_db w' = w_db w) /\
  (forall o, order_of (w_db w) orderNo = Some o ->
     PaymentOrder.Status o = "pending" ->
     PaymentOrder.ExpiresAt o < w_now w ->
     r = Err OrderExpired /\ w_db w' = w_db w /\
     order_of (w_db w') orderNo = Some o).
Proof.
  intros Hf Hrun. split; [| split].
  - intros Ho. revert Hrun. unfold op.CompletePaymentOrder. simpl.
    unfold db.GetPaymentOrderByOrderNo, gorm.stmt, gorm.First.
    unfold order_of in Ho. rewrite Hf, Ho. simpl.
    intros [= <- <-]. split; reflexivity.
  - intros o Ho Hst.
    destruct (CompletePaymentOrder_settled _ _ _ _ _ _ _ _ Ho Hst Hrun)
      as (Hd & _ & Hr).
    split; [apply Hr, Hf | exact Hd].
  - intros o Ho Hst Hex. revert Hrun. unfold op.CompletePaymentOrder. simpl.
    unfold db.GetPaymentOrderByOrderNo, gorm.stmt, gorm.First.
    pose proof Ho as Ho'. unfold order_of in Ho'. rewrite Hf, Ho'. simpl.
    rewrite Hst. simpl. unfold PaymentOrder.IsExpired.
    apply Z.ltb_lt in Hex. rewrite Hex. simpl.
    intros [= <- <-]. repeat split. exact Ho.
Qed.

(** X7.  When its lookup does not fail in the driver,
    [CompletePaymentOrder] refuses an unknown order, an order that is not
    pending and a pending order past its expiry, each with its own error,
    and leaves the store unchanged; in particular an expired order stays
    pending. *)
Theorem Complete_refusals_change_nothing (orderNo transactionID : string)
  (amount : op.float64) (paidAt : Z) (w : World) (r : result unit)
  (w' : World) :
  hd false (w_faults w) = false ->
  run (op.CompletePaymentOrder orderNo transactionID amount paidAt) w
  = (r, w') ->
  (order_of (w_db w) orderNo = None ->
     r = Err (Wrap ErrRecordNotFound "获取支付订单失败")
     /\ w_db w' = w_db w) /\
  (forall o, order_of (w_db w) orderNo = Some o ->
     PaymentOrder.Status o <> "pending" ->
     r = Err InvalidOrderState /\ w_db w' = w_db w) /\
  (forall o, order_of (w_db w) orderNo = Some o ->
     PaymentOrder.Status o = "pending" ->
     PaymentOrder.ExpiresAt o < w_now w ->
     r = Err OrderExpired /\ w_db w' = w_db w /\
     order_of (w_db w') orderNo = Some o).
Proof. exact (CompletePaymentOrder_refusals orderNo transactionID amount paidAt w r w'). Qed.

Lemma Complete_refusals_change_nothing_witness :
  let w := world_order 1001 [] in
  run (op.CompletePaymentOrder "OL1" "T1" op.float64_0 1001) w
  = (Err OrderExpired, w) /\
  option_map PaymentOrder.Status (order_of (w_db w) "OL1") = Some "pending".
Proof.
  intros w.
  assert (Hrun : run (op.CompletePaymentOrder "OL1" "T1" op.float64_0 1001) w
                 = (Err OrderExpired, w)) by reflexivity.
  destruct (Complete_refusals_change_nothing "OL1" "T1" op.float64_0 1001 w
              _ _ eq_refl Hrun) as (_ & _ & Hexp).
  destruct (Hexp _ eq_refl eq_refl) as (_ & _ & Ho).
  - simpl. lia.
  - split; [exact Hrun | rewrite Ho; reflexivity].
Defined.

Lemma existsb_false_find {R} (cond : R -> bool) (t : list R) :
  existsb cond t = false -> find cond t = None.
Proof.
  intros H. induction t as [| x t IH]; simpl in *; [reflexivity |].
  destruct (cond x); [discriminate | apply IH, H].
Qed.




(** X9.  A completion that fails in its credit step loses the credit for
    good: the order is already saved as completed, no transaction has been
    recorded, and every later call of [CompletePaymentOrder] for the order
    fails and leaves the store as it is. *)
Theorem Complete_failed_credit_is_lost (orderNo tx1 tx2 : string)
  (amount1 amount2 : op.float64) (paidAt1 paidAt2 : Z) (e : error)
  (w w1 : World) (now2 : Z) (faults2 : list bool) (r2 : result unit)
  (w2 : World) :
  accounts_keyed (w_db w) ->
  orders_keyed (w_db w) ->
  run (op.CompletePaymentOrder orderNo tx1 amount1 paidAt1) w
  = (Err (Wrap e "增加积分失败"), w1) ->
  run (op.CompletePaymentOrder orderNo tx2 amount2 paidAt2)
      (mkWorld (w_db w1) now2 faults2) = (r2, w2) ->
  option_map PaymentOrder.Status (order_of (w_db w1) orderNo)
  = Some "completed" /\
  credit_transactions (w_db w1) = credit_transactions (w_db w) /\
  w_db w2 = w_db w1 /\
  r2 <> Ok tt.
Proof.
  intros Hka Hko H1 H2.
  destruct (CompletePaymentOrder_credit_failed _ _ _ _ _ _ _ Hka Hko H1)
    as (o & _ & _ & Ho1 & Hout).
  split; [rewrite Ho1; reflexivity |]. split.
  - inversion Hout; assumption.
  - destruct (CompletePaymentOrder_settled orderNo tx2 amount2 paidAt2
                (completed tx1 paidAt1 o) (mkWorld (w_db w1) now2 faults2)
                r2 w2 Ho1) as (Hd & [-> | ->] & _);
      [discriminate | exact H2 | | ]; split; auto; discriminate.
Qed.

Lemma Complete_failed_credit_is_lost_witness :
  let w := world_order 10 [false; false; true] in
  let w1 := snd (run (op.CompletePaymentOrder "OL1" "T1" op.float64_0 10) w) in
  balance_of (w_db w1) 7 = 100 /\
  option_map PaymentOrder.Status (order_of (w_db w1) "OL1")
  = Some "completed" /\
  w_db (snd (run (op.CompletePaymentOrder "OL1" "T1" op.float64_0 11)
                 (mkWorld (w_db w1) 11 []))) = w_db w1.
Proof.
  intros w w1.
  destruct (run (op.CompletePaymentOrder "OL1" "T1" op.float64_0 11)
                (mkWorld (w_db w1) 11 [])) as [r2 w2] eqn:H2.
  destruct (Complete_failed_credit_is_lost "OL1" "T1" "T1" op.float64_0
              op.float64_0 10 11
              (Wrap ErrDriver "获取用户积分失败") w w1 11 [] r2 w2)
    as (Hs & _ & Hd & _).
  - repeat constructor. discriminate.
  - repeat constructor. discriminate.
  - reflexivity.
  - exact H2.
  - split; [reflexivity |]. split; [exact Hs | exact Hd].
Defined.

(** A call of [CancelPaymentOrder] that succeeds found the order pending and
    saved it as cancelled. *)
Lemma CancelPaymentOrder_success (orderNo : string) (userID : N)
  (w w' : World) :
  orders_keyed (w_db w) ->
  run (op.CancelPaymentOrder orderNo userID) w = (Ok tt, w') ->
  exists o,
    order_of (w_db w) orderNo = Some o /\
    PaymentOrder.Status o = "pending" /\
    order_of (w_db w') orderNo
    = Some (PaymentOrder.set_Status "cancelled" o) /\
    user_credits (w_db w') = user_credits (w_db w) /\
    credit_transactions (w_db w') = credit_transactions (w_db w).
Proof.
  intros Hk. unfold op.CancelPaymentOrder. simpl.
  unfold db.GetPaymentOrderByOrderNo, db.UpdatePaymentOrder.
  unfold gorm.stmt, gorm.First.
  destruct (hd false (w_faults w)); [discriminate |].
  destruct (find (db.by_order_no orderNo) (payment_orders (w_db w)))
    as [o |] eqn:Ho; [| discriminate].
  simpl.
  destruct (String.eqb (PaymentOrder.Status o) "pending") eqn:Hst;
    [| discriminate].
  simpl. destruct (hd false (tl (w_faults w))); [discriminate |].
  destruct (Save_order _ _ _ (PaymentOrder.set_Status "cancelled" o) Hk Ho
              eq_refl eq_refl) as (t & HS & Hfound).
  rewrite HS. simpl. intros [= <-]. exists o. simpl.
  repeat split; auto. apply String.eqb_eq, Hst.
Qed.

(** X10.  Completed and cancelled are terminal: once [CancelPaymentOrder] or
    [CompletePaymentOrder] has succeeded for an order, every later call of
    either operation for that order fails and leaves the store as it is,
    whatever the clock and the driver do. *)
Theorem Order_left_pending_for_good (orderNo tx1 tx2 : string)
  (user1 user2 : N) (amount1 amount2 : op.float64) (paidAt1 paidAt2 : Z)
  (w w1 : World) (now2 : Z) (faults2 : list bool) :
  accounts_keyed (w_db w) ->
  orders_keyed (w_db w) ->
  run (op.CancelPaymentOrder orderNo user1) w = (Ok tt, w1)
  \/ run (op.CompletePaymentOrder orderNo tx1 amount1 paidAt1) w
     = (Ok tt, w1) ->
  let w1' := mkWorld (w_db w1) now2 faults2 in
  (forall r2 w2,
     run (op.CancelPaymentOrder orderNo user2) w1' = (r2, w2) ->
     r2 <> Ok tt /\ w_db w2 = w_db w1) /\
  (forall r2 w2,
     run (op.CompletePaymentOrder orderNo tx2 amount2 paidAt2) w1' = (r2, w2)
     -> r2 <> Ok tt /\ w_db w2 = w_db w1).
Proof.
  intros Hka Hko Hfirst w1'.
  assert (Hleft : exists o1, order_of (w_db w1) orderNo = Some o1 /\
                             PaymentOrder.Status o1 <> "pending").
  { destruct Hfirst as [H | H].
    - destruct (CancelPaymentOrder_success _ _ _ _ Hko H)
        as (o & _ & _ & Ho1 & _).
      eexists. split; [exact Ho1 | discriminate].
    - destruct (CompletePaymentOrder_success _ _ _ _ _ _ Hka Hko H)
        as (o & _ & _ & _ & Ho1 & _).
      eexists. split; [exact Ho1 | discriminate]. }
  destruct Hleft as (o1 & Ho1 & Hst). subst w1'. split; intros r2 w2 H2.
  - revert H2. unfold op.CancelPaymentOrder. simpl.
    unfold db.GetPaymentOrderByOrderNo, gorm.stmt, gorm.First. simpl.
    destruct (hd false faults2); simpl.
    + intros [= <- <-]. split; [discriminate | reflexivity].
    + unfold order_of in Ho1. rewrite Ho1. simpl.
      apply String.eqb_neq in Hst. rewrite Hst. simpl.
      intros [= <- <-]. split; [discriminate | reflexivity].
  - destruct (CompletePaymentOrder_settled orderNo tx2 amount2 paidAt2 o1
                (mkWorld (w_db w1) now2 faults2) r2 w2 Ho1 Hst H2)
      as (Hd & [-> | ->] & _); split; auto; discriminate.
Qed.

Lemma Order_left_pending_for_good_witness :
  let w := world_order 10 [] in
  let w1 := snd (run (op.CancelPaymentOrder "OL1" 7) w) in
  let (r2, w2) := run (op.CompletePaymentOrder "OL1" "T1" op.float64_0 11)
                      (mkWorld (w_db w1) 11 []) in
  r2 <> Ok tt /\ w_db w2 = w_db w1 /\ balance_of (w_db w2) 7 = 100.
Proof.
  intros w w1.
  destruct (run (op.CompletePaymentOrder "OL1" "T1" op.float64_0 11)
                (mkWorld (w_db w1) 11 [])) as [r2 w2] eqn:H2.
  destruct (Order_left_pending_for_good "OL1" "T0" "T1" 7 7 op.float64_0
              op.float64_0 0 11 w w1 11 []) as (_ & Hc).
  - repeat constructor. discriminate.
  - repeat constructor. discriminate.
  - left. reflexivity.
  - destruct (Hc r2 w2 H2) as [Hr Hd].
    split; [exact Hr |]. split; [exact Hd |]. rewrite Hd. reflexivity.
Defined.

Opaque op.CompletePaymentOrder.


Transparent op.CompletePaymentOrder.


(** ** Redemption: progress, exhaustion and partial failure *)

Section SaveFacts.
Context {R : Type}.
Variable pk : R -> N.
Variable set_pk : N -> R -> R.
Variable conflict : R -> R -> bool.

(** Saving a changed copy of the row a query has just returned overwrites
    that row, and the query then returns the copy. *)
Lemma Save_overwrites (cond : R -> bool) (r r' : R) (t : list R) :
  Forall (fun x => pk x <> 0%N) t ->
  find cond t = Some r ->
  pk r' = pk r ->
  cond r' = true ->
  exists t',
    gorm.Save pk set_pk conflict r' t = (Ok r', t') /\
    find cond t' = Some r' /\
    Forall (fun x => pk x <> 0%N) t' /\
    t' = map (fun x => if (pk x =? pk r)%N then r' else x) t.
Proof.
  intros Hk Hf Hid Hc.
  exists (map (fun x => if (pk x =? pk r)%N then r' else x) t).
  pose proof (find_some _ _ Hf) as [Hin _].
  assert (Hnz : pk r <> 0%N) by (rewrite Forall_forall in Hk; apply Hk, Hin).
  repeat split.
  - unfold gorm.Save. rewrite Hid. apply N.eqb_neq in Hnz. rewrite Hnz.
    rewrite (find_some_existsb pk _ _ _ Hf). reflexivity.
  - apply (find_overwritten pk); assumption.
  - apply Forall_map. eapply Forall_impl; [| exact Hk]. intros x Hx.
    destruct (pk x =? pk r)%N; [rewrite Hid; exact Hnz | exact Hx].
Qed.

(** Creating a row without key in a table without unique index appends it
    under a fresh key. *)
Lemma Create_fresh (x : R) (t : list R) :
  pk x = 0%N ->
  gorm.Create pk set_pk db.no_conflict x t
  = (Ok (set_pk (gorm.next_id pk t) x), t ++ [set_pk (gorm.next_id pk t) x]).
Proof.
  intros Hx. unfold gorm.Create.
  replace (existsb (db.no_conflict x) t) with false.
  - rewrite Hx. reflexivity.
  - clear. induction t; simpl; auto.
Qed.

End SaveFacts.

Lemma code_enabled_redeemed (code : string) (c : RedeemCode.t) :
  db.code_enabled code c = true -> db.code_enabled code (redeemed c) = true.
Proof. intros H. exact H. Qed.

Opaque op.AddCredits.

(** What [RedeemCode] does once the code has been found usable, up to the
    credit step. *)
Lemma RedeemCode_consumes (userID : N) (code : string) (c : RedeemCode.t)
  (w : World) :
  codes_keyed (w_db w) ->
  enabled_code (w_db w) code = Some c ->
  RedeemCode.CanUse c (w_now w) = true ->
  hd false (w_faults w) = false ->
  hd false (tl (w_faults w)) = false ->
  hd false (tl (tl (w_faults w))) = false ->
  exists d1,
    run (op.RedeemCode userID code) w
    = (let (r, w') :=
         run (op.AddCredits userID (RedeemCode.Credits c)
                            ("兑换码: " ++ code) EmptyString)
             (mkWorld d1 (w_now w) (tl (tl (tl (w_faults w))))) in
       (match r with
        | Err err => Err (Wrap err "增加积分失败")
        | Ok _ => Ok tt
        end, w')) /\
    enabled_code d1 code = Some (redeemed c) /\
    codes_keyed d1 /\
    user_credits d1 = user_credits (w_db w) /\
    credit_transactions d1 = credit_transactions (w_db w) /\
    redeem_code_usages d1
    = redeem_code_usages (w_db w)
      ++ [RedeemCodeUsage.mk
            (gorm.next_id RedeemCodeUsage.ID (redeem_code_usages (w_db w)))
            (RedeemCode.ID c) userID (RedeemCode.Credits c) (w_now w)].
Proof.
  intros Hk Hc Hcan F1 F2 F3.
  pose proof (find_some _ _ Hc) as [_ Hen].
  destruct (Save_overwrites RedeemCode.ID RedeemCode.set_ID db.same_code
              (db.code_enabled code) c (redeemed c) (redeem_codes (w_db w))
              Hk Hc eq_refl (code_enabled_redeemed _ _ Hen))
    as (t & HS & Hfound & Hkt & _).
  exists (db.set_redeem_code_usages
            (redeem_code_usages (w_db w)
             ++ [RedeemCodeUsage.mk
                   (gorm.next_id RedeemCodeUsage.ID
                                 (redeem_code_usages (w_db w)))
                   (RedeemCode.ID c) userID (RedeemCode.Credits c)
                   (w_now w)])
            (db.set_redeem_codes t (w_db w))).
  split; [| repeat split; assumption].
  unfold op.RedeemCode. simpl.
  unfold db.GetRedeemCodeByCode at 1. unfold gorm.stmt at 1.
  unfold gorm.First. unfold enabled_code in Hc. rewrite F1, Hc. simpl.
  rewrite Hcan. simpl.
  unfold db.UpdateRedeemCode at 1. unfold gorm.stmt at 1. simpl.
  rewrite F2. unfold redeemed in HS. rewrite HS. simpl.
  unfold db.CreateRedeemCodeUsage at 1. unfold gorm.stmt at 1. simpl.
  rewrite F3.
  rewrite (Create_fresh RedeemCodeUsage.ID RedeemCodeUsage.set_ID)
    by reflexivity.
  simpl. rewrite run_bind.
  match goal with
  | |- (let (_, _) := ?X in _) = (let (_, _) := ?Y in _) =>
      change Y with X; destruct X as [[[] | e] w1]
  end; reflexivity.
Qed.

Transparent op.AddCredits.

(** With a working driver, a usable code is redeemed. *)
Lemma RedeemCode_usable (userID : N) (code : string) (c : RedeemCode.t)
  (w : World) :
  accounts_keyed (w_db w) ->
  codes_keyed (w_db w) ->
  enabled_code (w_db w) code = Some c ->
  RedeemCode.CanUse c (w_now w) = true ->
  w_faults w = [] ->
  exists w',
    run (op.RedeemCode userID code) w = (Ok tt, w') /\
    enabled_code (w_db w') code = Some (redeemed c) /\
    credit_outcome userID (RedeemCode.Credits c) ("兑换码: " ++ code)
                   EmptyString (w_db w) (w_db w') (Ok tt) /\
    List.length (redeem_code_usages (w_db w'))
    = S (List.length (redeem_code_usages (w_db w))) /\
    accounts_keyed (w_db w') /\ codes_keyed (w_db w') /\
    w_faults w' = [] /\ w_now w' = w_now w.
Proof.
  intros Hka Hkc Hc Hcan Hf.
  destruct (RedeemCode_consumes userID code c w Hkc Hc Hcan)
    as (d1 & Hrun & Hc1 & Hkc1 & Huc & Htx & Hus);
    try (rewrite Hf; reflexivity).
  rewrite Hrun. rewrite Hf. cbn [tl].
  destruct (run (op.AddCredits userID (RedeemCode.Credits c)
                               ("兑换码: " ++ code) EmptyString)
                (mkWorld d1 (w_now w) [])) as [r w'] eqn:HA.
  apply AddCredits_spec in HA
    as (Hout & Hnf & Hnow & _ & Hrc & Hru & Hka');
    [| unfold accounts_keyed; simpl; rewrite Huc; exact Hka].
  destruct (Hnf eq_refl) as [-> Hf'].
  simpl in Hnow, Hrc, Hru.
  exists w'. split; [reflexivity |].
  split; [unfold enabled_code; rewrite Hrc; exact Hc1 |].
  split; [eapply credit_outcome_frame; [| | exact Hout]; simpl; assumption |].
  split; [rewrite Hru, Hus, length_app; simpl; lia |].
  split; [exact Hka' |].
  split; [unfold codes_keyed; rewrite Hrc; exact Hkc1 |].
  split; [exact Hf' | exact Hnow].
Qed.

(** A code that cannot be used is refused and nothing changes. *)
Lemma RedeemCode_unusable (userID : N) (code : string) (c : RedeemCode.t)
  (w : World) :
  enabled_code (w_db w) code = Some c ->
  RedeemCode.CanUse c (w_now w) = false ->
  w_faults w = [] ->
  run (op.RedeemCode userID code) w = (Err CodeUnusable, w).
Proof.
  intros Hc Hcan Hf. unfold op.RedeemCode. simpl.
  unfold db.GetRedeemCodeByCode, gorm.stmt, gorm.First.
  unfold enabled_code in Hc. rewrite Hf, Hc. simpl. rewrite Hcan. simpl.
  destruct w as [d now fs]. simpl in *. subst fs. reflexivity.
Qed.

(** X12.  A code can be redeemed until its use count reaches its maximum and
    no further: with a working driver, when users redeem an enabled,
    unexpired code with [rem] uses left one after the other (the same user
    may come several times), the first [rem] attempts succeed, every later
    attempt is refused as unusable, each success records one usage, and the
    use count never exceeds the maximum. *)
Theorem Redeem_until_exhausted (users : list N) (code : string)
  (c : RedeemCode.t) (rem : nat) (w : World) :
  accounts_keyed (w_db w) ->
  codes_keyed (w_db w) ->
  enabled_code (w_db w) code = Some c ->
  RedeemCode.IsExpired c (w_now w) = false ->
  min_int64 <= RedeemCode.UsedCount c ->
  RedeemCode.MaxUses c <= max_int64 ->
  RedeemCode.MaxUses c = RedeemCode.UsedCount c + Z.of_nat rem ->
  w_faults w = [] ->
  let (rs, w') := redeem_all users code w in
  let n := Nat.min (List.length users) rem in
  rs = repeat (Ok tt) n
       ++ repeat (Err CodeUnusable) (List.length users - rem) /\
  List.length (redeem_code_usages (w_db w'))
  = (List.length (redeem_code_usages (w_db w)) + n)%nat /\
  exists c',
    enabled_code (w_db w') code = Some c' /\
    RedeemCode.UsedCount c' = RedeemCode.UsedCount c + Z.of_nat n /\
    RedeemCode.UsedCount c' <= RedeemCode.MaxUses c'.
Proof.
  revert c rem w.
  induction users as [| u users IH];
    intros c rem w Hka Hkc Hc Hexp Hmin Hmax Hrem Hf.
  - simpl. split; [reflexivity |]. split; [lia |].
    exists c. split; [exact Hc |]. lia.
  - pose proof (find_some _ _ Hc) as [_ Hen]. unfold db.code_enabled in Hen.
    apply andb_true_iff in Hen as [_ Hen].
    cbn [redeem_all]. destruct rem as [| k].
    + assert (Hcan : RedeemCode.CanUse c (w_now w) = false).
      { unfold RedeemCode.CanUse.
        replace (RedeemCode.UsedCount c <? RedeemCode.MaxUses c) with false
          by (symmetry; apply Z.ltb_ge; lia).
        apply andb_false_r. }
      rewrite (RedeemCode_unusable u code c w Hc Hcan Hf).
      specialize (IH c 0%nat w Hka Hkc Hc Hexp Hmin Hmax Hrem Hf).
      destruct (redeem_all users code w) as [rs w'].
      rewrite Nat.min_0_r in *. rewrite Nat.sub_0_r in *.
      destruct IH as (Hrs & Hlen & Hc').
      split; [simpl in *; rewrite Hrs; reflexivity |].
      split; [exact Hlen | exact Hc'].
    + assert (Hcan : RedeemCode.CanUse c (w_now w) = true).
      { unfold RedeemCode.CanUse. rewrite Hen, Hexp.
        apply Z.ltb_lt. lia. }
      destruct (RedeemCode_usable u code c w Hka Hkc Hc Hcan Hf)
        as (w1 & Hrun & Hc1 & _ & Hlen1 & Hka1 & Hkc1 & Hf1 & Hnow1).
      rewrite Hrun.
      assert (Hused : RedeemCode.UsedCount (redeemed c)
                      = RedeemCode.UsedCount c + 1).
      { unfold redeemed. simpl. apply wrap64_small.
        unfold int64_range, min_int64, max_int64 in *. lia. }
      specialize (IH (redeemed c) k w1 Hka1 Hkc1 Hc1).
      destruct (redeem_all users code w1) as [rs w'].
      destruct IH as (Hrs & Hlen & c' & Hc' & Hu' & Hle').
      * rewrite Hnow1. exact Hexp.
      * rewrite Hused. lia.
      * exact Hmax.
      * rewrite Hused. change (RedeemCode.MaxUses (redeemed c))
          with (RedeemCode.MaxUses c). lia.
      * exact Hf1.
      * cbn [List.length Nat.min Nat.sub repeat app].
        split; [rewrite Hrs; reflexivity |].
        split; [rewrite Hlen, Hlen1; lia |].
        exists c'. split; [exact Hc' |]. split; [| exact Hle'].
        rewrite Hu', Hused. lia.
Qed.

Lemma Redeem_until_exhausted_witness :
  let (rs, w') := redeem_all [7%N; 8%N; 7%N] "OLZ"
                             (mkWorld store_fresh_code 0 []) in
  rs = [Ok tt; Ok tt; Err CodeUnusable] /\
  option_map RedeemCode.UsedCount (enabled_code (w_db w') "OLZ") = Some 2 /\
  balance_of (w_db w') 7 = 110 /\ balance_of (w_db w') 8 = 10.
Proof.
  pose proof (Redeem_until_exhausted [7%N; 8%N; 7%N] "OLZ"
                (RedeemCode.mk 1 "OLZ" 10 2 0 true None 1 "gift") 2
                (mkWorld store_fresh_code 0 [])) as H.
  destruct (redeem_all _ _ _) as [rs w'] eqn:E.
  destruct H as (Hrs & _ & c' & Hc' & Hu' & _).
  - repeat constructor. discriminate.
  - repeat constructor. discriminate.
  - reflexivity.
  - reflexivity.
  - apply Z.leb_le. reflexivity.
  - apply Z.leb_le. reflexivity.
  - reflexivity.
  - reflexivity.
  - split; [exact Hrs |]. split; [rewrite Hc'; simpl; rewrite Hu'; reflexivity |].
    vm_compute in E. injection E as _ <-. split; reflexivity.
Defined.

(** X13.  When the credit step of [RedeemCode] fails, the code is consumed
    all the same: the call returns the error of the credit step, the use
    count has been raised and a usage recorded, and no transaction
    exists. *)
Theorem Redeem_consumes_code_before_credit (userID : N) (code : string)
  (c : RedeemCode.t) (e : error) (w w' : World) :
  accounts_keyed (w_db w) ->
  codes_keyed (w_db w) ->
  enabled_code (w_db w) code = Some c ->
  run (op.RedeemCode userID code) w = (Err (Wrap e "增加积分失败"), w') ->
  enabled_code (w_db w') code = Some (redeemed c) /\
  List.length (redeem_code_usages (w_db w'))
  = S (List.length (redeem_code_usages (w_db w))) /\
  credit_transactions (w_db w') = credit_transactions (w_db w) /\
  credit_outcome userID (RedeemCode.Credits c) ("兑换码: " ++ code)
                 EmptyString (w_db w) (w_db w') (Err e).
Proof.
  intros Hka Hkc Hc Hrun.
  assert (F1 : hd false (w_faults w) = false).
  { destruct (hd false (w_faults w)) eqn:F; [| reflexivity].
    revert Hrun. unfold op.RedeemCode. simpl.
    unfold db.GetRedeemCodeByCode, gorm.stmt. rewrite F. discriminate. }
  assert (Hcan : RedeemCode.CanUse c (w_now w) = true).
  { destruct (RedeemCode.CanUse c (w_now w)) eqn:Hcan; [reflexivity |].
    destruct (RedeemCode_found _ _ _ _ _ _ F1 Hc Hrun) as [_ Hun].
    destruct (Hun Hcan) as [Hr _]. discriminate. }
  assert (F2 : hd false (tl (w_faults w)) = false).
  { destruct (hd false (tl (w_faults w))) eqn:F; [| reflexivity].
    revert Hrun. unfold op.RedeemCode. simpl.
    unfold db.GetRedeemCodeByCode, db.UpdateRedeemCode, gorm.stmt.
    unfold gorm.First. unfold enabled_code in Hc. rewrite F1, Hc. simpl.
    rewrite Hcan. simpl. rewrite F. discriminate. }
  assert (F3 : hd false (tl (tl (w_faults w))) = false).
  { destruct (hd false (tl (tl (w_faults w)))) eqn:F; [| reflexivity].
    pose proof (find_some _ _ Hc) as [_ Hen].
    destruct (Save_overwrites RedeemCode.ID RedeemCode.set_ID db.same_code
                (db.code_enabled code) c (redeemed c)
                (redeem_codes (w_db w)) Hkc Hc eq_refl
                (code_enabled_redeemed _ _ Hen)) as (t & HS & _).
    revert Hrun. unfold op.RedeemCode. simpl.
    unfold db.GetRedeemCodeByCode, db.UpdateRedeemCode.
    unfold db.CreateRedeemCodeUsage, gorm.stmt, gorm.First.
    unfold enabled_code in Hc. rewrite F1, Hc. simpl.
    rewrite Hcan. simpl. rewrite F2. unfold redeemed in HS. rewrite HS.
    simpl. rewrite F. discriminate. }
  destruct (RedeemCode_consumes userID code c w Hkc Hc Hcan F1 F2 F3)
    as (d1 & Hrun' & Hc1 & Hkc1 & Huc & Htx & Hus).
  rewrite Hrun' in Hrun.
  destruct (run (op.AddCredits userID (RedeemCode.Credits c)
                               ("兑换码: " ++ code) EmptyString)
                (mkWorld d1 (w_now w) (tl (tl (tl (w_faults w))))))
    as [r w1] eqn:HA.
  apply AddCredits_spec in HA
    as (Hout & _ & _ & _ & Hrc & Hru & _);
    [| unfold accounts_keyed; simpl; rewrite Huc; exact Hka].
  simpl in Hrc, Hru.
  destruct r as [[] | e1]; [discriminate |].
  injection Hrun as <- <-.
  split; [unfold enabled_code; rewrite Hrc; exact Hc1 |].
  split; [rewrite Hru, Hus, length_app; simpl; lia |].
  assert (Hout' : credit_outcome userID (RedeemCode.Credits c)
                    ("兑换码: " ++ code) EmptyString (w_db w) (w_db w1)
                    (Err e1)).
  { eapply credit_outcome_frame; [| | exact Hout]; simpl; assumption. }
  split; [inversion Hout'; assumption | exact Hout'].
Qed.

Lemma Redeem_consumes_code_before_credit_witness :
  let w := mkWorld store_fresh_code 0 [false; false; false; true] in
  let (r, w') := run (op.RedeemCode 7 "OLZ") w in
  r = Err (Wrap (Wrap ErrDriver "获取用户积分失败") "增加积分失败") /\
  option_map RedeemCode.UsedCount (enabled_code (w_db w') "OLZ") = Some 1 /\
  balance_of (w_db w') 7 = 100.
Proof.
  intros w. destruct (run (op.RedeemCode 7 "OLZ") w) as [r w'] eqn:Hrun.
  pose proof Hrun as Hrun'. vm_compute in Hrun'.
  injection Hrun' as Hr Hw. subst r.
  destruct (Redeem_consumes_code_before_credit 7 "OLZ"
              (RedeemCode.mk 1 "OLZ" 10 2 0 true None 1 "gift")
              (Wrap ErrDriver "获取用户积分失败") w w')
    as (Hc' & _ & _ & _).
  - repeat constructor. discriminate.
  - repeat constructor. discriminate.
  - reflexivity.
  - exact Hrun.
  - split; [reflexivity |]. split; [rewrite Hc'; reflexivity |].
    rewrite <- Hw. reflexivity.
Defined.

(** ** Pricing rules: creation, inheritance and deletion *)

Lemma path_unused_no_exact (d : DB) (path : string) :
  path_unused d path = true ->
  find (db.exact_enabled path) (file_credits_configs d) = None.
Proof.
  unfold path_unused. intros H. apply negb_true_iff in H.
  induction (file_credits_configs d) as [| x t IH]; simpl in *;
    [reflexivity |].
  apply orb_false_iff in H as [Hx Ht]. unfold db.exact_enabled at 1.
  rewrite Hx. simpl. apply IH, Ht.
Qed.

(** What [SetFileCreditsConfig] does when its statement does not fail in
    the driver. *)
Lemma SetFileCreditsConfig_spec (path : string) (credits : Z)
  (isFolder : bool) (createdBy : N) (w : World) :
  hd false (w_faults w) = false ->
  run (op.SetFileCreditsConfig path credits isFolder createdBy) w
  = if path_unused (w_db w) path
    then
      let rule :=
        FileCreditsConfig.mk
          (gorm.next_id FileCreditsConfig.ID (file_credits_configs (w_db w)))
          path isFolder credits true true createdBy false in
      (Ok tt,
       mkWorld (db.set_file_credits_configs
                  (file_credits_configs (w_db w) ++ [rule]) (w_db w))
               (w_now w) (tl (w_faults w)))
    else (Err (Wrap ErrDriver "设置文件积分配置失败"),
          mkWorld (w_db w) (w_now w) (tl (w_faults w))).
Proof.
  intros Hf. unfold op.SetFileCreditsConfig. simpl.
  unfold db.CreateFileCreditsConfig, gorm.stmt. rewrite Hf.
  unfold gorm.Create, path_unused. simpl.
  change (existsb (db.same_path _) (file_credits_configs (w_db w)))
    with (existsb (fun c => String.eqb (FileCreditsConfig.Path c) path)
                  (file_credits_configs (w_db w))).
  destruct (existsb _ _); simpl; [| reflexivity].
  destruct w as [[] ? ?]; reflexivity.
Qed.

(** X14.  [SetFileCreditsConfig] creates rules and never changes one: when
    its statement does not fail in the driver, it is refused with the
    driver's error, and changes nothing, as soon as any stored rule has the
    path, be it disabled or deleted; otherwise it appends an enabled,
    inheritable rule under a fresh key, and that rule then prices the path
    with its credits, or with 0 when they are negative. *)
Theorem Set_rule_prices_unused_path (path : string) (credits : Z)
  (isFolder : bool) (createdBy : N) (w : World) (r : result unit)
  (w' : World) :
  hd false (w_faults w) = false ->
  run (op.SetFileCreditsConfig path credits isFolder createdBy) w = (r, w') ->
  (path_unused (w_db w) path = false ->
     r = Err (Wrap ErrDriver "设置文件积分配置失败") /\ w_db w' = w_db w) /\
  (path_unused (w_db w) path = true ->
     r = Ok tt /\
     exists i, i <> 0%N /\
       let rule :=
         FileCreditsConfig.mk i path isFolder credits true true createdBy
                              false in
       file_credits_configs (w_db w')
       = file_credits_configs (w_db w) ++ [rule] /\
       resolved_rule (w_db w') path = Some rule /\
       price_of (w_db w') path = Z.max 0 credits).
Proof.
  intros Hf Hrun. rewrite (SetFileCreditsConfig_spec _ _ _ _ _ Hf) in Hrun.
  split; intros Hu; rewrite Hu in Hrun.
  - injection Hrun as <- <-. split; reflexivity.
  - cbv zeta in Hrun. injection Hrun as <- <-. split; [reflexivity |].
    exists (gorm.next_id FileCreditsConfig.ID (file_credits_configs (w_db w))).
    split; [apply next_id_nonzero |]. cbv zeta.
    split; [reflexivity |].
    assert (Hres : resolved_rule
                     (db.set_file_credits_configs
                        (file_credits_configs (w_db w)
                         ++ [FileCreditsConfig.mk
                               (gorm.next_id FileCreditsConfig.ID
                                  (file_credits_configs (w_db w)))
                               path isFolder credits true true createdBy
                               false]) (w_db w)) path
                   = Some (FileCreditsConfig.mk
                             (gorm.next_id FileCreditsConfig.ID
                                (file_credits_configs (w_db w)))
                             path isFolder credits true true createdBy
                             false)).
    { unfold resolved_rule. simpl.
      rewrite (find_app_none _ _ _ (path_unused_no_exact _ _ Hu));
        [reflexivity |].
      unfold db.exact_enabled. simpl. rewrite String.eqb_refl.
      reflexivity. }
    split; [exact Hres |].
    unfold price_of. cbn [w_db]. rewrite Hres. simpl.
    destruct (credits <=? 0) eqn:Hc;
      [apply Z.leb_le in Hc | apply Z.leb_gt in Hc]; lia.
Qed.

Lemma Set_rule_prices_unused_path_witness :
  let w := world_rules rules_a_ab in
  (fst (run (op.SetFileCreditsConfig "/a/b" 9 false 1) w)
   = Err (Wrap ErrDriver "设置文件积分配置失败")) /\
  (let (r, w') := run (op.SetFileCreditsConfig "/z" 3 false 1) w in
   r = Ok tt /\ price_of (w_db w') "/z" = 3).
Proof.
  intros w. split.
  - destruct (run (op.SetFileCreditsConfig "/a/b" 9 false 1) w)
      as [r w'] eqn:Hrun.
    destruct (Set_rule_prices_unused_path "/a/b" 9 false 1 w r w' eq_refl
                Hrun) as [Hused _].
    destruct (Hused eq_refl) as [Hr _]. exact Hr.
  - destruct (run (op.SetFileCreditsConfig "/z" 3 false 1) w)
      as [r w'] eqn:Hrun.
    destruct (Set_rule_prices_unused_path "/z" 3 false 1 w r w' eq_refl
                Hrun) as [_ Hfree].
    destruct (Hfree eq_refl) as (Hr & i & _ & _ & _ & Hp).
    split; [exact Hr | exact Hp].
Defined.

(** X15.  The handler [SetFileCreditsConfig] does not pass the flags
    [inheritable] and [enabled] of the request on: requests that differ in
    them only are answered by the same program, and with a working driver a
    request for an unused path stores, for the authenticated user, a rule
    that is both inheritable and enabled, whatever the request says. *)
Theorem Set_handler_ignores_request_flags
  (req : handles.SetFileCreditsConfigReq) (inheritable enabled : bool)
  (user : User.t) (w : World) :
  w_faults w = [] ->
  path_unused (w_db w) (handles.req_Path req) = true ->
  let req' :=
    handles.mkSetFileCreditsConfigReq
      (handles.req_Path req) (handles.req_IsFolder req)
      (handles.req_Credits req) inheritable enabled in
  handles.SetFileCreditsConfig (Ok req') user
  = handles.SetFileCreditsConfig (Ok req) user /\
  exists i,
    run (handles.SetFileCreditsConfig (Ok req') user) w
    = (handles.JSON 200
         [("message", "File credits config set successfully")],
       mkWorld
         (db.set_file_credits_configs
            (file_credits_configs (w_db w)
             ++ [FileCreditsConfig.mk i (handles.req_Path req)
                   (handles.req_IsFolder req) (handles.req_Credits req)
                   true true (User.ID user) false]) (w_db w))
         (w_now w) []).
Proof.
  intros Hf Hu req'. split; [reflexivity |].
  eexists. unfold handles.SetFileCreditsConfig. rewrite run_bind.
  rewrite SetFileCreditsConfig_spec by (rewrite Hf; reflexivity).
  cbn [handles.req_Path handles.req_IsFolder handles.req_Credits req'].
  rewrite Hu, Hf. reflexivity.
Qed.

Lemma Set_handler_ignores_request_flags_witness :
  exists i,
    run (handles.SetFileCreditsConfig
           (Ok (handles.mkSetFileCreditsConfigReq "/z" true 3 false false))
           (User.mk 4 "admin" "h" "s" "/" 2 false 0))
        (world_rules rules_a_ab)
    = (handles.JSON 200
         [("message", "File credits config set successfully")],
       world_rules
         (rules_a_ab ++ [FileCreditsConfig.mk i "/z" true 3 true true 4
                                              false])).
Proof.
  destruct (Set_handler_ignores_request_flags
              (handles.mkSetFileCreditsConfigReq "/z" true 3 true true)
              false false (User.mk 4 "admin" "h" "s" "/" 2 false 0)
              (world_rules rules_a_ab) eq_refl eq_refl) as [_ [i Hrun]].
  exists i. exact Hrun.
Defined.

(** A string matches the pattern made of any of its prefixes and [%],
    wildcards in the prefix or not. *)
Lemma LIKE_extension (p suffix : string) :
  gorm.LIKE (p ++ suffix) (p ++ "%") = true.
Proof.
  unfold gorm.LIKE. induction p as [| c p IH].
  - apply LIKE_percent.
  - change (String c p ++ "%")%string with (String c (p ++ "%")).
    change (String c p ++ suffix)%string with (String c (p ++ suffix)).
    remember (p ++ suffix)%string as s eqn:Hs. clear Hs.
    cbn [gorm.LIKE_].
    destruct (Ascii.eqb c "%"%char).
    + destruct s as [| a s]; rewrite IH; simpl; apply orb_true_r.
    + destruct (Ascii.eqb c "_"%char); [exact IH |].
      rewrite Ascii.eqb_refl. exact IH.
Qed.

Lemma length_append (a b : string) :
  String.length (a ++ b) = (String.length a + String.length b)%nat.
Proof. induction a as [| c a IH]; simpl; [reflexivity | rewrite IH; lia]. Qed.

(** The rule a lookup resolves to is a stored rule that is not deleted. *)
Lemma resolved_rule_live (d : DB) (path : string) (c : FileCreditsConfig.t) :
  resolved_rule d path = Some c ->
  In c (file_credits_configs d) /\ FileCreditsConfig.Deleted c = false /\
  (db.exact_enabled path c = true \/ db.inheritable_match path c = true).
Proof.
  unfold resolved_rule.
  destruct (find (db.exact_enabled path) (file_credits_configs d))
    as [x |] eqn:Hex.
  - intros [= ->]. apply find_some in Hex as [Hin Hc].
    split; [exact Hin |]. split; [| left; exact Hc].
    unfold db.exact_enabled in Hc. apply andb_true_iff in Hc as [_ Hc].
    apply negb_true_iff in Hc. exact Hc.
  - intros Hl. apply longest_first_spec in Hl as [Hin _].
    apply filter_In in Hin as [Hin Hc].
    split; [exact Hin |]. split; [| right; exact Hc].
    unfold db.inheritable_match in Hc. apply andb_true_iff in Hc as [_ Hc].
    apply negb_true_iff in Hc. exact Hc.
Qed.

(** X16.  An enabled, inheritable folder rule reaches every path that
    extends its path as a string, whether or not the extension starts a new
    path segment: with a working driver the lookup for such a path returns
    a rule, and one whose path is at least as long as the folder's, so the
    path is never without a rule. *)
Theorem Folder_rule_reaches_string_extensions (c : FileCreditsConfig.t)
  (suffix : string) (w : World) :
  In c (file_credits_configs (w_db w)) ->
  FileCreditsConfig.IsFolder c = true ->
  FileCreditsConfig.Inheritable c = true ->
  FileCreditsConfig.Enabled c = true ->
  FileCreditsConfig.Deleted c = false ->
  w_faults w = [] ->
  exists c',
    run (op.GetFileCreditsConfig (FileCreditsConfig.Path c ++ suffix)) w
    = (Ok c', w) /\
    (String.length (FileCreditsConfig.Path c)
     <= String.length (FileCreditsConfig.Path c'))%nat /\
    price_of (w_db w) (FileCreditsConfig.Path c ++ suffix)
    = Z.max 0 (FileCreditsConfig.Credits c').
Proof.
  intros Hin Hfo Hinh Hen Hdel Hf.
  rewrite (GetFileCreditsConfig_resolved _ _ Hf).
  assert (Hm : db.inheritable_match (FileCreditsConfig.Path c ++ suffix) c
               = true).
  { unfold db.inheritable_match.
    rewrite LIKE_extension, Hfo, Hinh, Hen, Hdel. reflexivity. }
  assert (Hres : exists c',
    resolved_rule (w_db w) (FileCreditsConfig.Path c ++ suffix) = Some c' /\
    (String.length (FileCreditsConfig.Path c)
     <= String.length (FileCreditsConfig.Path c'))%nat).
  { unfold resolved_rule.
    destruct (find (db.exact_enabled _) (file_credits_configs (w_db w)))
      as [x |] eqn:Hex.
    - exists x. split; [reflexivity |].
      apply find_some in Hex as [_ Hx]. unfold db.exact_enabled in Hx.
      apply andb_true_iff in Hx as [Hx _].
      apply andb_true_iff in Hx as [Hx _]. apply String.eqb_eq in Hx.
      rewrite Hx, length_append. lia.
    - destruct (gorm.longest_first
                  (fun c0 => String.length (FileCreditsConfig.Path c0))
                  (filter (db.inheritable_match
                             (FileCreditsConfig.Path c ++ suffix))
                          (file_credits_configs (w_db w))))
        as [x |] eqn:Hl.
      + exists x. split; [reflexivity |].
        apply longest_first_spec in Hl as [_ Hmax].
        apply (Hmax c). apply filter_In. split; assumption.
      + exfalso. unfold gorm.longest_first in Hl.
        assert (Hne : In c (filter (db.inheritable_match
                                      (FileCreditsConfig.Path c ++ suffix))
                                   (file_credits_configs (w_db w))))
          by (apply filter_In; split; assumption).
        destruct (filter _ _) as [| y l]; [contradiction |].
        simpl in Hl. clear - Hl.
        assert (H : forall (l0 : list FileCreditsConfig.t) b,
          fold_left
            (fun best r =>
               match best with
               | None => Some r
               | Some b0 =>
                   if (String.length (FileCreditsConfig.Path b0)
                       <? String.length (FileCreditsConfig.Path r))%nat
                   then Some r else Some b0
               end) l0 (Some b) <> None).
        { induction l0 as [| z l0 IH]; intros b; simpl; [discriminate |].
          destruct (_ <? _)%nat; apply IH. }
        exact (H l y Hl). }
  destruct Hres as (c' & Hres & Hlen). exists c'. rewrite Hres.
  split; [reflexivity |]. split; [exact Hlen |].
  unfold price_of. rewrite Hres.
  destruct (FileCreditsConfig.Credits c' <=? 0) eqn:Hc;
    [apply Z.leb_le in Hc | apply Z.leb_gt in Hc]; lia.
Qed.

Lemma Folder_rule_reaches_string_extensions_witness :
  run (op.GetFileCreditsConfig "/ab/report.pdf") (world_rules rules_a)
  = (Ok (FileCreditsConfig.mk 1 "/a" true 5 true true 1 false),
     world_rules rules_a) /\
  price_of (w_db (world_rules rules_a)) "/ab/report.pdf" = 5.
Proof.
  destruct (Folder_rule_reaches_string_extensions
              (FileCreditsConfig.mk 1 "/a" true 5 true true 1 false)
              "b/report.pdf" (world_rules rules_a))
    as (c' & Hrun & _ & Hp).
  - left. reflexivity.
  - reflexivity.
  - reflexivity.
  - reflexivity.
  - reflexivity.
  - reflexivity.
  - split; [reflexivity | reflexivity].
Defined.

(** After the rows with key [id] have been marked as deleted, no lookup
    resolves to a rule with that key. *)
Lemma soft_deleted_unreachable (d : DB) (id : N) (q : string)
  (c : FileCreditsConfig.t) :
  resolved_rule
    (db.set_file_credits_configs
       (map (db.soft_delete id) (file_credits_configs d)) d) q = Some c ->
  FileCreditsConfig.ID c <> id.
Proof.
  intros H. apply resolved_rule_live in H as (Hin & Hdel & _).
  simpl in Hin. apply in_map_iff in Hin as (x & Hx & _).
  intros Hid. unfold db.soft_delete in Hx.
  destruct ((FileCreditsConfig.ID x =? id)%N
            && negb (FileCreditsConfig.Deleted x)) eqn:Hc.
  - rewrite <- Hx in Hdel. discriminate.
  - subst x. rewrite Hid, N.eqb_refl, Hdel in Hc. discriminate.
Qed.

Lemma soft_delete_keeps_paths (id : N) (path : string)
  (t : list FileCreditsConfig.t) :
  existsb (fun c => String.eqb (FileCreditsConfig.Path c) path)
          (map (db.soft_delete id) t)
  = existsb (fun c => String.eqb (FileCreditsConfig.Path c) path) t.
Proof.
  induction t as [| x t IH]; simpl; [reflexivity |]. rewrite IH.
  unfold db.soft_delete at 1. destruct (_ && _); reflexivity.
Qed.

(** X17.  With a working driver, the handler [DeleteFileCreditsConfig]
    deletes the rule that prices the given path, which is a rule of an
    enclosing folder when the path has no rule of its own: the rows with the
    key of that rule are marked as deleted, no lookup resolves to them any
    more, and the path of the rule stays taken, so that
    [SetFileCreditsConfig] is refused for it from then on.  When no rule
    prices the path the answer is 404 and nothing changes. *)
Theorem Delete_handler_deletes_pricing_rule (path : string) (w : World) :
  w_faults w = [] ->
  path <> EmptyString ->
  match resolved_rule (w_db w) path with
  | None =>
      run (handles.DeleteFileCreditsConfig path) w
      = (handles.ErrorStrResp_Error ErrRecordNotFound 404, w)
  | Some c =>
      let w' :=
        mkWorld (db.set_file_credits_configs
                   (map (db.soft_delete (FileCreditsConfig.ID c))
                        (file_credits_configs (w_db w))) (w_db w))
                (w_now w) [] in
      run (handles.DeleteFileCreditsConfig path) w
      = (handles.JSON 200
           [("message", "File credits config deleted successfully")], w') /\
      (forall q c', resolved_rule (w_db w') q = Some c' ->
                    FileCreditsConfig.ID c' <> FileCreditsConfig.ID c) /\
      (forall credits isFolder createdBy,
         run (op.SetFileCreditsConfig (FileCreditsConfig.Path c) credits
                                      isFolder createdBy) w'
         = (Err (Wrap ErrDriver "设置文件积分配置失败"), w'))
  end.
Proof.
  intros Hf Hne. apply String.eqb_neq in Hne.
  unfold handles.DeleteFileCreditsConfig. rewrite Hne.
  rewrite run_bind, (GetFileCreditsConfig_resolved _ _ Hf).
  destruct (resolved_rule (w_db w) path) as [c |] eqn:Hres;
    [| reflexivity].
  cbv zeta. split; [| split].
  - unfold op.DeleteFileCreditsConfig. simpl.
    unfold db.DeleteFileCreditsConfig, gorm.stmt. rewrite Hf. reflexivity.
  - intros q c' Hq. exact (soft_deleted_unreachable _ _ _ _ Hq).
  - intros credits isFolder createdBy.
    rewrite SetFileCreditsConfig_spec by reflexivity.
    unfold path_unused. cbn [w_db w_now w_faults tl].
    change (file_credits_configs (db.set_file_credits_configs ?t _)) with t.
    assert (Hin : existsb
                    (fun c0 => String.eqb (FileCreditsConfig.Path c0)
                                          (FileCreditsConfig.Path c))
                    (file_credits_configs (w_db w)) = true).
    { apply existsb_exists. exists c. split; [| apply String.eqb_refl].
      apply (resolved_rule_live _ _ _ Hres). }
    simpl. rewrite soft_delete_keeps_paths, Hin. reflexivity.
Qed.

Lemma Delete_handler_deletes_pricing_rule_witness :
  let w := world_rules rules_a_ab in
  let (resp, w') := run (handles.DeleteFileCreditsConfig "/a/b/c") w in
  resp = handles.JSON 200
           [("message", "File credits config deleted successfully")] /\
  price_of (w_db w) "/a/x" = 5 /\
  price_of (w_db w') "/a/x" = 0 /\
  map FileCreditsConfig.Deleted (file_credits_configs (w_db w'))
  = [true; false].
Proof.
  intros w.
  pose proof (Delete_handler_deletes_pricing_rule "/a/b/c" w eq_refl) as H.
  assert (Hres : resolved_rule (w_db w) "/a/b/c"
                 = Some (FileCreditsConfig.mk 1 "/a" true 5 true true 1
                                              false)) by reflexivity.
  rewrite Hres in H. destruct H as (Hrun & _ & _); [discriminate |].
  rewrite Hrun. repeat split; reflexivity.
Defined.

(** ** Generation of redeem codes *)

Lemma find_app_some {R} (cond : R -> bool) (t t' : list R) (r : R) :
  find cond t = Some r -> find cond (t ++ t') = Some r.
Proof.
  induction t as [| x t IH]; simpl; [discriminate |].
  destruct (cond x); [auto | exact IH].
Qed.

Lemma CreateRedeemCode_generated (credits : Z) (description : string)
  (createdBy : N) (expiresAt : option Z) (code : string) (w : World) :
  db.CreateRedeemCode
    (RedeemCode.mk 0 code credits 0 0 false expiresAt createdBy description)
    w
  = if hd false (w_faults w)
         || existsb (fun x => String.eqb (RedeemCode.Code x) code)
                    (redeem_codes (w_db w))
    then (Err ErrDriver, mkWorld (w_db w) (w_now w) (tl (w_faults w)))
    else
      let c := generated_code credits description createdBy expiresAt code
                 (gorm.next_id RedeemCode.ID (redeem_codes (w_db w))) in
      (Ok c,
       mkWorld (db.set_redeem_codes (redeem_codes (w_db w) ++ [c]) (w_db w))
               (w_now w) (tl (w_faults w))).
Proof.
  unfold db.CreateRedeemCode, gorm.stmt.
  destruct (hd false (w_faults w)); [reflexivity |].
  unfold gorm.Create. simpl.
  change (existsb (db.same_code _) (redeem_codes (w_db w)))
    with (existsb (fun x => String.eqb (RedeemCode.Code x) code)
                  (redeem_codes (w_db w))).
  destruct (existsb _ _); [| reflexivity].
  destruct w as [[] ? ?]; reflexivity.
Qed.

(** The loop of [GenerateRedeemCodes]: it stores the codes of the first [k]
    iterations, and returns all codes when [k] is the number of iterations
    and an error otherwise. *)
Lemma GenerateRedeemCodes_from_spec (rnd : nat -> string) (credits : Z)
  (description : string) (createdBy : N) (expiresAt : option Z) (n : nat) :
  forall (i : nat) (codes : list string) (w : World)
         (r : result (list string)) (w' : World),
  run (op.GenerateRedeemCodes_from rnd i n codes credits description
                                   createdBy expiresAt) w = (r, w') ->
  exists (k : nat) (rows : list RedeemCode.t),
    (k <= n)%nat /\
    redeem_codes (w_db w') = redeem_codes (w_db w) ++ rows /\
    map RedeemCode.Code rows = drawn_codes rnd i k /\
    NoDup (map RedeemCode.Code rows) /\
    Forall (fun c =>
              enabled_code (w_db w) (RedeemCode.Code c) = None /\
              enabled_code (w_db w') (RedeemCode.Code c) = Some c /\
              RedeemCode.ID c <> 0%N /\
              c = generated_code credits description createdBy expiresAt
                    (RedeemCode.Code c) (RedeemCode.ID c)) rows /\
    (Forall (fun x => ~ In (RedeemCode.Code x) (map RedeemCode.Code rows))
            (redeem_codes (w_db w))) /\
    user_credits (w_db w') = user_credits (w_db w) /\
    credit_transactions (w_db w') = credit_transactions (w_db w) /\
    (r = Ok (codes ++ drawn_codes rnd i n) /\ k = n \/
     r = Err (Wrap ErrDriver "创建兑换码失败") /\ (k < n)%nat).
Proof.
  induction n as [| n IH]; intros i codes w r w' Hrun.
  - simpl in Hrun. injection Hrun as <- <-. exists 0%nat, [].
    unfold drawn_codes. cbn [seq map]. rewrite !app_nil_r.
    split; [lia |]. split; [reflexivity |]. split; [reflexivity |].
    split; [constructor |]. split; [constructor |].
    split; [apply Forall_forall; intros x _ [] |].
    split; [reflexivity |]. split; [reflexivity |].
    left. split; reflexivity.
  - cbn [op.GenerateRedeemCodes_from] in Hrun. rewrite run_bind in Hrun.
    cbn [run call] in Hrun. rewrite CreateRedeemCode_generated in Hrun.
    destruct (hd false (w_faults w)
              || existsb (fun x => String.eqb (RedeemCode.Code x)
                                     (op.generateRedeemCode (rnd i)))
                         (redeem_codes (w_db w))) eqn:Hc.
    + simpl in Hrun. injection Hrun as <- <-. exists 0%nat, [].
      unfold drawn_codes. cbn [seq map w_db]. rewrite !app_nil_r.
      split; [lia |]. split; [reflexivity |]. split; [reflexivity |].
      split; [constructor |]. split; [constructor |].
      split; [apply Forall_forall; intros x _ [] |].
      split; [reflexivity |]. split; [reflexivity |].
      right. split; [reflexivity | lia].
    + apply orb_false_iff in Hc as [_ Hc]. cbv zeta in Hrun.
      set (c := generated_code credits description createdBy expiresAt
                  (op.generateRedeemCode (rnd i))
                  (gorm.next_id RedeemCode.ID (redeem_codes (w_db w))))
        in Hrun.
      cbn [run] in Hrun.
      apply IH in Hrun
        as (k & rows & Hk & Ht & Hcodes & Hnd & Hall & Hold & Huc & Htx & Hr).
      cbn [w_db] in Ht, Hall, Hold, Huc, Htx.
      change (redeem_codes (db.set_redeem_codes ?t _)) with t in Ht, Hold.
      assert (Hnone : forall x, In x (redeem_codes (w_db w)) ->
                RedeemCode.Code x <> op.generateRedeemCode (rnd i)).
      { intros x Hx He. apply String.eqb_eq in He.
        assert (existsb (fun x => String.eqb (RedeemCode.Code x)
                                    (op.generateRedeemCode (rnd i)))
                        (redeem_codes (w_db w)) = true)
          by (apply existsb_exists; exists x; split; assumption).
        congruence. }
      assert (Hfind : find (db.code_enabled (op.generateRedeemCode (rnd i)))
                           (redeem_codes (w_db w)) = None).
      { apply existsb_false_find.
        apply not_true_is_false. intros He.
        apply existsb_exists in He as (x & Hx & He).
        unfold db.code_enabled in He. apply andb_true_iff in He as [He _].
        apply String.eqb_eq in He. exact (Hnone x Hx He). }
      rewrite Forall_forall in Hold.
      assert (Hc_new : ~ In (RedeemCode.Code c) (map RedeemCode.Code rows)).
      { apply Hold. apply in_or_app. right. left. reflexivity. }
      exists (S k), (c :: rows). split; [lia |].
      split; [rewrite Ht, <- app_assoc; reflexivity |].
      split; [unfold drawn_codes in *; cbn [seq map]; rewrite <- Hcodes;
              reflexivity |].
      split; [cbn [map]; constructor; assumption |].
      split; [| split; [| split; [| split]]].
      * constructor.
        -- split; [exact Hfind |]. split; [| split].
           ++ unfold enabled_code. rewrite Ht.
              apply find_app_some, find_app_none; [exact Hfind |].
              unfold db.code_enabled, c. simpl.
              rewrite String.eqb_refl. reflexivity.
           ++ apply next_id_nonzero.
           ++ reflexivity.
        -- rewrite Forall_forall in Hall |- *. intros x Hx.
           destruct (Hall x Hx) as (Ha & Hb & Hd & He).
           split; [| split; [| split]]; auto.
           unfold enabled_code in *. cbn [redeem_codes db.set_redeem_codes]
             in Ha.
           destruct (find (db.code_enabled (RedeemCode.Code x))
                          (redeem_codes (w_db w))) as [y |] eqn:Hy;
             [| reflexivity].
           rewrite (find_app_some _ _ [c] _ Hy) in Ha. discriminate.
      * apply Forall_forall. intros x Hx [He | Hin].
        -- apply (Hnone x Hx). symmetry. exact He.
        -- apply (Hold x); [apply in_or_app; left; exact Hx | exact Hin].
      * rewrite Huc. reflexivity.
      * rewrite Htx. reflexivity.
      * destruct Hr as [[-> ->] | [-> Hlt]].
        -- left. split; [| reflexivity].
           rewrite <- app_assoc. reflexivity.
        -- right. split; [reflexivity | lia].
Qed.

(** X18.  The codes [GenerateRedeemCodes] returns are stored, new and
    pairwise distinct, and each is valid for one use: a successful call
    returns [count] codes, each the string OL followed by its random draw;
    none of them was an enabled code before, and each is afterwards an
    enabled code with the given credits and expiry, use count 0 and
    maximum 1. *)
Theorem Generated_codes_are_single_use (rnd : nat -> string) (count : Z)
  (credits : Z) (description : string) (createdBy : N)
  (expiresAt : option Z) (w : World) (codes : list string) (w' : World) :
  run (op.GenerateRedeemCodes rnd count credits description createdBy
                              expiresAt) w = (Ok codes, w') ->
  codes = map (fun j => ("OL" ++ rnd j)%string) (seq 0 (Z.to_nat count)) /\
  NoDup codes /\
  forall code, In code codes ->
    enabled_code (w_db w) code = None /\
    exists i, i <> 0%N /\
      enabled_code (w_db w') code
      = Some (RedeemCode.mk i code credits 1 0 true expiresAt createdBy
                            description).
Proof.
  intros Hrun. unfold op.GenerateRedeemCodes in Hrun.
  apply GenerateRedeemCodes_from_spec in Hrun
    as (k & rows & _ & _ & Hcodes & Hnd & Hall & _ & _ & _ & Hr).
  destruct Hr as [[[= ->] ->] | [[=] _]].
  simpl. split; [reflexivity |].
  fold (drawn_codes rnd 0 (Z.to_nat count)). rewrite <- Hcodes.
  split; [exact Hnd |].
  intros code Hin. apply in_map_iff in Hin as (c & <- & Hc).
  rewrite Forall_forall in Hall.
  destruct (Hall c Hc) as (Hold & Hnew & Hid & Hshape).
  split; [exact Hold |]. exists (RedeemCode.ID c).
  split; [exact Hid |]. rewrite Hnew, Hshape at 1. reflexivity.
Qed.

Lemma Generated_codes_are_single_use_witness :
  let rnd := fun j => match j with O => "AAAA" | _ => "BBBB" end in
  let (r, w') := run (op.GenerateRedeemCodes rnd 2 10 "gift" 1 None)
                     (mkWorld store_fresh_code 0 []) in
  r = Ok ["OLAAAA"; "OLBBBB"] /\
  option_map RedeemCode.MaxUses (enabled_code (w_db w') "OLBBBB") = Some 1.
Proof.
  intros rnd.
  destruct (run (op.GenerateRedeemCodes rnd 2 10 "gift" 1 None)
                (mkWorld store_fresh_code 0 [])) as [r w'] eqn:Hrun.
  assert (Hr : r = Ok ["OLAAAA"; "OLBBBB"])
    by (vm_compute in Hrun; congruence).
  subst r. split; [reflexivity |].
  destruct (Generated_codes_are_single_use rnd 2 10 "gift" 1 None _ _ _ Hrun)
    as (_ & _ & Hall).
  destruct (Hall "OLBBBB") as (_ & i & _ & Hc).
  - right. left. reflexivity.
  - rewrite Hc. reflexivity.
Defined.

(** X19.  [GenerateRedeemCodes] does not undo what it has stored when a
    later insertion fails, by a driver failure or because a drawn code is
    already taken: the call returns the insertion error and no codes, and
    the codes of the iterations before the failing one stay stored as
    enabled, unused codes. *)
Theorem Generate_failure_keeps_earlier_codes (rnd : nat -> string)
  (count : Z) (credits : Z) (description : string) (createdBy : N)
  (expiresAt : option Z) (w : World) (e : error) (w' : World) :
  run (op.GenerateRedeemCodes rnd count credits description createdBy
                              expiresAt) w = (Err e, w') ->
  e = Wrap ErrDriver "创建兑换码失败" /\
  exists (k : nat) (rows : list RedeemCode.t),
    (k < Z.to_nat count)%nat /\
    redeem_codes (w_db w') = redeem_codes (w_db w) ++ rows /\
    map RedeemCode.Code rows
    = map (fun j => ("OL" ++ rnd j)%string) (seq 0 k) /\
    Forall (fun c =>
              enabled_code (w_db w') (RedeemCode.Code c) = Some c /\
              RedeemCode.UsedCount c = 0 /\ RedeemCode.MaxUses c = 1) rows.
Proof.
  intros Hrun. unfold op.GenerateRedeemCodes in Hrun.
  apply GenerateRedeemCodes_from_spec in Hrun
    as (k & rows & _ & Ht & Hcodes & _ & Hall & _ & _ & _ & Hr).
  destruct Hr as [[[=] _] | [[= ->] Hk]].
  split; [reflexivity |]. exists k, rows.
  split; [exact Hk |]. split; [exact Ht |]. split; [exact Hcodes |].
  rewrite Forall_forall in Hall |- *. intros c Hc.
  destruct (Hall c Hc) as (_ & Hnew & _ & Hshape).
  split; [exact Hnew |]. rewrite Hshape. split; reflexivity.
Qed.

Lemma Generate_failure_keeps_earlier_codes_witness :
  let rnd := fun _ : nat => "AAAA" in
  let (r, w') := run (op.GenerateRedeemCodes rnd 2 10 "gift" 1 None)
                     (mkWorld store_fresh_code 0 []) in
  r = Err (Wrap ErrDriver "创建兑换码失败") /\
  map RedeemCode.Code (redeem_codes (w_db w')) = ["OLZ"; "OLAAAA"].
Proof.
  intros rnd.
  destruct (run (op.GenerateRedeemCodes rnd 2 10 "gift" 1 None)
                (mkWorld store_fresh_code 0 [])) as [r w'] eqn:Hrun.
  assert (Hr : exists e, r = Err e)
    by (vm_compute in Hrun; injection Hrun as <- _; eexists; reflexivity).
  destruct Hr as [e ->].
  destruct (Generate_failure_keeps_earlier_codes rnd 2 10 "gift" 1 None
              _ _ _ Hrun) as (-> & _).
  split; [reflexivity |].
  vm_compute in Hrun. injection Hrun as <-. reflexivity.
Defined.

(** ** Registrations: verification, approval and creation *)

Lemma VerifyUserRegistration_spec (token : string) (w : World) :
  registrations_keyed (w_db w) ->
  w_faults w = [] ->
  run (op.VerifyUserRegistration token) w
  = match pending_by_token (w_db w) token with
    | None => (Err (New "无效的验证链接"), w)
    | Some reg =>
        if UserRegistration.ExpiresAt reg <? w_now w
        then (Err (New "验证链接已过期"), w)
        else (Ok (UserRegistration.set_Status 1 reg),
              mkWorld (db.set_user_registrations
                         (verified reg (user_registrations (w_db w)))
                         (w_db w)) (w_now w) [])
    end.
Proof.
  intros Hk Hf. destruct w as [d now fs]. cbn [w_faults w_db w_now] in *.
  subst fs. unfold op.VerifyUserRegistration, pending_by_token. simpl.
  unfold db.GetUserRegistrationByToken, gorm.stmt, gorm.First. simpl.
  destruct (find (db.by_token_pending token) (user_registrations d))
    as [reg |] eqn:Hfind; simpl; [| reflexivity].
  unfold UserRegistration.IsExpired.
  destruct (UserRegistration.ExpiresAt reg <? now); simpl; [reflexivity |].
  unfold db.UpdateUserRegistration, gorm.stmt. simpl.
  pose proof (find_some _ _ Hfind) as [Hin _].
  assert (Hnz : UserRegistration.ID reg <> 0%N).
  { unfold registrations_keyed in Hk. rewrite Forall_forall in Hk.
    apply Hk, Hin. }
  unfold gorm.Save. simpl. apply N.eqb_neq in Hnz. rewrite Hnz.
  rewrite (find_some_existsb UserRegistration.ID _ _ _ Hfind). reflexivity.
Qed.

(** Once the pending registration of a link is verified, the link leads
    nowhere. *)
Lemma verified_link_is_spent (d : DB) (token : string)
  (reg : UserRegistration.t) :
  tokens_unique d ->
  pending_by_token d token = Some reg ->
  find (db.by_token_pending token) (verified reg (user_registrations d))
  = None.
Proof.
  intros Hu Hfind. pose proof (find_some _ _ Hfind) as [Hin Hreg].
  apply existsb_false_find. apply not_true_is_false. intros He.
  apply existsb_exists in He as (x' & Hx' & Hc).
  unfold verified in Hx'. apply in_map_iff in Hx' as (x & Hx & Hxin).
  destruct (UserRegistration.ID x =? UserRegistration.ID reg)%N eqn:Hid.
  - subst x'. unfold db.by_token_pending in Hc. simpl in Hc.
    rewrite andb_false_r in Hc. discriminate.
  - subst x'. apply N.eqb_neq in Hid. apply Hid. apply Hu; try assumption.
    unfold db.by_token_pending in Hc, Hreg.
    apply andb_true_iff in Hc as [Hc _]. apply andb_true_iff in Hc as [Hc _].
    apply andb_true_iff in Hreg as [Hreg _].
    apply andb_true_iff in Hreg as [Hreg _].
    apply String.eqb_eq in Hc, Hreg. congruence.
Qed.

(** X20.  A verification link works once: with a working driver,
    [VerifyUserRegistration] is refused, and changes nothing, for a token
    that belongs to no pending registration and for one whose registration
    has expired; otherwise it saves the registration with status 1 and
    returns it, and from then on every call with the same token fails and
    changes nothing, whatever the clock and the driver do. *)
Theorem Verify_link_works_once (token : string) (w : World) :
  registrations_keyed (w_db w) ->
  tokens_unique (w_db w) ->
  w_faults w = [] ->
  match pending_by_token (w_db w) token with
  | None =>
      run (op.VerifyUserRegistration token) w
      = (Err (New "无效的验证链接"), w)
  | Some reg =>
      (UserRegistration.ExpiresAt reg < w_now w ->
         run (op.VerifyUserRegistration token) w
         = (Err (New "验证链接已过期"), w)) /\
      (w_now w <= UserRegistration.ExpiresAt reg ->
         exists w',
           run (op.VerifyUserRegistration token) w
           = (Ok (UserRegistration.set_Status 1 reg), w') /\
           user_registrations (w_db w')
           = verified reg (user_registrations (w_db w)) /\
           forall now2 faults2 r2 w2,
             run (op.VerifyUserRegistration token)
                 (mkWorld (w_db w') now2 faults2) = (r2, w2) ->
             is_ok r2 = false /\ w_db w2 = w_db w')
  end.
Proof.
  intros Hk Hu Hf. rewrite (VerifyUserRegistration_spec token w Hk Hf).
  destruct (pending_by_token (w_db w) token) as [reg |] eqn:Hfind;
    [| reflexivity].
  split; intros Hexp.
  - apply Z.ltb_lt in Hexp. rewrite Hexp. reflexivity.
  - apply Z.ltb_ge in Hexp. rewrite Hexp. eexists.
    split; [reflexivity |]. split; [reflexivity |].
    intros now2 faults2 r2 w2. unfold op.VerifyUserRegistration. simpl.
    unfold db.GetUserRegistrationByToken, gorm.stmt, gorm.First. simpl.
    destruct (hd false faults2); simpl.
    + intros [= <- <-]. split; reflexivity.
    + rewrite (verified_link_is_spent _ _ _ Hu Hfind). simpl.
      intros [= <- <-]. split; reflexivity.
Qed.

Lemma Verify_link_works_once_witness :
  let w := mkWorld store_links 50 [] in
  exists w',
    run (op.VerifyUserRegistration "t2") w
    = (Ok (UserRegistration.mk 2 "b@x" "bob" "pw" "h2" "s2" 1 "t2" 100
                               false), w') /\
    fst (run (op.VerifyUserRegistration "t2") (mkWorld (w_db w') 60 []))
    = Err (New "无效的验证链接").
Proof.
  intros w.
  assert (Hu : tokens_unique (w_db w)).
  { intros x y [<- | [<- | []]] [<- | [<- | []]] H;
      first [reflexivity | discriminate H]. }
  assert (Hk : registrations_keyed (w_db w))
    by (repeat constructor; discriminate).
  pose proof (Verify_link_works_once "t2" w Hk Hu eq_refl) as H.
  change (pending_by_token (w_db w) "t2")
    with (Some (UserRegistration.mk 2 "b@x" "bob" "pw" "h2" "s2" 0 "t2" 100
                                    false)) in H.
  destruct H as [_ H]. destruct H as (w' & Hrun & Ht & _).
  - simpl. lia.
  - exists w'. split; [exact Hrun |].
    unfold op.VerifyUserRegistration. simpl.
    unfold db.GetUserRegistrationByToken, gorm.stmt, gorm.First. simpl.
    rewrite Ht. reflexivity.
Defined.

(** X21.  [ApproveUserRegistration] never creates a user: whatever the
    store, the clock, the driver and the id, the call returns an error,
    either that of its lookup or the complaint that the registration is not
    verified, leaves the store as it is and does not depend on
    [CreateUser]; a registration that [VerifyUserRegistration] has verified
    is no exception. *)
Theorem Approve_never_creates_a_user
  (CreateUser CreateUser' : User.t -> prog (result User.t))
  (GENERAL GENERAL' : Z) (registrationID : N) (w : World) :
  run (op.ApproveUserRegistration CreateUser GENERAL registrationID) w
  = run (op.ApproveUserRegistration CreateUser' GENERAL' registrationID) w /\
  exists e,
    run (op.ApproveUserRegistration CreateUser GENERAL registrationID) w
    = (Err e, mkWorld (w_db w) (w_now w) (tl (w_faults w))) /\
    (e = Wrap ErrDriver "获取注册信息失败" \/
     e = Wrap ErrRecordNotFound "获取注册信息失败" \/
     e = New "注册申请未验证或已处理").
Proof.
  unfold op.ApproveUserRegistration. simpl.
  unfold db.GetUserRegistrationByToken, gorm.stmt, gorm.First.
  destruct (hd false (w_faults w)); simpl.
  - split; [reflexivity |]. eexists. split; [reflexivity |]. auto.
  - destruct (find (db.by_token_pending EmptyString)
                   (user_registrations (w_db w))) as [reg |] eqn:Hf; simpl.
    + apply find_some in Hf as [_ Hp]. unfold db.by_token_pending in Hp.
      apply andb_true_iff in Hp as [Hp _].
      apply andb_true_iff in Hp as [_ Hs]. apply Z.eqb_eq in Hs.
      rewrite Hs. simpl. split; [reflexivity |].
      eexists. split; [reflexivity |]. auto.
    + split; [reflexivity |]. eexists. split; [reflexivity |]. auto.
Qed.

Lemma hex_length (s : string) :
  String.length (op.hex_EncodeToString s) = (2 * String.length s)%nat.
Proof. induction s as [| c s IH]; simpl; [reflexivity | rewrite IH; lia]. Qed.

(** The effects of a successful [CreateUserRegistration]. *)
Lemma CreateUserRegistration_ok
  (GetUserByName : string -> World -> result User.t * World)
  (TwoHashPwd : string -> string -> string) (salt : string)
  (rand_Read : result string) (email username password : string)
  (w : World) (reg : UserRegistration.t) (w' : World) :
  run (op.CreateUserRegistration GetUserByName TwoHashPwd salt rand_Read
                                 email username password) w = (Ok reg, w') ->
  exists bytes i,
    rand_Read = Ok bytes /\ i <> 0%N /\
    reg = UserRegistration.mk i email username password
            (TwoHashPwd password salt) salt 0
            (op.hex_EncodeToString bytes) (w_now w' + 24 * op.Hour) false /\
    In reg (user_registrations (w_db w')) /\
    (reads_only GetUserByName ->
     user_registrations (w_db w') = user_registrations (w_db w) ++ [reg]).
Proof.
  unfold op.CreateUserRegistration. rewrite run_bind. cbn [run call].
  destruct (GetUserByName email w) as [r1 w1] eqn:H1.
  destruct (is_ok r1); [discriminate |].
  rewrite run_bind. cbn [run call].
  destruct (GetUserByName username w1) as [r2 w2] eqn:H2.
  destruct (is_ok r2); [discriminate |].
  rewrite run_bind. cbn [run call].
  destruct (db.GetUserRegistrationByEmail email w2) as [r3 w3] eqn:H3.
  rewrite run_bind.
  assert (Hp : exists a,
            run match r3 with
                | Ok existing =>
                    now <- call time_Now ;;
                    Ret (negb (UserRegistration.IsExpired existing now))
                | Err _ => Ret false
                end w3 = (a, w3)).
  { destruct r3; eexists; reflexivity. }
  destruct Hp as [a ->]. destruct a; [discriminate |].
  unfold op.generateToken. destruct rand_Read as [bytes | e]; [| discriminate].
  cbn [bind call run time_Now].
  unfold db.CreateUserRegistration, gorm.stmt.
  destruct (hd false (w_faults w3)); [discriminate |].
  unfold gorm.Create. cbn [UserRegistration.ID].
  destruct (existsb _ _); [discriminate |].
  cbn [N.eqb]. intros [= <- <-].
  exists bytes. eexists. split; [reflexivity |].
  split; [apply (next_id_nonzero UserRegistration.ID
                   (user_registrations (w_db w3))) |].
  split; [reflexivity |].
  assert (Hd3 : w_db w3 = w_db w2).
  { unfold db.GetUserRegistrationByEmail, gorm.stmt in H3.
    destruct (hd false (w_faults w2)); injection H3 as _ <-; reflexivity. }
  cbn [w_db]. split.
  - destruct (w_db w3); simpl. apply in_or_app. right. left. reflexivity.
  - intros Hro. pose proof (Hro email w) as E1. rewrite H1 in E1.
    pose proof (Hro username w1) as E2. rewrite H2 in E2. simpl in E1, E2.
    rewrite Hd3, E2, E1. destruct (w_db w); reflexivity.
Qed.

(** X22.  A registration created by [CreateUserRegistration] is pending, has
    a token of 64 hexadecimal digits and expires 24 hours after its
    creation.  The admin operation [RejectUserRegistration] looks for the
    empty token: when no stored registration had an empty token before, it
    fails after the creation for every id, that of the new registration
    included, and changes nothing. *)
Theorem Created_registration_escapes_rejection
  (GetUserByName : string -> World -> result User.t * World)
  (TwoHashPwd : string -> string -> string) (salt : string)
  (rand_Read : result string) (email username password : string)
  (w : World) (reg : UserRegistration.t) (w1 : World) :
  reads_only GetUserByName ->
  (forall bytes, rand_Read = Ok bytes -> String.length bytes = 32%nat) ->
  Forall (fun x => UserRegistration.Token x <> EmptyString)
         (user_registrations (w_db w)) ->
  run (op.CreateUserRegistration GetUserByName TwoHashPwd salt rand_Read
                                 email username password) w = (Ok reg, w1) ->
  UserRegistration.Status reg = 0 /\
  String.length (UserRegistration.Token reg) = 64%nat /\
  UserRegistration.ExpiresAt reg = w_now w1 + 24 * op.Hour /\
  forall id now faults r2 w2,
    run (op.RejectUserRegistration id) (mkWorld (w_db w1) now faults)
    = (r2, w2) ->
    (r2 = Err (Wrap ErrDriver "获取注册信息失败") \/
     r2 = Err (Wrap ErrRecordNotFound "获取注册信息失败")) /\
    w_db w2 = w_db w1.
Proof.
  intros Hro Hlen Hold Hrun.
  apply CreateUserRegistration_ok in Hrun
    as (bytes & i & Hr & _ & Hreg & _ & Ht).
  specialize (Ht Hro). specialize (Hlen bytes Hr).
  assert (Htok : String.length (UserRegistration.Token reg) = 64%nat)
    by (rewrite Hreg; simpl; rewrite hex_length, Hlen; reflexivity).
  split; [rewrite Hreg; reflexivity |]. split; [exact Htok |].
  split; [rewrite Hreg; reflexivity |].
  intros id now faults r2 w2. unfold op.RejectUserRegistration. simpl.
  unfold db.GetUserRegistrationByToken, gorm.stmt, gorm.First. simpl.
  destruct (hd false faults); simpl.
  - intros [= <- <-]. split; [left |]; reflexivity.
  - assert (Hnone : find (db.by_token_pending EmptyString)
                         (user_registrations (w_db w1)) = None).
    { apply existsb_false_find. apply not_true_is_false. intros He.
      apply existsb_exists in He as (x & Hx & Hc).
      unfold db.by_token_pending in Hc.
      apply andb_true_iff in Hc as [Hc _]. apply andb_true_iff in Hc as [Hc _].
      apply String.eqb_eq in Hc. rewrite Ht in Hx.
      apply in_app_or in Hx as [Hx | [<- | []]].
      - rewrite Forall_forall in Hold. exact (Hold x Hx Hc).
      - rewrite Hc in Htok. discriminate. }
    rewrite Hnone. simpl. intros [= <- <-]. split; [right |]; reflexivity.
Qed.

Lemma Created_registration_escapes_rejection_witness :
  let (r, w1) :=
    run (op.CreateUserRegistration no_user plain_hash "salt"
           (Ok thirty_two_bytes) "c@x" "cat" "secret")
        (mkWorld store_links 50 []) in
  exists reg,
    r = Ok reg /\ UserRegistration.ID reg = 3%N /\
    String.length (UserRegistration.Token reg) = 64%nat /\
    fst (run (op.RejectUserRegistration 3) (mkWorld (w_db w1) 60 []))
    = Err (Wrap ErrRecordNotFound "获取注册信息失败").
Proof.
  destruct (run (op.CreateUserRegistration no_user plain_hash "salt"
                   (Ok thirty_two_bytes) "c@x" "cat" "secret")
                (mkWorld store_links 50 [])) as [r w1] eqn:Hrun.
  assert (Hr : exists reg, r = Ok reg /\ UserRegistration.ID reg = 3%N).
  { vm_compute in Hrun. injection Hrun as <- _. eexists.
    split; reflexivity. }
  destruct Hr as (reg & -> & Hid). exists reg.
  destruct (Created_registration_escapes_rejection no_user plain_hash "salt"
              (Ok thirty_two_bytes) "c@x" "cat" "secret"
              (mkWorld store_links 50 []) reg w1)
    as (_ & Htok & _ & Hrej).
  - intros name w0. reflexivity.
  - intros bytes [= <-]. reflexivity.
  - repeat constructor; discriminate.
  - exact Hrun.
  - split; [reflexivity |]. split; [exact Hid |]. split; [exact Htok |].
    vm_compute in Hrun. injection Hrun as _ <-. reflexivity.
Defined.

(** X23.  An email and a username register once: when any stored
    registration, whatever its status and deleted or not, has the email or
    the username, [CreateUserRegistration] fails and stores nothing,
    whatever the clock, the driver and the random source do.  An expired
    pending registration passes the check for a pending one and is then
    refused by the unique index, so waiting does not help. *)
Theorem Email_and_username_register_once
  (GetUserByName : string -> World -> result User.t * World)
  (TwoHashPwd : string -> string -> string) (salt : string)
  (rand_Read : result string) (email username password : string)
  (x : UserRegistration.t) (w : World)
  (r : result UserRegistration.t) (w' : World) :
  reads_only GetUserByName ->
  In x (user_registrations (w_db w)) ->
  UserRegistration.Email x = email \/ UserRegistration.Username x = username ->
  run (op.CreateUserRegistration GetUserByName TwoHashPwd salt rand_Read
                                 email username password) w = (r, w') ->
  is_ok r = false /\ w_db w' = w_db w.
Proof.
  intros Hro Hin Hx.
  unfold op.CreateUserRegistration. rewrite run_bind. cbn [run call].
  pose proof (Hro email w) as E1.
  destruct (GetUserByName email w) as [r1 w1] eqn:H1. simpl in E1.
  destruct (is_ok r1); [intros [= <- <-]; split; [reflexivity | exact E1] |].
  rewrite run_bind. cbn [run call].
  pose proof (Hro username w1) as E2.
  destruct (GetUserByName username w1) as [r2 w2] eqn:H2. simpl in E2.
  rewrite E1 in E2.
  destruct (is_ok r2); [intros [= <- <-]; split; [reflexivity | exact E2] |].
  rewrite run_bind. cbn [run call].
  destruct (db.GetUserRegistrationByEmail email w2) as [r3 w3] eqn:H3.
  assert (Hd3 : w_db w3 = w_db w).
  { unfold db.GetUserRegistrationByEmail, gorm.stmt in H3.
    destruct (hd false (w_faults w2)); injection H3 as _ <-; exact E2. }
  rewrite run_bind.
  assert (Hp : exists a,
            run match r3 with
                | Ok existing =>
                    now <- call time_Now ;;
                    Ret (negb (UserRegistration.IsExpired existing now))
                | Err _ => Ret false
                end w3 = (a, w3)).
  { destruct r3; eexists; reflexivity. }
  destruct Hp as [a ->].
  destruct a; [intros [= <- <-]; split; [reflexivity | exact Hd3] |].
  unfold op.generateToken.
  destruct rand_Read as [bytes | e];
    [| intros [= <- <-]; split; [reflexivity | exact Hd3]].
  cbn [bind call run time_Now].
  unfold db.CreateUserRegistration, gorm.stmt.
  destruct (hd false (w_faults w3));
    [intros [= <- <-]; split; [reflexivity | exact Hd3] |].
  unfold gorm.Create.
  match goal with
  | |- context [existsb ?c ?t] =>
      assert (Hc : existsb c t = true)
  end.
  { apply existsb_exists. exists x. split; [rewrite Hd3; exact Hin |].
    unfold db.same_registration. simpl.
    destruct Hx as [<- | <-]; rewrite String.eqb_refl;
      rewrite ?orb_true_r; reflexivity. }
  rewrite Hc. intros [= <- <-]. split; [reflexivity |].
  cbn [w_db]. rewrite <- Hd3. destruct (w_db w3); reflexivity.
Qed.

Lemma Email_and_username_register_once_witness :
  let w := mkWorld store_links 1000 [] in
  run (op.CreateUserRegistration no_user plain_hash "salt"
         (Ok thirty_two_bytes) "a@x" "zed" "secret") w
  = (Err (Wrap ErrDriver "创建注册申请失败"), w).
Proof.
  intros w.
  destruct (run (op.CreateUserRegistration no_user plain_hash "salt"
                   (Ok thirty_two_bytes) "a@x" "zed" "secret") w)
    as [r w'] eqn:Hrun.
  destruct (Email_and_username_register_once no_user plain_hash "salt"
              (Ok thirty_two_bytes) "a@x" "zed" "secret"
              (UserRegistration.mk 1 "a@x" "ann" "pw" "h1" "s1" 1 "t1" 100
                                   false) w r w') as [_ Hd].
  - intros name w0. reflexivity.
  - left. reflexivity.
  - left. reflexivity.
  - exact Hrun.
  - vm_compute in Hrun. injection Hrun as <- <-. reflexivity.
Defined.

(** X24.  The handler [CreateRegistration] hands the username of the
    request to [CreateUserRegistration] as the email and the email as the
    username: after a successful request the stored registration has the
    request's username in its email column and the request's email in its
    username column, and the answer carries its id. *)
Theorem CreateRegistration_swaps_email_and_username
  (GetUserByName : string -> World -> result User.t * World)
  (TwoHashPwd : string -> string -> string) (salt : string)
  (rand_Read : result string) (req : handles.CreateRegistrationReq)
  (w : World) (body : list (string * string)) (w' : World) :
  run (handles.CreateRegistration GetUserByName TwoHashPwd salt rand_Read
                                  (Ok req)) w
  = (handles.JSON 200 body, w') ->
  exists reg,
    In reg (user_registrations (w_db w')) /\
    UserRegistration.Email reg = handles.req_Username req /\
    UserRegistration.Username reg = handles.req_Email req /\
    UserRegistration.Password reg = handles.req_Password req /\
    map fst body = ["id"; "message"] /\
    payment.map_get body "id"
    = Some (op.decimal (Z.of_N (UserRegistration.ID reg))).
Proof.
  unfold handles.CreateRegistration. rewrite run_bind.
  destruct (run (op.CreateUserRegistration GetUserByName TwoHashPwd salt
                   rand_Read (handles.req_Username req)
                   (handles.req_Email req) (handles.req_Password req)) w)
    as [[reg | e] w1] eqn:Hrun; [| discriminate].
  cbn [run]. intros [= <- <-]. exists reg.
  apply CreateUserRegistration_ok in Hrun
    as (bytes & i & _ & _ & Hreg & Hin & _).
  split; [exact Hin |]. rewrite Hreg at 1 2 3.
  repeat split; reflexivity.
Qed.

Lemma CreateRegistration_swaps_email_and_username_witness :
  let (resp, w') :=
    run (handles.CreateRegistration no_user plain_hash "salt"
           (Ok thirty_two_bytes)
           (Ok (handles.mkCreateRegistrationReq "cat" "c@x" "secret"
                                                EmptyString)))
        (mkWorld store_links 50 []) in
  resp = handles.JSON 200
           [("id", "3");
            ("message",
             "Registration application submitted successfully. Please wait for admin approval.")]
  /\
  map (fun x => (UserRegistration.Email x, UserRegistration.Username x))
      (user_registrations (w_db w'))
  = [("a@x", "ann"); ("b@x", "bob"); ("cat", "c@x")].
Proof.
  destruct (run (handles.CreateRegistration no_user plain_hash "salt"
                   (Ok thirty_two_bytes)
                   (Ok (handles.mkCreateRegistrationReq "cat" "c@x" "secret"
                                                        EmptyString)))
                (mkWorld store_links 50 [])) as [resp w'] eqn:Hrun.
  pose proof Hrun as Hc. vm_compute in Hc. injection Hc as Hresp Hw.
  rewrite <- Hresp in Hrun.
  destruct (CreateRegistration_swaps_email_and_username _ _ _ _ _ _ _ _ Hrun)
    as (reg & _).
  split; [symmetry; exact Hresp |]. rewrite <- Hw. reflexivity.
Defined.

(** ** Payment providers *)

Lemma leb_trans (a b c : string) :
  String.leb a b = true -> String.leb b c = true -> String.leb a c = true.
Proof.
  unfold String.leb. intros Hab Hbc.
  destruct (String.compare a b) eqn:Eab; try discriminate.
  - apply OrderedTypeEx.String_as_OT.cmp_eq in Eab. subst b. exact Hbc.
  - destruct (String.compare b c) eqn:Ebc; try discriminate.
    + apply OrderedTypeEx.String_as_OT.cmp_eq in Ebc. subst c.
      rewrite Eab. reflexivity.
    + apply OrderedTypeEx.String_as_OT.cmp_lt in Eab, Ebc.
      pose proof (OrderedTypeEx.String_as_OT.lt_trans _ _ _ Eab Ebc) as H.
      apply OrderedTypeEx.String_as_OT.cmp_lt in H.
      unfold OrderedTypeEx.String_as_OT.cmp in H. rewrite H. reflexivity.
Qed.

Lemma leb_false (a b : string) :
  String.leb a b = false -> String.leb b a = true.
Proof.
  intros H. destruct (String.leb_total a b) as [H' | H']; congruence.
Qed.

(** Insertions into a list commute, so the result of [sort.Strings] does
    not depend on the order of its input. *)
Lemma insert_sorted_comm (a b : string) (l : list string) :
  payment.insert_sorted a (payment.insert_sorted b l)
  = payment.insert_sorted b (payment.insert_sorted a l).
Proof.
  induction l as [| x l IH]; simpl.
  - destruct (String.leb a b) eqn:Hab, (String.leb b a) eqn:Hba;
      try reflexivity.
    + rewrite (String.leb_antisym _ _ Hab Hba). reflexivity.
    + apply leb_false in Hab. congruence.
  - destruct (String.leb b x) eqn:Hbx, (String.leb a x) eqn:Hax; simpl.
    + rewrite Hbx, Hax.
      destruct (String.leb a b) eqn:Hab, (String.leb b a) eqn:Hba;
        try reflexivity.
      * rewrite (String.leb_antisym _ _ Hab Hba). reflexivity.
      * apply leb_false in Hab. congruence.
    + rewrite Hbx, Hax.
      destruct (String.leb a b) eqn:Hab; [| reflexivity].
      rewrite (leb_trans _ _ _ Hab Hbx) in Hax. discriminate.
    + rewrite Hbx, Hax.
      destruct (String.leb b a) eqn:Hba; [| reflexivity].
      rewrite (leb_trans _ _ _ Hba Hax) in Hbx. discriminate.
    + rewrite Hbx, Hax, IH. reflexivity.
Qed.

Lemma sort_Strings_Permutation (l l' : list string) :
  Permutation l l' -> payment.sort_Strings l = payment.sort_Strings l'.
Proof.
  unfold payment.sort_Strings.
  induction 1 as [| x l l' _ IH | x y l | l l' l'' _ IH1 _ IH2]; simpl.
  - reflexivity.
  - rewrite IH. reflexivity.
  - apply insert_sorted_comm.
  - rewrite IH1. exact IH2.
Qed.

Section Maps.
Context {V : Type}.

Lemma map_get_In (m : list (string * V)) (k : string) (v : V) :
  NoDup (map fst m) -> (payment.map_get m k = Some v <-> In (k, v) m).
Proof.
  unfold payment.map_get. induction m as [| [k0 v0] m IH]; simpl.
  - intros _. split; [discriminate | contradiction].
  - intros Hnd. inversion Hnd as [| ? ? Hnot Hnd']; subst.
    destruct (String.eqb k0 k) eqn:Hk; simpl.
    + apply String.eqb_eq in Hk. subst k0. split.
      * intros [= ->]. left. reflexivity.
      * intros [[= ->] | Hin]; [reflexivity |].
        exfalso. apply Hnot. apply in_map_iff. exists (k, v).
        split; [reflexivity | exact Hin].
    + rewrite (IH Hnd'). split; [auto |].
      intros [[= -> ->] | Hin]; [| exact Hin].
      rewrite String.eqb_refl in Hk. discriminate.
Qed.

Lemma map_get_Permutation (m m' : list (string * V)) (k : string) :
  NoDup (map fst m) -> Permutation m m' ->
  payment.map_get m k = payment.map_get m' k.
Proof.
  intros Hnd Hp.
  assert (Hnd' : NoDup (map fst m'))
    by (eapply Permutation_NoDup; [apply Permutation_map, Hp | exact Hnd]).
  destruct (payment.map_get m k) as [v |] eqn:E.
  - symmetry. apply (map_get_In _ _ _ Hnd'). apply (Permutation_in _ Hp).
    apply (map_get_In _ _ _ Hnd). exact E.
  - destruct (payment.map_get m' k) as [v' |] eqn:E'; [| reflexivity].
    apply (map_get_In _ _ _ Hnd') in E'.
    apply (Permutation_in _ (Permutation_sym Hp)) in E'.
    apply (map_get_In _ _ _ Hnd) in E'. congruence.
Qed.

Lemma map_delete_Permutation (m m' : list (string * V)) (k : string) :
  Permutation m m' ->
  Permutation (payment.map_delete m k) (payment.map_delete m' k).
Proof.
  unfold payment.map_delete.
  induction 1 as [| x l l' _ IH | x y l | l l' l'' _ IH1 _ IH2]; simpl.
  - constructor.
  - destruct (negb _); [constructor |]; exact IH.
  - destruct (negb (String.eqb (fst x) k)), (negb (String.eqb (fst y) k));
      try apply Permutation_refl. constructor.
  - eapply Permutation_trans; eassumption.
Qed.

Lemma map_delete_NoDup (m : list (string * V)) (k : string) :
  NoDup (map fst m) -> NoDup (map fst (payment.map_delete m k)).
Proof.
  unfold payment.map_delete. induction m as [| x m IH]; simpl; intros Hnd.
  - constructor.
  - inversion Hnd as [| ? ? Hnot Hnd']; subst.
    destruct (negb (String.eqb (fst x) k)); simpl; [| exact (IH Hnd')].
    constructor; [| exact (IH Hnd')].
    intros Hin. apply Hnot. apply in_map_iff in Hin as (y & Hy & Hin).
    apply filter_In in Hin as [Hin _]. apply in_map_iff. exists y.
    split; assumption.
Qed.

End Maps.

Lemma map_index_Permutation (m m' : list (string * string)) (k : string) :
  NoDup (map fst m) -> Permutation m m' ->
  payment.map_index m k = payment.map_index m' k.
Proof.
  intros Hnd Hp. unfold payment.map_index.
  rewrite (map_get_Permutation m m' k Hnd Hp). reflexivity.
Qed.

Lemma string_params_Permutation (pd pd' : list (string * payment.value)) :
  Permutation pd pd' -> Permutation (string_params pd) (string_params pd').
Proof. apply Permutation_flat_map. Qed.

Lemma string_params_NoDup (pd : list (string * payment.value)) :
  NoDup (map fst pd) -> NoDup (map fst (string_params pd)).
Proof.
  induction pd as [| [k v] pd IH]; simpl; intros Hnd; [constructor |].
  inversion Hnd as [| ? ? Hnot Hnd']; subst.
  assert (Hsub : forall k0, In k0 (map fst (string_params pd)) ->
                            In k0 (map fst pd)).
  { clear. intros k0 Hin. apply in_map_iff in Hin as ([k1 s] & <- & Hin).
    unfold string_params in Hin. apply in_flat_map in Hin as ([k2 v2] & H2 & Hin).
    simpl in Hin. destruct v2; try contradiction.
    destruct Hin as [[= <- <-] | []]. apply in_map_iff.
    eexists. split; [| exact H2]. reflexivity. }
  destruct v; simpl; try exact (IH Hnd').
  constructor; [| exact (IH Hnd')]. intros Hin. apply Hnot, Hsub, Hin.
Qed.

Lemma verifyNotifySign_Permutation
  (PublicKey : Type) (base64_DecodeString : string -> option string)
  (sha256_Sum256 : string -> string)
  (rsa_VerifyPKCS1v15 : PublicKey -> string -> string -> bool)
  (ap : payment.AlipayProvider PublicKey)
  (params params' : list (string * string)) :
  NoDup (map fst params) -> Permutation params params' ->
  payment.verifyNotifySign PublicKey base64_DecodeString sha256_Sum256
                           rsa_VerifyPKCS1v15 ap params
  = payment.verifyNotifySign PublicKey base64_DecodeString sha256_Sum256
                             rsa_VerifyPKCS1v15 ap params'.
Proof.
  intros Hnd Hp. unfold payment.verifyNotifySign.
  rewrite (map_index_Permutation _ _ "sign" Hnd Hp).
  set (p := payment.map_delete (payment.map_delete params "sign") "sign_type").
  set (p' := payment.map_delete (payment.map_delete params' "sign")
                                "sign_type").
  assert (Hp2 : Permutation p p')
    by (apply map_delete_Permutation, map_delete_Permutation, Hp).
  assert (Hnd2 : NoDup (map fst p))
    by (apply map_delete_NoDup, map_delete_NoDup, Hnd).
  rewrite (sort_Strings_Permutation _ _ (Permutation_map fst Hp2)).
  assert (Hidx : forall k, payment.map_index p k = payment.map_index p' k)
    by (intros k; apply map_index_Permutation; assumption).
  rewrite (filter_ext _ (fun key => negb (String.eqb (payment.map_index p' key)
                                                    EmptyString)))
    by (intros k; rewrite Hidx; reflexivity).
  rewrite (map_ext _ (fun key => (key ++ "=" ++ payment.map_index p' key)%string))
    by (intros k; rewrite Hidx; reflexivity).
  reflexivity.
Qed.

(** X25.  The Alipay verification does not depend on the order in which
    the entries of the notification map are visited: the keys are sorted
    before the signed string is built, so for a map given in two orders the
    signature check, the error, and the order number, transaction id and
    payment time of the result are the same, whatever order number the
    caller asks about. *)
Theorem Alipay_verification_ignores_map_order
  (PublicKey : Type) (base64_DecodeString : string -> option string)
  (sha256_Sum256 : string -> string)
  (rsa_VerifyPKCS1v15 : PublicKey -> string -> string -> bool)
  (time_Parse : string -> option Z)
  (ap : payment.AlipayProvider PublicKey) (orderNo orderNo' : string)
  (paymentData paymentData' : list (string * payment.value)) (now : Z) :
  NoDup (map fst paymentData) ->
  Permutation paymentData paymentData' ->
  let VerifyPayment :=
    payment.VerifyPayment PublicKey base64_DecodeString sha256_Sum256
                          rsa_VerifyPKCS1v15 time_Parse ap in
  let (v, e) := VerifyPayment orderNo paymentData now in
  let (v', e') := VerifyPayment orderNo' paymentData' now in
  e = e' /\
  payment.Success v = payment.Success v' /\
  payment.OrderNo v = payment.OrderNo v' /\
  payment.TransactionID v = payment.TransactionID v' /\
  payment.PaidAt v = payment.PaidAt v'.
Proof.
  intros Hnd Hp VerifyPayment. unfold VerifyPayment, payment.VerifyPayment.
  fold (string_params paymentData). fold (string_params paymentData').
  pose proof (string_params_Permutation _ _ Hp) as Hp1.
  pose proof (string_params_NoDup _ Hnd) as Hnd1.
  rewrite <- (verifyNotifySign_Permutation PublicKey base64_DecodeString
                sha256_Sum256 rsa_VerifyPKCS1v15 ap _ _ Hnd1 Hp1).
  destruct (payment.verifyNotifySign PublicKey base64_DecodeString
              sha256_Sum256 rsa_VerifyPKCS1v15 ap
              (string_params paymentData)); simpl;
    [| repeat split; reflexivity].
  set (p := payment.map_delete
              (payment.map_delete (string_params paymentData) "sign")
              "sign_type").
  set (p' := payment.map_delete
               (payment.map_delete (string_params paymentData') "sign")
               "sign_type").
  assert (Hp2 : Permutation p p')
    by (apply map_delete_Permutation, map_delete_Permutation, Hp1).
  assert (Hnd2 : NoDup (map fst p))
    by (apply map_delete_NoDup, map_delete_NoDup, Hnd1).
  assert (Hidx : forall k, payment.map_index p k = payment.map_index p' k)
    by (intros k; apply map_index_Permutation; assumption).
  rewrite <- (Hidx "trade_status").
  destruct (negb (String.eqb (payment.map_index p "trade_status")
                             "TRADE_SUCCESS")
            && negb (String.eqb (payment.map_index p "trade_status")
                                "TRADE_FINISHED")); simpl;
    [repeat split; reflexivity |].
  rewrite <- (Hidx "out_trade_no"), <- (Hidx "trade_no").
  rewrite <- (map_get_Permutation p p' "gmt_payment" Hnd2 Hp2).
  repeat split; reflexivity.
Qed.

Lemma Alipay_verification_ignores_map_order_witness :
  let ap := payment.mkAlipayProvider unit "app" tt in
  let verify :=
    payment.VerifyPayment unit toy_decode toy_identity toy_verify toy_time
                          ap in
  payment.Success (fst (verify "OL1" signed_notification 5)) = true /\
  payment.Success (fst (verify "OL2" (rev signed_notification) 5)) = true /\
  payment.OrderNo (fst (verify "OL2" (rev signed_notification) 5)) = "OL1".
Proof.
  intros ap verify.
  assert (Hnd : NoDup (map fst signed_notification)).
  { repeat constructor; simpl; intros H;
      repeat (destruct H as [H | H]; [discriminate H |]); exact H. }
  pose proof (Alipay_verification_ignores_map_order unit toy_decode
                toy_identity toy_verify toy_time ap "OL1" "OL2"
                signed_notification (rev signed_notification) 5 Hnd
                (Permutation_rev _)) as H.
  cbv zeta in H. fold verify in H.
  destruct (verify "OL1" signed_notification 5) as [v e] eqn:E1.
  destruct (verify "OL2" (rev signed_notification) 5) as [v' e'].
  destruct H as (_ & Hs & Ho & _). simpl.
  rewrite <- Hs, <- Ho. vm_compute in E1. injection E1 as <- _.
  repeat split; reflexivity.
Defined.

Section MapsMore.
Context {V : Type}.

Lemma map_get_delete_other (m : list (string * V)) (k k' : string) :
  k <> k' ->
  payment.map_get (payment.map_delete m k') k = payment.map_get m k.
Proof.
  intros Hne. unfold payment.map_get, payment.map_delete.
  induction m as [| [k0 v0] m IH]; simpl; [reflexivity |].
  destruct (String.eqb k0 k') eqn:Hk'; simpl.
  - apply String.eqb_eq in Hk'. subst k0.
    replace (String.eqb k' k) with false
      by (symmetry; apply String.eqb_neq; congruence).
    exact IH.
  - destruct (String.eqb k0 k); [reflexivity | exact IH].
Qed.

End MapsMore.

Lemma map_index_signature_deleted (m : list (string * string)) (k : string) :
  k <> "sign" -> k <> "sign_type" ->
  payment.map_index
    (payment.map_delete (payment.map_delete m "sign") "sign_type") k
  = payment.map_index m k.
Proof.
  intros H1 H2. unfold payment.map_index.
  rewrite !map_get_delete_other by assumption. reflexivity.
Qed.

(** X26.  The Alipay verification never looks at the order number it is
    asked about: the result is the same for every order number, and it is a
    success exactly when the signature of the notification verifies and its
    trade status is TRADE_SUCCESS or TRADE_FINISHED; the order number and
    the transaction id of a success are those of the notification.  A
    failure carries no data and one of the two errors. *)
Theorem Alipay_verification_never_reads_order_number
  (PublicKey : Type) (base64_DecodeString : string -> option string)
  (sha256_Sum256 : string -> string)
  (rsa_VerifyPKCS1v15 : PublicKey -> string -> string -> bool)
  (time_Parse : string -> option Z)
  (ap : payment.AlipayProvider PublicKey) (orderNo orderNo' : string)
  (paymentData : list (string * payment.value)) (now : Z) :
  let VerifyPayment :=
    payment.VerifyPayment PublicKey base64_DecodeString sha256_Sum256
                          rsa_VerifyPKCS1v15 time_Parse ap in
  let signed :=
    payment.verifyNotifySign PublicKey base64_DecodeString sha256_Sum256
                             rsa_VerifyPKCS1v15 ap
                             (string_params paymentData) in
  let status := payment.map_index (string_params paymentData)
                                  "trade_status" in
  VerifyPayment orderNo paymentData now
  = VerifyPayment orderNo' paymentData now /\
  let (v, e) := VerifyPayment orderNo paymentData now in
  (payment.Success v = true <->
   signed = true /\ (status = "TRADE_SUCCESS" \/ status = "TRADE_FINISHED"))
  /\
  (payment.Success v = true ->
   e = None /\
   payment.OrderNo v
   = payment.map_index (string_params paymentData) "out_trade_no" /\
   payment.TransactionID v
   = payment.map_index (string_params paymentData) "trade_no" /\
   payment.PaymentData v = paymentData) /\
  (payment.Success v = false ->
   v = payment.failed_verification /\
   (e = Some (New "invalid signature") \/
    e = Some (New "payment not successful"))).
Proof.
  intros VerifyPayment signed status. split; [reflexivity |].
  unfold VerifyPayment, payment.VerifyPayment.
  fold (string_params paymentData). fold signed.
  rewrite !map_index_signature_deleted by discriminate. fold status.
  destruct signed; simpl.
  2:{ split; [| split].
      - split; [discriminate | intros [H _]; discriminate H].
      - discriminate.
      - intros _. split; [reflexivity | left; reflexivity]. }
  destruct (String.eqb status "TRADE_SUCCESS") eqn:H1; simpl.
  - apply String.eqb_eq in H1. split; [| split].
    + split; [intros _; split; [reflexivity | left; exact H1] | reflexivity].
    + intros _. repeat split; reflexivity.
    + discriminate.
  - destruct (String.eqb status "TRADE_FINISHED") eqn:H2; simpl.
    + apply String.eqb_eq in H2. split; [| split].
      * split; [intros _; split; [reflexivity | right; exact H2]
               | reflexivity].
      * intros _. repeat split; reflexivity.
      * discriminate.
    + apply String.eqb_neq in H1, H2. split; [| split].
      * split; [discriminate | intros [_ [H | H]]; contradiction].
      * discriminate.
      * intros _. split; [reflexivity | right; reflexivity].
Qed.

Lemma ToUpper_length (s : string) :
  String.length (payment.strings_ToUpper s) = String.length s.
Proof. induction s as [| c s IH]; simpl; [reflexivity | rewrite IH; reflexivity]. Qed.

Lemma filter_Permutation {A} (f : A -> bool) (l l' : list A) :
  Permutation l l' -> Permutation (filter f l) (filter f l').
Proof.
  induction 1 as [| x l l' _ IH | x y l | l l' l'' _ IH1 _ IH2]; simpl.
  - constructor.
  - destruct (f x); [constructor |]; exact IH.
  - destruct (f x), (f y); try apply Permutation_refl. constructor.
  - eapply Permutation_trans; eassumption.
Qed.

(** X27.  The WeChat signature does not depend on the order in which the
    entries of the parameter map are visited: [signParams] sorts the keys of
    the non-empty entries, so a map given in two orders is signed alike. *)
Theorem Wechat_signature_ignores_map_order (md5_Sum : string -> string)
  (wp : payment.WechatProvider) (params params' : list (string * string)) :
  NoDup (map fst params) ->
  Permutation params params' ->
  payment.signParams md5_Sum wp params = payment.signParams md5_Sum wp params'.
Proof.
  intros Hnd Hp. unfold payment.signParams.
  assert (Hidx : forall k,
            payment.map_index params k = payment.map_index params' k)
    by (intros k; apply map_index_Permutation; assumption).
  rewrite (filter_ext _ (fun key => negb (String.eqb
                                            (payment.map_index params' key)
                                            EmptyString)))
    by (intros k; rewrite Hidx; reflexivity).
  rewrite (sort_Strings_Permutation _ _
             (filter_Permutation _ _ _ (Permutation_map fst Hp))).
  rewrite (map_ext _ (fun key =>
                        (key ++ "=" ++ payment.map_index params' key)%string))
    by (intros k; rewrite Hidx; reflexivity).
  reflexivity.
Qed.

Lemma Wechat_signature_ignores_map_order_witness :
  let n := payment.mkWechatNotification "SUCCESS" "OK" "app" "mch" "nonce"
             "sig" "SUCCESS" "openid" "NATIVE" "CMB" 5000 "T9" "OL1"
             EmptyString in
  let wp := payment.mkWechatProvider "app" "mch" "key" "url" "gw" in
  payment.signParams toy_identity wp (rev (payment.notification_params n))
  = payment.signParams toy_identity wp (payment.notification_params n) /\
  payment.signParams toy_identity wp (payment.notification_params n)
  = payment.strings_ToUpper
      (op.hex_EncodeToString
         "appid=app&bank_type=CMB&mch_id=mch&nonce_str=nonce&openid=openid&out_trade_no=OL1&result_code=SUCCESS&return_code=SUCCESS&return_msg=OK&total_fee=5000&trade_type=NATIVE&transaction_id=T9&key=key").
Proof.
  intros n wp. split; [| reflexivity]. symmetry.
  apply Wechat_signature_ignores_map_order.
  - repeat constructor; simpl; intros H;
      repeat (destruct H as [H | H]; [discriminate H |]); exact H.
  - apply Permutation_rev.
Defined.

(** X28.  The WeChat verification of a notification that parses never looks
    at the order number it is asked about, and succeeds exactly when the
    signature recomputed from the notification equals the one it carries
    and both its return code and its result code are SUCCESS; the order
    number and transaction id of a success are those of the notification.
    As the recomputed signature has 32 characters when the hash has 16
    bytes, a notification whose signature has another length, an absent
    one included, is refused as wrongly signed. *)
Theorem Wechat_verification_needs_signature (md5_Sum : string -> string)
  (xml_Unmarshal : string -> result payment.WechatNotification)
  (time_Parse : string -> option Z) (wp : payment.WechatProvider)
  (orderNo orderNo' body : string) (n : payment.WechatNotification)
  (paymentData : list (string * payment.value)) (now : Z) :
  (forall s, String.length (md5_Sum s) = 16%nat) ->
  payment.map_get paymentData "xml" = Some (payment.VString body) ->
  xml_Unmarshal body = Ok n ->
  let VerifyPayment :=
    payment.WechatProvider_VerifyPayment md5_Sum xml_Unmarshal time_Parse
                                         wp in
  VerifyPayment orderNo paymentData now
  = VerifyPayment orderNo' paymentData now /\
  let (v, e) := VerifyPayment orderNo paymentData now in
  (payment.Success v = true <->
   payment.signParams md5_Sum wp (payment.notification_params n)
   = payment.Sign n /\
   payment.ReturnCode n = "SUCCESS" /\ payment.ResultCode n = "SUCCESS") /\
  (payment.Success v = true ->
   e = None /\ payment.OrderNo v = payment.OutTradeNo n /\
   payment.TransactionID v = payment.wn_TransactionID n) /\
  (String.length (payment.Sign n) <> 32%nat ->
   v = payment.failed_verification /\ e = Some (New "invalid signature")).
Proof.
  intros Hmd5 Hxml Hparse VerifyPayment. split; [reflexivity |].
  unfold VerifyPayment, payment.WechatProvider_VerifyPayment.
  rewrite Hxml, Hparse. unfold payment.verifyNotificationSign.
  assert (Hlen : String.length
                   (payment.signParams md5_Sum wp
                      (payment.notification_params n)) = 32%nat).
  { unfold payment.signParams. rewrite ToUpper_length, hex_length, Hmd5.
    reflexivity. }
  destruct (String.eqb (payment.signParams md5_Sum wp
                          (payment.notification_params n))
                       (payment.Sign n)) eqn:Hs; simpl.
  - apply String.eqb_eq in Hs.
    destruct (String.eqb (payment.ReturnCode n) "SUCCESS") eqn:H1; simpl.
    + destruct (String.eqb (payment.ResultCode n) "SUCCESS") eqn:H2; simpl.
      * apply String.eqb_eq in H1, H2. split; [| split].
        -- split; [intros _; repeat split; assumption | reflexivity].
        -- intros _. repeat split; reflexivity.
        -- intros Hne. rewrite <- Hs, Hlen in Hne. contradiction.
      * apply String.eqb_neq in H2. split; [| split].
        -- split; [discriminate | intros (_ & _ & H); contradiction].
        -- discriminate.
        -- intros Hne. rewrite <- Hs, Hlen in Hne. contradiction.
    + apply String.eqb_neq in H1. split; [| split].
      * split; [discriminate | intros (_ & H & _); contradiction].
      * discriminate.
      * intros Hne. rewrite <- Hs, Hlen in Hne. contradiction.
  - apply String.eqb_neq in Hs. split; [| split].
    + split; [discriminate | intros (H & _); contradiction].
    + discriminate.
    + intros _. split; reflexivity.
Qed.

Lemma Wechat_verification_needs_signature_witness :
  let wp := payment.mkWechatProvider "app" "mch" "key" "url" "gw" in
  payment.WechatProvider_VerifyPayment toy_md5 toy_xml toy_time wp "OL1"
    [("xml", payment.VString "unsigned")] 7
  = (payment.failed_verification, Some (New "invalid signature")) /\
  payment.Success
    (fst (payment.WechatProvider_VerifyPayment toy_md5 toy_xml toy_time wp
            "OL2"
            [("xml", payment.VString "30313233343536373839616263646566")] 7))
  = true.
Proof.
  intros wp. split.
  - pose proof (Wechat_verification_needs_signature toy_md5 toy_xml toy_time
                  wp "OL1" "OL1" "unsigned"
                  (payment.mkWechatNotification "SUCCESS" "OK" "app" "mch"
                     "nonce" "unsigned" "SUCCESS" "openid" "NATIVE" "CMB"
                     5000 "T9" "OL1" EmptyString)
                  [("xml", payment.VString "unsigned")] 7
                  (fun _ => eq_refl) eq_refl eq_refl) as [_ H].
    destruct (payment.WechatProvider_VerifyPayment _ _ _ _ _ _ _) as [v e].
    destruct H as (_ & _ & H).
    destruct H as [-> ->]; [discriminate | reflexivity].
  - reflexivity.
Defined.

(** X29.  The handler [PaymentNotification] changes the store for Alipay
    notifications only: for every other provider name the world after the
    call is the world before it, and a WeChat notification whose body can be
    read is answered with SUCCESS whatever it says, so that no WeChat
    payment is ever credited. *)
Theorem Only_alipay_notifications_settle (c : handles.Context) (w : World) :
  handles.Param_provider c <> "alipay" ->
  exists resp,
    run (handles.PaymentNotification c) w = (resp, w) /\
    (handles.Param_provider c = "wechat" ->
     forall body, handles.GetRawData c = Ok body ->
       resp = handles.XML 200 [("return_code", "SUCCESS");
                               ("return_msg", "OK")]).
Proof.
  intros Hne. apply String.eqb_neq in Hne.
  unfold handles.PaymentNotification.
  destruct (String.eqb (handles.Param_provider c) EmptyString) eqn:He.
  - eexists. split; [reflexivity |]. intros Hw. rewrite Hw in He.
    discriminate.
  - rewrite Hne.
    destruct (String.eqb (handles.Param_provider c) "wechat") eqn:Hw.
    + destruct (handles.GetRawData c) as [body | err].
      * eexists. split; [reflexivity |]. intros _ body' _. reflexivity.
      * eexists. split; [reflexivity |]. intros _ body' [=].
    + eexists. split; [reflexivity |]. intros Hw'. rewrite Hw' in Hw.
      discriminate.
Qed.

Lemma Only_alipay_notifications_settle_witness :
  let c := handles.mkContext "wechat" (Err (New "no json"))
             (Ok "<xml><out_trade_no>OL1</out_trade_no></xml>") in
  run (handles.PaymentNotification c) (world_order 10 [])
  = (handles.XML 200 [("return_code", "SUCCESS"); ("return_msg", "OK")],
     world_order 10 []).
Proof.
  intros c.
  destruct (Only_alipay_notifications_settle c (world_order 10 []))
    as (resp & Hrun & Hresp).
  - discriminate.
  - rewrite Hrun, (Hresp eq_refl _ eq_refl). reflexivity.
Defined.

(** X30.  The payment manager dispatches by name: after [RegisterProvider]
    the name leads to the provider just registered, every other name to
    what it led to before, and [VerifyPayment] of the manager is that of
    the provider.  The global manager is created without any provider and
    kept, so through it every verification and every refund fails with the
    provider-not-found error, for Alipay and WeChat too. *)
Theorem Manager_dispatches_by_name (pm : payment.PaymentManager)
  (name name' orderNo : string) (provider : payment.PaymentProvider)
  (paymentData : list (string * payment.value)) (now : Z)
  (amount : op.float64) :
  payment.GetProvider (payment.RegisterProvider pm name provider) name'
  = (if String.eqb name' name then Ok provider
     else payment.GetProvider pm name') /\
  (let (v, e) := payment.iface_VerifyPayment provider orderNo paymentData
                                              now in
   payment.PaymentManager_VerifyPayment
     (payment.RegisterProvider pm name provider) name orderNo paymentData now
   = (Some v, e)) /\
  (let (global, state) := payment.GetPaymentManager None in
   state = Some global /\
   payment.GetPaymentManager state = (global, state) /\
   payment.PaymentManager_VerifyPayment global name' orderNo paymentData now
   = (None, Some (New ("payment provider " ++ name' ++ " not found"))) /\
   payment.PaymentManager_ProcessRefund global name' orderNo amount
   = (None, Some (New ("payment provider " ++ name' ++ " not found")))).
Proof.
  assert (Hget : payment.GetProvider
                   (payment.RegisterProvider pm name provider) name'
                 = (if String.eqb name' name then Ok provider
                    else payment.GetProvider pm name')).
  { unfold payment.GetProvider, payment.RegisterProvider. simpl.
    unfold payment.map_get at 1. simpl.
    rewrite (String.eqb_sym name name').
    destruct (String.eqb name' name) eqn:Hn; [reflexivity |].
    apply String.eqb_neq in Hn.
    fold (payment.map_get (payment.map_delete (payment.providers pm) name)
                          name').
    rewrite (map_get_delete_other _ _ _ Hn). reflexivity. }
  split; [exact Hget |]. split.
  - unfold payment.PaymentManager_VerifyPayment.
    unfold payment.GetProvider, payment.RegisterProvider. simpl.
    unfold payment.map_get. simpl. rewrite String.eqb_refl. simpl.
    destruct (payment.iface_VerifyPayment provider orderNo paymentData now).
    reflexivity.
  - simpl. repeat split; reflexivity.
Qed.
